(** * Skills-as-resources server: catalog scan, identifier resolution,
      subscription manager and catalog reconciliation

    A shallow embedding of the TypeScript reference server
    (skill-discovery.ts, resource-helpers.ts, subscriptions.ts and the
    reconciliation callback of index.ts) and the properties its
    specification states about it.

    Conventions of the embedding.
    - A JavaScript string is a [string]; the characters of the model are
      8-bit, so the only line terminators a string can hold are LF and CR.
    - A call that can throw returns a [result]; [Throw msg] is the
      exception with message [msg].
    - A JavaScript [Map] or [Set] is a list in insertion order: the code
      iterates over them, and [Array.from(map.values())] is observable.
    - [node:fs], [node:path], [yaml] and [chokidar] are not part of the
      repository: the file system is a record of oracles, one field per
      call the code makes; the path library is a record too, with the
      POSIX implementation worked out as an instance. *)

From Stdlib Require Import String Ascii List Bool Arith NArith Lia DecimalString.
Import ListNotations.
Local Open Scope string_scope.
Local Open Scope list_scope.

(** String concatenation, JavaScript's [+] on strings. *)
Infix "+++" := String.append (at level 60, right associativity).

(** * Part I: the program *)

(** ** Results of calls that can throw *)

Inductive result (A : Type) : Type :=
| Ok (a : A)
| Throw (msg : string).
Arguments Ok {A} a.
Arguments Throw {A} msg.

Definition isOk {A} (r : result A) : bool :=
  match r with Ok _ => true | Throw _ => false end.

(** ** JavaScript string primitives *)

Module Js.

(** [s.startsWith(p)] *)
Definition startsWith (s p : string) : bool := String.prefix p s.

(** [s.includes(sub)] *)
Fixpoint includes (s sub : string) : bool :=
  if String.prefix sub s then true
  else match s with
       | EmptyString => false
       | String _ s' => includes s' sub
       end.

(** [s.endsWith(suf)] *)
Definition endsWith (s suf : string) : bool :=
  let n := String.length s in
  let m := String.length suf in
  if Nat.leb m n then String.eqb (String.substring (n - m) m s) suf else false.

(** White space removed by [trim]: TAB, LF, VT, FF, CR, SPACE and NBSP. *)
Definition isSpace (c : ascii) : bool :=
  let n := nat_of_ascii c in
  (Nat.leb 9 n && Nat.leb n 13) || Nat.eqb n 32 || Nat.eqb n 160.

Fixpoint trimStart (s : string) : string :=
  match s with
  | String c s' => if isSpace c then trimStart s' else s
  | EmptyString => EmptyString
  end.

Fixpoint trimEnd (s : string) : string :=
  match s with
  | EmptyString => EmptyString
  | String c s' =>
      match trimEnd s' with
      | EmptyString => if isSpace c then EmptyString else String c EmptyString
      | t => String c t
      end
  end.

(** [s.trim()] *)
Definition trim (s : string) : string := trimEnd (trimStart s).

(** [s.split(sep)] for a non-empty separator: [skip] counts the characters
    of a matched separator still to be passed over, [cur] is the piece
    being read. *)
Fixpoint splitFrom (sep s : string) (skip : nat) (cur : string) : list string :=
  match s with
  | EmptyString => [cur]
  | String c s' =>
      match skip with
      | S k => splitFrom sep s' k cur
      | O =>
          if String.prefix sep s
          then cur :: splitFrom sep s' (String.length sep - 1) EmptyString
          else splitFrom sep s' O (cur +++ String c EmptyString)
      end
  end.

Definition split (s sep : string) : list string := splitFrom sep s O EmptyString.

(** [parts.join(sep)] *)
Fixpoint joinWith (sep : string) (parts : list string) : string :=
  match parts with
  | [] => EmptyString
  | [p] => p
  | p :: rest => p +++ sep +++ joinWith sep rest
  end.

(** [s.replace(/\\/g, "/")] *)
Fixpoint slashes (s : string) : string :=
  match s with
  | EmptyString => EmptyString
  | String c s' => String (if Ascii.eqb c "\"%char then "/"%char else c) (slashes s')
  end.

(** Truthiness of a string: [!s] is [true] exactly for the empty one. *)
Definition truthy (s : string) : bool :=
  match s with EmptyString => false | _ => true end.

End Js.

(** ** The path library ([node:path]) *)

Record PathApi : Type := {
  sep : string;                          (* path.sep *)
  join : string -> string -> string;     (* path.join(a, b) *)
  resolve : string -> string;            (* path.resolve(p) *)
  relative : string -> string -> string; (* path.relative(from, to) *)
  extname : string -> string             (* path.extname(p) *)
}.

(** The POSIX implementation of the library, for a process whose working
    directory is [cwd] (an absolute path). *)
Module Posix.

Definition isDots (seg : string) : bool := String.eqb seg "..".

(** [normalizeString]: drops empty and [.] segments and resolves [..]
    against the segment before it; [acc] holds the kept segments, last
    first. *)
Fixpoint normSegs (allowAboveRoot : bool) (segs acc : list string) : list string :=
  match segs with
  | [] => rev acc
  | seg :: rest =>
      if String.eqb seg "" || String.eqb seg "." then normSegs allowAboveRoot rest acc
      else if isDots seg then
        match acc with
        | last :: acc' =>
            if isDots last then normSegs allowAboveRoot rest (seg :: acc)
            else normSegs allowAboveRoot rest acc'
        | [] =>
            if allowAboveRoot then normSegs allowAboveRoot rest [seg]
            else normSegs allowAboveRoot rest []
        end
      else normSegs allowAboveRoot rest (seg :: acc)
  end.

Definition normalizeString (p : string) (allowAboveRoot : bool) : string :=
  Js.joinWith "/" (normSegs allowAboveRoot (Js.split p "/") []).

Definition isAbsolute (p : string) : bool := Js.startsWith p "/".

Definition normalize (p : string) : string :=
  match p with
  | EmptyString => "."
  | _ =>
      let abs := isAbsolute p in
      let trailing := Js.endsWith p "/" in
      let q := normalizeString p (negb abs) in
      match q with
      | EmptyString => if abs then "/" else if trailing then "./" else "."
      | _ =>
          let q' := if trailing then q +++ "/" else q in
          if abs then "/" +++ q' else q'
      end
  end.

Definition join (a b : string) : string :=
  match a, b with
  | EmptyString, EmptyString => "."
  | EmptyString, _ => normalize b
  | _, EmptyString => normalize a
  | _, _ => normalize (a +++ "/" +++ b)
  end.

Definition resolve (cwd p : string) : string :=
  let full := if isAbsolute p then p
              else match p with EmptyString => cwd | _ => cwd +++ "/" +++ p end in
  "/" +++ normalizeString full false.

Fixpoint dropCommon (a b : list string) : list string * list string :=
  match a, b with
  | x :: a', y :: b' => if String.eqb x y then dropCommon a' b' else (a, b)
  | _, _ => (a, b)
  end.

Definition segments (p : string) : list string :=
  filter (fun s => negb (String.eqb s "")) (Js.split p "/").

Definition relative (cwd from to : string) : string :=
  let '(up, down) := dropCommon (segments (resolve cwd from)) (segments (resolve cwd to)) in
  Js.joinWith "/" (map (fun _ => "..") up ++ down).

Definition basename (p : string) : string := last (Js.split p "/") "".

(** The suffix of [s] from its last dot on, if a dot occurs after the
    first character. *)
Fixpoint lastDot (s : string) : option string :=
  match s with
  | EmptyString => None
  | String c s' =>
      match lastDot s' with
      | Some e => Some e
      | None => if Ascii.eqb c "."%char then Some s else None
      end
  end.

Definition extname (p : string) : string :=
  match basename p with
  | EmptyString => ""
  | String c s' =>
      if String.eqb (String c s') ".." then ""
      else match lastDot s' with Some e => e | None => "" end
  end.

Definition api (cwd : string) : PathApi :=
  Build_PathApi "/" join (resolve cwd) (relative cwd) extname.

End Posix.

(** ** The file system ([node:fs]) *)

Inductive FileType : Type := IsFile | IsDirectory | IsOther.

(** An [fs.Dirent] of [readdirSync(dir, {withFileTypes: true})]. *)
Record Dirent : Type := { d_name : string; d_type : FileType }.

Definition isFile (e : Dirent) : bool :=
  match d_type e with IsFile => true | _ => false end.
Definition isDirectory (e : Dirent) : bool :=
  match d_type e with IsDirectory => true | _ => false end.

Record Fs : Type := {
  existsSync : string -> bool;
  readdirSync : string -> result (list Dirent);
  statSync : string -> result N;          (* the [size] of the [Stats] *)
  readFileSync : string -> result string;
  realpathSync : string -> result string
}.

(** ** The path boundary validator (skill-discovery.ts) *)

Section Boundary.
Variable pathlib : PathApi.
Variable fs : Fs.

(** The [catch] branch of [isPathWithinBase]. *)
Definition withinLexically (targetPath baseDir : string) : bool :=
  let normalizedBase := resolve pathlib baseDir +++ sep pathlib in
  let normalizedPath := resolve pathlib targetPath in
  Js.startsWith normalizedPath normalizedBase.

Definition isPathWithinBase (targetPath baseDir : string) : bool :=
  match realpathSync fs baseDir with
  | Ok realBase =>
      match realpathSync fs targetPath with
      | Ok realTarget =>
          let normalizedBase := realBase +++ sep pathlib in
          String.eqb realTarget realBase || Js.startsWith realTarget normalizedBase
      | Throw _ => withinLexically targetPath baseDir
      end
  | Throw _ => withinLexically targetPath baseDir
  end.

End Boundary.

(** ** JavaScript [Set<string>] and [Map<string, V>], in insertion order *)

Module JsSet.

Definition t : Type := list string.

Definition has (x : string) (s : t) : bool := existsb (String.eqb x) s.

Definition add (x : string) (s : t) : t := if has x s then s else s ++ [x].

Definition delete (x : string) (s : t) : t :=
  filter (fun y => negb (String.eqb x y)) s.

(** [new Set(xs)] *)
Definition ofList (xs : list string) : t := fold_left (fun s x => add x s) xs [].

End JsSet.

Module JsMap.

Definition t (V : Type) : Type := list (string * V).

Fixpoint get {V} (k : string) (m : t V) : option V :=
  match m with
  | [] => None
  | (k', v) :: rest => if String.eqb k k' then Some v else get k rest
  end.

Definition has {V} (k : string) (m : t V) : bool :=
  match get k m with Some _ => true | None => false end.

(** [m.set(k, v)]: an existing key keeps its place. *)
Fixpoint set {V} (k : string) (v : V) (m : t V) : t V :=
  match m with
  | [] => [(k, v)]
  | (k', v') :: rest =>
      if String.eqb k k' then (k, v) :: rest else (k', v') :: set k v rest
  end.

Definition delete {V} (k : string) (m : t V) : t V :=
  filter (fun kv => negb (String.eqb k (fst kv))) m.

Definition keys {V} (m : t V) : list string := map fst m.
Definition values {V} (m : t V) : list V := map snd m.

End JsMap.

(** ** Types of the catalog (types.ts) *)

Record SkillDocument : Type := {
  doc_path : string;   (* [path]: relative to the skill root, slash separated *)
  mimeType : string;
  size : N
}.

Record SkillMetadata : Type := {
  name : string;
  description : string;
  path : string;       (* absolute path of the SKILL.md file *)
  skillDir : string;   (* absolute path of the skill's directory *)
  metadata : option (JsMap.t string);
  documents : list SkillDocument
}.

Definition SkillMap : Type := JsMap.t SkillMetadata.

(** ** MIME types (resource-helpers.ts) *)

Definition MIME_TYPES : JsMap.t string :=
  [ (".md", "text/markdown"); (".txt", "text/plain"); (".py", "text/x-python");
    (".js", "text/javascript"); (".ts", "text/typescript");
    (".sh", "text/x-shellscript"); (".bash", "text/x-shellscript");
    (".json", "application/json"); (".yaml", "text/yaml"); (".yml", "text/yaml");
    (".xml", "application/xml"); (".html", "text/html"); (".css", "text/css");
    (".sql", "text/x-sql"); (".png", "image/png"); (".jpg", "image/jpeg");
    (".jpeg", "image/jpeg"); (".gif", "image/gif"); (".svg", "image/svg+xml");
    (".pdf", "application/pdf") ].

Definition lowerChar (c : ascii) : ascii :=
  let n := nat_of_ascii c in
  if (Nat.leb 65 n && Nat.leb n 90)
     || (Nat.leb 192 n && Nat.leb n 222 && negb (Nat.eqb n 215))
  then ascii_of_nat (n + 32) else c.

Fixpoint toLowerCase (s : string) : string :=
  match s with
  | EmptyString => EmptyString
  | String c s' => String (lowerChar c) (toLowerCase s')
  end.

Definition getMimeType (pathlib : PathApi) (filepath : string) : string :=
  let ext := toLowerCase (extname pathlib filepath) in
  match JsMap.get ext MIME_TYPES with
  | Some m => m
  | None => "application/octet-stream"
  end.

(** ** Values produced by the YAML parser *)

Local Unset Elimination Schemes.
Inductive Yaml : Type :=
| YNull
| YBool (b : bool)
| YNumber (n : N)
| YString (s : string)
| YSeq (items : list Yaml)
| YMap (fields : list (string * Yaml)).
Local Set Elimination Schemes.

(** [typeof v === "object" && v !== null] *)
Definition isObject (v : Yaml) : bool :=
  match v with YSeq _ | YMap _ => true | _ => false end.

(** Property access [v.k]; [None] is [undefined]. *)
Definition prop (v : Yaml) (k : string) : option Yaml :=
  match v with
  | YMap fields => JsMap.get k fields
  | _ => None
  end.

(** Lines written with [console.error] by the scan. *)
Inductive Diagnostic : Type :=
| SkillsDirNotFound (resolvedDir : string)
| SkippingTooLarge (skillMdPath : string) (size : N)
| SkippingEscapes (skillMdPath : string)
| InvalidName (skillDir : string)
| InvalidDescription (skillDir : string)
| DuplicateSkillName (trimmedName skillMdPath : string)
| FailedToParse (skillDir error : string).

(** Maximum file size for skill files (1MB). *)
Definition MAX_FILE_SIZE : N := 1 * 1024 * 1024.

(** ** The scanner (skill-discovery.ts) *)

Section Discovery.
Variable pathlib : PathApi.
Variable fs : Fs.
(** [parse] of the [yaml] package. *)
Variable parseYaml : string -> result Yaml.
(** Frames left on the call stack for [scanDir]: a recursion deeper than
    this throws a [RangeError]. *)
Variable stackDepth : nat.

(** Parse YAML frontmatter from SKILL.md content. *)
Definition parseFrontmatter (content : string) : result (Yaml * string) :=
  if negb (Js.startsWith content "---") then
    Throw "SKILL.md must start with YAML frontmatter (---)"
  else
    let parts := Js.split content "---" in
    if Nat.ltb (length parts) 3 then
      Throw "SKILL.md frontmatter not properly closed with ---"
    else
      match parseYaml (nth 1 parts "") with
      | Throw e => Throw e
      | Ok frontmatter =>
          if negb (isObject frontmatter) then
            Throw "SKILL.md frontmatter must be a YAML mapping"
          else
            let body := Js.trim (Js.joinWith "---" (skipn 2 parts)) in
            Ok (frontmatter, body)
      end.

(** The loop of [scanDir] over the entries of one directory; [recur] is
    the recursive call. *)
Fixpoint scanEntries (recur : string -> result (list SkillDocument))
    (dirPath relativeTo baseDir : string) (entries : list Dirent)
    (documents : list SkillDocument) : result (list SkillDocument) :=
  match entries with
  | [] => Ok documents
  | entry :: rest =>
      let next := scanEntries recur dirPath relativeTo baseDir rest in
      let fullPath := join pathlib dirPath (d_name entry) in
      if negb (isPathWithinBase pathlib fs fullPath baseDir) then next documents
      else if isFile entry then
        match statSync fs fullPath with
        | Ok sz =>
            if N.ltb MAX_FILE_SIZE sz then next documents
            else
              let relativePath := Js.slashes (relative pathlib relativeTo fullPath) in
              next (documents ++
                    [{| doc_path := relativePath;
                        mimeType := getMimeType pathlib (d_name entry);
                        size := sz |}])
        | Throw _ => next documents
        end
      else if isDirectory entry then
        match recur fullPath with
        | Ok docs => next (documents ++ docs)
        | Throw e => Throw e
        end
      else next documents
  end.

(** Recursively scan a directory for files. *)
Fixpoint scanDir (depth : nat) (dirPath relativeTo baseDir : string)
  : result (list SkillDocument) :=
  match depth with
  | O => Throw "Maximum call stack size exceeded"
  | S depth' =>
      if negb (existsSync fs dirPath) then Ok []
      else
        match readdirSync fs dirPath with
        | Throw _ => Ok []
        | Ok entries =>
            scanEntries (fun p => scanDir depth' p relativeTo baseDir)
                        dirPath relativeTo baseDir entries []
        end
  end.

Fixpoint scanSubdirs (skillDir baseDir : string) (entries : list Dirent)
    (documents : list SkillDocument) : result (list SkillDocument) :=
  match entries with
  | [] => Ok documents
  | entry :: rest =>
      if negb (isDirectory entry) then scanSubdirs skillDir baseDir rest documents
      else
        let subDirPath := join pathlib skillDir (d_name entry) in
        match scanDir stackDepth subDirPath skillDir baseDir with
        | Ok docs => scanSubdirs skillDir baseDir rest (documents ++ docs)
        | Throw e => Throw e
        end
  end.

(** Scan a skill directory for supplementary documents. *)
Definition scanDocuments (skillDir baseDir : string) : result (list SkillDocument) :=
  match readdirSync fs skillDir with
  | Throw _ => Ok []
  | Ok entries => scanSubdirs skillDir baseDir entries []
  end.

(** Find SKILL.md (prefer uppercase, accept lowercase). *)
Fixpoint findSkillMd (skillDir : string) (names : list string) : option string :=
  match names with
  | [] => None
  | n :: rest =>
      let candidate := join pathlib skillDir n in
      if existsSync fs candidate then Some candidate else findSkillMd skillDir rest
  end.

(** A frontmatter field accepted as a required string:
    [typeof v === "string" && v.trim()]. *)
Definition requiredString (v : option Yaml) : option string :=
  match v with
  | Some (YString s) => if Js.truthy (Js.trim s) then Some s else None
  | _ => None
  end.

Definition indexKey (i : nat) : string :=
  DecimalString.NilEmpty.string_of_uint (Nat.to_uint i).

Fixpoint seqEntries (i : nat) (items : list Yaml) : list (string * Yaml) :=
  match items with
  | [] => []
  | v :: rest => (indexKey i, v) :: seqEntries (S i) rest
  end.

(** [Object.entries(v)] of a truthy object. *)
Definition objectEntries (v : Yaml) : list (string * Yaml) :=
  match v with
  | YMap fields => fields
  | YSeq items => seqEntries 0 items
  | _ => []
  end.

(** Extract optional metadata fields: the string-valued entries. *)
Definition extractMetadata (frontmatter : Yaml) : JsMap.t string :=
  match prop frontmatter "metadata" with
  | Some m =>
      if isObject m then
        fold_left (fun acc kv =>
                     match snd kv with
                     | YString s => JsMap.set (fst kv) s acc
                     | _ => acc
                     end) (objectEntries m) []
      else []
  | None => []
  end.

(** The [try] block of the loop of [discoverSkills]: the catalog after
    the entry and the lines it logged. *)
Definition registerSkill (resolvedDir skillDir skillMdPath : string)
    (skillMap : SkillMap) : SkillMap * list Diagnostic :=
  match readFileSync fs skillMdPath with
  | Throw e => (skillMap, [FailedToParse skillDir e])
  | Ok content =>
      match parseFrontmatter content with
      | Throw e => (skillMap, [FailedToParse skillDir e])
      | Ok (frontmatter, _) =>
          match requiredString (prop frontmatter "name") with
          | None => (skillMap, [InvalidName skillDir])
          | Some name_ =>
              match requiredString (prop frontmatter "description") with
              | None => (skillMap, [InvalidDescription skillDir])
              | Some description_ =>
                  let metadata_ := extractMetadata frontmatter in
                  let trimmedName := Js.trim name_ in
                  if JsMap.has trimmedName skillMap then
                    (skillMap, [DuplicateSkillName trimmedName skillMdPath])
                  else
                    match scanDocuments skillDir resolvedDir with
                    | Throw e => (skillMap, [FailedToParse skillDir e])
                    | Ok documents_ =>
                        (JsMap.set trimmedName
                           {| name := trimmedName;
                              description := Js.trim description_;
                              path := skillMdPath;
                              skillDir := skillDir;
                              metadata := match metadata_ with
                                          | [] => None
                                          | _ => Some metadata_
                                          end;
                              documents := documents_ |} skillMap, [])
                    end
              end
          end
      end
  end.

(** One iteration of the loop of [discoverSkills]. *)
Definition visitEntry (resolvedDir : string) (skillMap : SkillMap) (entry : Dirent)
  : result SkillMap * list Diagnostic :=
  if negb (isDirectory entry) then (Ok skillMap, [])
  else
    let skillDir := join pathlib resolvedDir (d_name entry) in
    match findSkillMd skillDir ["SKILL.md"; "skill.md"] with
    | None => (Ok skillMap, [])
    | Some skillMdPath =>
        match statSync fs skillMdPath with
        | Throw e => (Throw e, [])
        | Ok sz =>
            if N.ltb MAX_FILE_SIZE sz then
              (Ok skillMap, [SkippingTooLarge skillMdPath sz])
            else if negb (isPathWithinBase pathlib fs skillMdPath resolvedDir) then
              (Ok skillMap, [SkippingEscapes skillMdPath])
            else
              let '(skillMap', lines) :=
                registerSkill resolvedDir skillDir skillMdPath skillMap in
              (Ok skillMap', lines)
        end
    end.

Fixpoint visitEntries (resolvedDir : string) (entries : list Dirent)
    (skillMap : SkillMap) (log : list Diagnostic)
  : result SkillMap * list Diagnostic :=
  match entries with
  | [] => (Ok skillMap, log)
  | entry :: rest =>
      match visitEntry resolvedDir skillMap entry with
      | (Ok skillMap', lines) => visitEntries resolvedDir rest skillMap' (log ++ lines)
      | (Throw e, lines) => (Throw e, log ++ lines)
      end
  end.

(** Discover all skills in a directory: the catalog, or the exception
    that ended the scan, and the lines logged. *)
Definition discoverSkills (skillsDir : string) : result SkillMap * list Diagnostic :=
  let resolvedDir := resolve pathlib skillsDir in
  if negb (existsSync fs resolvedDir) then (Ok [], [SkillsDirNotFound resolvedDir])
  else
    match readdirSync fs resolvedDir with
    | Throw e => (Throw e, [])
    | Ok entries => visitEntries resolvedDir entries [] []
    end.

End Discovery.

(** ** Content loading (skill-discovery.ts) *)

(** The calls a loader makes on the file system, in the order it makes
    them. *)
Inductive FsCall : Type :=
| CallRealpath (p : string)
| CallStat (p : string)
| CallReadFile (p : string).

Section Loading.
Variable pathlib : PathApi.
Variable fs : Fs.

(** [isPathWithinBase] together with the calls it makes. *)
Definition isPathWithinBaseTraced (targetPath baseDir : string) : bool * list FsCall :=
  match realpathSync fs baseDir with
  | Ok realBase =>
      match realpathSync fs targetPath with
      | Ok realTarget =>
          let normalizedBase := realBase +++ sep pathlib in
          (String.eqb realTarget realBase || Js.startsWith realTarget normalizedBase,
           [CallRealpath baseDir; CallRealpath targetPath])
      | Throw _ =>
          (withinLexically pathlib targetPath baseDir,
           [CallRealpath baseDir; CallRealpath targetPath])
      end
  | Throw _ => (withinLexically pathlib targetPath baseDir, [CallRealpath baseDir])
  end.

(** The size check and the read shared by the two loaders; the text of
    the size error carries the sizes in megabytes, left out here. *)
Definition readChecked (fullPath : string) (trace : list FsCall)
  : result string * list FsCall :=
  match statSync fs fullPath with
  | Throw e => (Throw e, trace ++ [CallStat fullPath])
  | Ok sz =>
      if N.ltb MAX_FILE_SIZE sz then
        (Throw "File size exceeds limit", trace ++ [CallStat fullPath])
      else
        (readFileSync fs fullPath, trace ++ [CallStat fullPath; CallReadFile fullPath])
  end.

(** Load the full content of a SKILL.md file. *)
Definition loadSkillContent (skillPath skillsDir : string)
  : result string * list FsCall :=
  if negb (Js.endsWith skillPath ".md") then
    (Throw "Only .md files can be read", [])
  else
    let '(within, trace) := isPathWithinBaseTraced skillPath skillsDir in
    if negb within then (Throw "Path escapes the skills directory", trace)
    else readChecked skillPath trace.

(** Load a supplementary document from a skill directory. *)
Definition loadDocument (skill : SkillMetadata) (documentPath skillsDir : string)
  : result string * list FsCall :=
  if Js.includes documentPath ".." then
    (Throw "Path traversal not allowed", [])
  else
    let fullPath := join pathlib (skillDir skill) documentPath in
    let '(within, trace) := isPathWithinBaseTraced fullPath skillsDir in
    if negb within then (Throw "Path escapes the skills directory", trace)
    else readChecked fullPath trace.

End Loading.

(** ** The identifier resolver (subscriptions.ts) *)

Definition slash : ascii := "/"%char.

(** Characters the dot of a regular expression does not match. *)
Definition isLineTerminator (c : ascii) : bool :=
  Ascii.eqb c "010"%char || Ascii.eqb c "013"%char.

Fixpoint allChars (p : ascii -> bool) (s : string) : bool :=
  match s with
  | EmptyString => true
  | String c s' => p c && allChars p s'
  end.

Fixpoint stripPrefix (p s : string) : option string :=
  match p, s with
  | EmptyString, _ => Some s
  | String a p', String b s' => if Ascii.eqb a b then stripPrefix p' s' else None
  | String _ _, EmptyString => None
  end.

(** The text before the first slash and the text after it. *)
Fixpoint cutAtSlash (s : string) : option (string * string) :=
  match s with
  | EmptyString => None
  | String c s' =>
      if Ascii.eqb c slash then Some (EmptyString, s')
      else match cutAtSlash s' with
           | Some (a, b) => Some (String c a, b)
           | None => None
           end
  end.

(** [uri.match(/^skill:\/\/([^/]+)\/(.+)$/)]: the two groups. The first
    group cannot hold a slash, so it ends at the first slash after the
    scheme; the second runs to the end of the string and holds no line
    terminator. *)
Definition matchSkillUri (uri : string) : option (string * string) :=
  match stripPrefix "skill://" uri with
  | None => None
  | Some body =>
      match cutAtSlash body with
      | None => None
      | Some (skillName, rest) =>
          if Js.truthy skillName && Js.truthy rest
             && allChars (fun c => negb (isLineTerminator c)) rest
          then Some (skillName, rest)
          else None
      end
  end.

Section Resolver.
Variable pathlib : PathApi.
Variable fs : Fs.

(** Resolve a [skill://] URI to the file path(s) that should be watched. *)
Definition resolveUriToFilePaths (uri : string) (skillMap : SkillMap)
    (skillsDir : string) : list string :=
  if String.eqb uri "skill://prompt-xml" then
    map path (JsMap.values skillMap)
  else
    match matchSkillUri uri with
    | None => []
    | Some (skillName, rest) =>
        match JsMap.get skillName skillMap with
        | None => []
        | Some skill =>
            if String.eqb rest "SKILL.md" then [path skill]
            else if String.eqb rest "_manifest" then [skillDir skill]
            else
              let filePath := join pathlib (skillDir skill) rest in
              if negb (isPathWithinBase pathlib fs filePath skillsDir) then []
              else [filePath]
        end
    end.

End Resolver.

(** ** The subscription manager (subscriptions.ts) *)

(** A chokidar watcher and a timeout are known by the number they were
    created under. *)
Definition FSWatcher : Type := nat.
Definition Timeout : Type := nat.

(** The tables of the manager, and what it has done to the world around
    it: the watchers it opened and has not closed, the timeouts it set
    that are neither cleared nor fired, and the calls of
    [notifyCallback]. The lines the manager logs are left out. *)
Record Manager : Type := {
  subscribedUris : JsSet.t;
  uriToFilePaths : JsMap.t JsSet.t;
  filePathToUris : JsMap.t JsSet.t;
  watchers : JsMap.t FSWatcher;
  debounceTimers : JsMap.t Timeout;
  openWatchers : list (FSWatcher * string);   (* watcher, the path it watches *)
  nextWatcher : nat;
  pendingTimers : list (Timeout * string);    (* timeout, the uri of its callback *)
  nextTimer : nat;
  notified : list string
}.

Definition createSubscriptionManager : Manager :=
  {| subscribedUris := []; uriToFilePaths := []; filePathToUris := [];
     watchers := []; debounceTimers := [];
     openWatchers := []; nextWatcher := 0;
     pendingTimers := []; nextTimer := 0; notified := [] |}.

(** What a call of [subscribe] finds around it: the catalog the manager
    was created with, as it is now; the disk; and what the system answers
    to a watch on a path. Chokidar's [watch] returns a watcher in either
    case: a refusal of the system ([Some e]) is reported afterwards,
    through the [error] event of that watcher. *)
Record World : Type := {
  skillMap : SkillMap;
  disk : Fs;
  watchError : string -> option string
}.

Section Subscriptions.
Variable pathlib : PathApi.
Variable skillsDir : string.

Definition with_subscribedUris (f : JsSet.t -> JsSet.t) (st : Manager) : Manager :=
  {| subscribedUris := f (subscribedUris st); uriToFilePaths := uriToFilePaths st;
     filePathToUris := filePathToUris st; watchers := watchers st;
     debounceTimers := debounceTimers st; openWatchers := openWatchers st;
     nextWatcher := nextWatcher st; pendingTimers := pendingTimers st;
     nextTimer := nextTimer st; notified := notified st |}.

Definition with_uriToFilePaths (f : JsMap.t JsSet.t -> JsMap.t JsSet.t) (st : Manager)
  : Manager :=
  {| subscribedUris := subscribedUris st; uriToFilePaths := f (uriToFilePaths st);
     filePathToUris := filePathToUris st; watchers := watchers st;
     debounceTimers := debounceTimers st; openWatchers := openWatchers st;
     nextWatcher := nextWatcher st; pendingTimers := pendingTimers st;
     nextTimer := nextTimer st; notified := notified st |}.

Definition with_filePathToUris (f : JsMap.t JsSet.t -> JsMap.t JsSet.t) (st : Manager)
  : Manager :=
  {| subscribedUris := subscribedUris st; uriToFilePaths := uriToFilePaths st;
     filePathToUris := f (filePathToUris st); watchers := watchers st;
     debounceTimers := debounceTimers st; openWatchers := openWatchers st;
     nextWatcher := nextWatcher st; pendingTimers := pendingTimers st;
     nextTimer := nextTimer st; notified := notified st |}.

(** [clearTimeout(t)] *)
Definition clearTimeout (t : Timeout) (st : Manager) : Manager :=
  {| subscribedUris := subscribedUris st; uriToFilePaths := uriToFilePaths st;
     filePathToUris := filePathToUris st; watchers := watchers st;
     debounceTimers := debounceTimers st; openWatchers := openWatchers st;
     nextWatcher := nextWatcher st;
     pendingTimers := filter (fun tu => negb (Nat.eqb (fst tu) t)) (pendingTimers st);
     nextTimer := nextTimer st; notified := notified st |}.

(** [debounceTimers.set(uri, setTimeout(callback, DEBOUNCE_MS))], the
    callback being the one that closes over [uri]. *)
Definition setDebounceTimer (uri : string) (st : Manager) : Manager :=
  {| subscribedUris := subscribedUris st; uriToFilePaths := uriToFilePaths st;
     filePathToUris := filePathToUris st; watchers := watchers st;
     debounceTimers := JsMap.set uri (nextTimer st) (debounceTimers st);
     openWatchers := openWatchers st; nextWatcher := nextWatcher st;
     pendingTimers := pendingTimers st ++ [(nextTimer st, uri)];
     nextTimer := S (nextTimer st); notified := notified st |}.

Definition deleteDebounceTimer (uri : string) (st : Manager) : Manager :=
  {| subscribedUris := subscribedUris st; uriToFilePaths := uriToFilePaths st;
     filePathToUris := filePathToUris st; watchers := watchers st;
     debounceTimers := JsMap.delete uri (debounceTimers st);
     openWatchers := openWatchers st; nextWatcher := nextWatcher st;
     pendingTimers := pendingTimers st;
     nextTimer := nextTimer st; notified := notified st |}.

Definition notifyCallback (uri : string) (st : Manager) : Manager :=
  {| subscribedUris := subscribedUris st; uriToFilePaths := uriToFilePaths st;
     filePathToUris := filePathToUris st; watchers := watchers st;
     debounceTimers := debounceTimers st; openWatchers := openWatchers st;
     nextWatcher := nextWatcher st; pendingTimers := pendingTimers st;
     nextTimer := nextTimer st; notified := notified st ++ [uri] |}.

(** The body of the loop of [onFileChange] over the URIs of a path. *)
Definition debounce (uri : string) (st : Manager) : Manager :=
  let st1 :=
    match JsMap.get uri (debounceTimers st) with
    | Some existing => clearTimeout existing st
    | None => st
    end in
  setDebounceTimer uri st1.

(** Called by chokidar when a watched path changes. *)
Definition onFileChange (changedPath : string) (st : Manager) : Manager :=
  let normalized := Js.slashes changedPath in
  fold_left
    (fun st' (entry : string * JsSet.t) =>
       let '(watchedPath, uris) := entry in
       let watchedNorm := Js.slashes watchedPath in
       let changedNorm := normalized in
       let isMatch :=
         String.eqb changedNorm watchedNorm
         || Js.startsWith changedNorm (watchedNorm +++ "/") in
       if negb isMatch then st'
       else fold_left (fun st'' uri => debounce uri st'') uris st')
    (filePathToUris st) st.

(** The callback of a debounce timer, run when timeout [t] fires; a
    timeout that is not pending does not fire. *)
Definition timerFires (t : Timeout) (st : Manager) : Manager :=
  match find (fun tu => Nat.eqb (fst tu) t) (pendingTimers st) with
  | None => st
  | Some (_, uri) =>
      let st1 := deleteDebounceTimer uri (clearTimeout t st) in
      if JsSet.has uri (subscribedUris st1) then notifyCallback uri st1 else st1
  end.

(** Start watching [filePath] if not already watched. The listeners put
    on the new watcher are those for [change], [add] and [unlink]: what the
    world answers to the watch has no part in the call. *)
Definition ensureWatcher (w : World) (filePath : string) (st : Manager)
  : result unit * Manager :=
  if JsMap.has filePath (watchers st) then (Ok tt, st)
  else
    (Ok tt,
     {| subscribedUris := subscribedUris st; uriToFilePaths := uriToFilePaths st;
        filePathToUris := filePathToUris st;
        watchers := JsMap.set filePath (nextWatcher st) (watchers st);
        debounceTimers := debounceTimers st;
        openWatchers := openWatchers st ++ [(nextWatcher st, filePath)];
        nextWatcher := S (nextWatcher st);
        pendingTimers := pendingTimers st;
        nextTimer := nextTimer st; notified := notified st |}).

(** Stop watching [filePath] and remove the watcher. *)
Definition removeWatcher (filePath : string) (st : Manager) : Manager :=
  match JsMap.get filePath (watchers st) with
  | None => st
  | Some watcher =>
      {| subscribedUris := subscribedUris st; uriToFilePaths := uriToFilePaths st;
         filePathToUris := filePathToUris st;
         watchers := JsMap.delete filePath (watchers st);
         debounceTimers := debounceTimers st;
         openWatchers :=
           filter (fun h => negb (Nat.eqb (fst h) watcher)) (openWatchers st);
         nextWatcher := nextWatcher st; pendingTimers := pendingTimers st;
         nextTimer := nextTimer st; notified := notified st |}
  end.

(** The loop of [subscribe] over the resolved paths. *)
Fixpoint subscribePaths (w : World) (uri : string) (paths : list string) (st : Manager)
  : result unit * Manager :=
  match paths with
  | [] => (Ok tt, st)
  | p :: rest =>
      let uris :=
        match JsMap.get p (filePathToUris st) with
        | Some uris => uris
        | None => []
        end in
      let st1 := with_filePathToUris (JsMap.set p (JsSet.add uri uris)) st in
      match ensureWatcher w p st1 with
      | (Ok _, st2) => subscribePaths w uri rest st2
      | (Throw e, st2) => (Throw e, st2)
      end
  end.

Definition subscribe (w : World) (uri : string) (st : Manager) : result unit * Manager :=
  if JsSet.has uri (subscribedUris st) then (Ok tt, st)
  else
    let st1 := with_subscribedUris (JsSet.add uri) st in
    let paths := resolveUriToFilePaths pathlib (disk w) uri (skillMap w) skillsDir in
    match paths with
    | [] => (Ok tt, st1)
    | _ =>
        let st2 := with_uriToFilePaths (JsMap.set uri (JsSet.ofList paths)) st1 in
        subscribePaths w uri paths st2
    end.

(** The body of the loop of [unsubscribe] over the paths of the URI. *)
Definition releasePath (uri p : string) (st : Manager) : Manager :=
  match JsMap.get p (filePathToUris st) with
  | None => st
  | Some uris =>
      let uris' := JsSet.delete uri uris in
      let st1 := with_filePathToUris (JsMap.set p uris') st in
      match uris' with
      | [] => removeWatcher p (with_filePathToUris (JsMap.delete p) st1)
      | _ => st1
      end
  end.

Definition unsubscribe (uri : string) (st : Manager) : Manager :=
  if negb (JsSet.has uri (subscribedUris st)) then st
  else
    let st1 := with_subscribedUris (JsSet.delete uri) st in
    let st2 :=
      match JsMap.get uri (debounceTimers st1) with
      | Some timer => deleteDebounceTimer uri (clearTimeout timer st1)
      | None => st1
      end in
    match JsMap.get uri (uriToFilePaths st2) with
    | None => st2
    | Some paths =>
        let st3 := fold_left (fun st' p => releasePath uri p st') paths st2 in
        with_uriToFilePaths (JsMap.delete uri) st3
    end.

Definition unsubscribeByPrefix (prefix : string) (st : Manager) : Manager :=
  let toRemove := filter (fun uri => Js.startsWith uri prefix) (subscribedUris st) in
  fold_left (fun st' uri => unsubscribe uri st') toRemove st.

Definition close (st : Manager) : Manager :=
  {| subscribedUris := []; uriToFilePaths := []; filePathToUris := [];
     watchers := []; debounceTimers := [];
     openWatchers :=
       filter (fun h => negb (existsb (fun kv => Nat.eqb (snd kv) (fst h)) (watchers st)))
              (openWatchers st);
     nextWatcher := nextWatcher st;
     pendingTimers :=
       filter (fun tu => negb (existsb (fun kv => Nat.eqb (snd kv) (fst tu))
                                       (debounceTimers st)))
              (pendingTimers st);
     nextTimer := nextTimer st; notified := notified st |}.

(** What can happen to a manager: the four calls of its interface, an
    event of one of its watchers, and the firing of a timeout. *)
Inductive Op : Type :=
| Subscribe (w : World) (uri : string)
| Unsubscribe (uri : string)
| UnsubscribeByPrefix (prefix : string)
| Close
| FileChange (changedPath : string)
| TimerFires (t : Timeout).

Definition step (op : Op) (st : Manager) : result unit * Manager :=
  match op with
  | Subscribe w uri => subscribe w uri st
  | Unsubscribe uri => (Ok tt, unsubscribe uri st)
  | UnsubscribeByPrefix prefix => (Ok tt, unsubscribeByPrefix prefix st)
  | Close => (Ok tt, close st)
  | FileChange changedPath => (Ok tt, onFileChange changedPath st)
  | TimerFires t => (Ok tt, timerFires t st)
  end.

(** The manager after a sequence of operations; an exception is the
    caller's to handle, the manager lives on in the state it was left in. *)
Definition run (ops : list Op) (st : Manager) : Manager :=
  fold_left (fun st' op => snd (step op st')) ops st.

(** No operation of the sequence throws. *)
Fixpoint runsClean (ops : list Op) (st : Manager) : bool :=
  match ops with
  | [] => true
  | op :: rest => isOk (fst (step op st)) && runsClean rest (snd (step op st))
  end.

End Subscriptions.

(** ** The server's catalog and its reconciliation (index.ts) *)

Module Index.

(** The module-level state of the server: the catalog, shared with the
    subscription manager; the handles of the registered resources; the
    names under which resources are registered with the MCP server; the
    subscription manager; the description of the [load_skill] tool; the
    lines logged. *)
Record Server : Type := {
  skillMap : SkillMap;
  resourceHandles : JsMap.t (string * string);
  registered : list string;
  subscriptions : Manager;
  loadSkillToolDescription : string;
  log : list string
}.

(** Dynamic skill list string. *)
Definition getSkillListStr (m : SkillMap) : string :=
  match Js.joinWith ", " (JsMap.keys m) with
  | EmptyString => "none"
  | s => s
  end.

Definition describeLoadSkill (m : SkillMap) : string :=
  "Load the full SKILL.md content for a named skill. "
  +++ "Use this when you need detailed instructions for performing a specific task. "
  +++ "Available skills: " +++ getSkillListStr m.

(** Register the SKILL.md and _manifest resources for a single skill:
    the two handles, and the registry after the registration. *)
Definition registerSkillResources (skillName : string) (reg : list string)
  : (string * string) * list string :=
  let skillHandle := "skill-" +++ skillName in
  let manifestHandle := "skill-" +++ skillName +++ "-manifest" in
  ((skillHandle, manifestHandle), reg ++ [skillHandle; manifestHandle]).

(** [handle.remove()] *)
Definition removeResource (handle : string) (reg : list string) : list string :=
  filter (fun h => negb (String.eqb h handle)) reg.

(** The body of the loop over the catalog that finds removed skills. *)
Definition dropIfRemoved (newSkillMap : SkillMap) (srv : Server) (skillName : string)
  : Server :=
  if JsMap.has skillName newSkillMap then srv
  else
    let '(handles', reg') :=
      match JsMap.get skillName (resourceHandles srv) with
      | Some (skillHandle, manifestHandle) =>
          (JsMap.delete skillName (resourceHandles srv),
           removeResource manifestHandle (removeResource skillHandle (registered srv)))
      | None => (resourceHandles srv, registered srv)
      end in
    {| skillMap := JsMap.delete skillName (skillMap srv);
       resourceHandles := handles';
       registered := reg';
       subscriptions :=
         unsubscribeByPrefix ("skill://" +++ skillName +++ "/") (subscriptions srv);
       loadSkillToolDescription := loadSkillToolDescription srv;
       log := log srv ++ ["[skills-as-resources] Skill removed: " +++ skillName] |}.

(** The body of the loop over the new scan that finds added skills; the
    logged line also carries the number of files of the manifest, left
    out here. *)
Definition addIfNew (srv : Server) (entry : string * SkillMetadata) : Server :=
  let '(skillName, metadata_) := entry in
  if JsMap.has skillName (skillMap srv) then srv
  else
    let '(handles, reg') := registerSkillResources skillName (registered srv) in
    {| skillMap := JsMap.set skillName metadata_ (skillMap srv);
       resourceHandles := JsMap.set skillName handles (resourceHandles srv);
       registered := reg';
       subscriptions := subscriptions srv;
       loadSkillToolDescription := loadSkillToolDescription srv;
       log := log srv ++ ["[skills-as-resources] Skill added: " +++ skillName] |}.

(** The callback given to [createSkillDirectoryWatcher], after the scan
    has returned [newSkillMap]. A [Map] may lose the key being visited
    while it is iterated, so the first loop runs over the keys the catalog
    had when the loop began. *)
Definition reconcile (newSkillMap : SkillMap) (srv : Server) : Server :=
  let srv1 := fold_left (dropIfRemoved newSkillMap) (JsMap.keys (skillMap srv)) srv in
  let srv2 := fold_left addIfNew newSkillMap srv1 in
  {| skillMap := skillMap srv2;
     resourceHandles := resourceHandles srv2;
     registered := registered srv2;
     subscriptions := subscriptions srv2;
     loadSkillToolDescription := describeLoadSkill (skillMap srv2);
     log := log srv2 |}.

(** The callback itself: a scan that throws ends it before the catalog is
    touched. *)
Definition onChanged (pathlib : PathApi) (fs : Fs) (parseYaml : string -> result Yaml)
    (stackDepth : nat) (skillsDir : string) (srv : Server) : result unit * Server :=
  match fst (discoverSkills pathlib fs parseYaml stackDepth skillsDir) with
  | Ok newSkillMap => (Ok tt, reconcile newSkillMap srv)
  | Throw e => (Throw e, srv)
  end.

End Index.

(** ** XML for prompt injection (resource-helpers.ts) *)

(** [s.replace(/c/g, rep)] for a pattern that is one character. *)
Fixpoint replaceAll (c : ascii) (rep s : string) : string :=
  match s with
  | EmptyString => EmptyString
  | String d s' =>
      (if Ascii.eqb d c then rep else String d EmptyString) +++ replaceAll c rep s'
  end.

Definition quoteChar : ascii := "034"%char.
Definition aposChar : ascii := "039"%char.

(** Escape XML special characters. *)
Definition escapeXml (text : string) : string :=
  replaceAll aposChar "&apos;"
    (replaceAll quoteChar "&quot;"
       (replaceAll ">"%char "&gt;"
          (replaceAll "<"%char "&lt;"
             (replaceAll "&"%char "&amp;" text)))).

Definition newline : string := String "010"%char EmptyString.

(** The five lines pushed for one skill. *)
Definition skillXmlLines (skill : SkillMetadata) : list string :=
  [ "  <skill>";
    "    <name>" +++ escapeXml (name skill) +++ "</name>";
    "    <description>" +++ escapeXml (description skill) +++ "</description>";
    "    <uri>skill://" +++ escapeXml (name skill) +++ "/SKILL.md</uri>";
    "  </skill>" ].

(** Generate <available_skills> XML for injecting into system prompts. *)
Definition generateSkillsXML (skillMap : SkillMap) : string :=
  let lines :=
    ["<available_skills>"]
    ++ flat_map skillXmlLines (JsMap.values skillMap)
    ++ ["</available_skills>"] in
  Js.joinWith newline lines.

(** ** Tools and resource templates (index.ts) *)

(** What a tool call returns: the text of its single content item and
    the [isError] flag. *)
Record ToolResult : Type := { tool_text : string; isError : bool }.

(** What a resource read returns: the text of its single content item
    and, when it is set, its MIME type. *)
Record ReadResult : Type := { read_text : string; read_mimeType : option string }.

Definition quoted (s : string) : string :=
  String quoteChar EmptyString +++ s +++ String quoteChar EmptyString.

Section Handlers.
Variable pathlib : PathApi.
Variable fs : Fs.
Variable skillMap : SkillMap.
Variable skillsDir : string.

(** The handler of the [load_skill] tool ([read_skill] in the
    skills-as-tools server), with the calls it makes on the file system. *)
Definition loadSkillTool (skillName : string) : ToolResult * list FsCall :=
  match JsMap.get skillName skillMap with
  | None =>
      ({| tool_text := "Skill " +++ quoted skillName
                       +++ " not found. Available skills: "
                       +++ Index.getSkillListStr skillMap;
          isError := true |}, [])
  | Some skill =>
      match loadSkillContent pathlib fs (path skill) skillsDir with
      | (Ok content, trace) => ({| tool_text := content; isError := false |}, trace)
      | (Throw message, trace) =>
          ({| tool_text := "Failed to load skill " +++ quoted skillName +++ ": "
                           +++ message;
              isError := true |}, trace)
      end
  end.

(** [skill.documents.find((d) => d.path === documentPath)] *)
Definition findDocument (skill : SkillMetadata) (documentPath : string)
  : option SkillDocument :=
  find (fun d => String.eqb (doc_path d) documentPath) (documents skill).

(** The read callback of the template
    [skill://{skillName}/document/{+documentPath}]. *)
Definition readDocumentResource (skillName documentPath : string)
  : ReadResult * list FsCall :=
  match JsMap.get skillName skillMap with
  | None =>
      ({| read_text := "# Error" +++ newline +++ newline +++ "Skill "
                       +++ quoted skillName +++ " not found. Available: "
                       +++ Index.getSkillListStr skillMap;
          read_mimeType := None |}, [])
  | Some skill =>
      match findDocument skill documentPath with
      | None =>
          let available :=
            Js.joinWith newline
              (map (fun d => "- " +++ doc_path d) (documents skill)) in
          ({| read_text := "# Error" +++ newline +++ newline +++ "Document "
                           +++ quoted documentPath +++ " not found in skill "
                           +++ quoted skillName +++ "." +++ newline +++ newline
                           +++ "## Available Documents" +++ newline +++ newline
                           +++ (match available with
                                | EmptyString => "No documents available."
                                | s => s
                                end);
              read_mimeType := None |}, [])
      | Some doc =>
          match loadDocument pathlib fs skill documentPath skillsDir with
          | (Ok content, trace) =>
              ({| read_text := content; read_mimeType := Some (mimeType doc) |}, trace)
          | (Throw message, trace) =>
              ({| read_text := "# Error" +++ newline +++ newline
                               +++ "Failed to read document: " +++ message;
                  read_mimeType := None |}, trace)
          end
      end
  end.

(** Completion of the [skillName] variable of the template. *)
Definition completeSkillName (value : string) : list string :=
  filter (fun n => Js.startsWith n value)
    (map name
       (filter (fun s => Nat.ltb 0 (length (documents s))) (JsMap.values skillMap))).

(** Completion of the path variable; [skillName] is
    [context?.arguments?.skillName], [None] when it is undefined. *)
Definition completeDocumentPath (value : string) (skillName : option string)
  : list string :=
  match skillName with
  | None => []
  | Some n =>
      if negb (Js.truthy n) then []
      else
        match JsMap.get n skillMap with
        | None => []
        | Some skill =>
            filter (fun p => Js.startsWith p value) (map doc_path (documents skill))
        end
  end.

End Handlers.

(** ** The structural watcher (skill-watcher.ts) *)

(** File names that make a directory a valid skill. *)
Definition SKILL_FILE_NAMES : JsSet.t := ["SKILL.md"; "skill.md"].

(** [s.slice(n)] *)
Fixpoint sliceFrom (n : nat) (s : string) : string :=
  match n, s with
  | O, _ => s
  | S k, String _ s' => sliceFrom k s'
  | S _, EmptyString => EmptyString
  end.

(** Determine whether a filesystem event is relevant to skill discovery. *)
Definition isRelevantEvent (skillsDir eventPath eventType : string) : bool :=
  let normalized := Js.slashes eventPath in
  let base := Js.slashes skillsDir in
  if negb (Js.startsWith normalized (base +++ "/")) then false
  else
    let relative := sliceFrom (String.length base + 1) normalized in
    if negb (Js.truthy relative) then false
    else
      let segments := Js.split relative "/" in
      if Nat.eqb (length segments) 1
         && (String.eqb eventType "addDir" || String.eqb eventType "unlinkDir")
      then true
      else if Nat.eqb (length segments) 2
              && JsSet.has (nth 1 segments EmptyString) SKILL_FILE_NAMES
      then true
      else false.

(** The state of a directory watcher: the variable [debounceTimer], the
    timeouts set and neither cleared nor fired, and the number of calls of
    [onChanged] so far. *)
Record DirWatcher : Type := {
  debounceTimer : option Timeout;
  scheduled : list Timeout;
  nextTimeout : nat;
  changes : nat
}.

Definition createSkillDirectoryWatcher : DirWatcher :=
  {| debounceTimer := None; scheduled := []; nextTimeout := 0; changes := 0 |}.

Definition scheduleCallback (dw : DirWatcher) : DirWatcher :=
  let cleared :=
    match debounceTimer dw with
    | Some t => filter (fun t' => negb (Nat.eqb t' t)) (scheduled dw)
    | None => scheduled dw
    end in
  {| debounceTimer := Some (nextTimeout dw);
     scheduled := cleared ++ [nextTimeout dw];
     nextTimeout := S (nextTimeout dw);
     changes := changes dw |}.

(** The listeners on [addDir], [unlinkDir], [add] and [unlink]. *)
Definition onWatchEvent (skillsDir eventPath eventType : string) (dw : DirWatcher)
  : DirWatcher :=
  if isRelevantEvent skillsDir eventPath eventType then scheduleCallback dw else dw.

(** The callback of the debounce timeout, run when timeout [t] fires. *)
Definition debounceFires (t : Timeout) (dw : DirWatcher) : DirWatcher :=
  if existsb (Nat.eqb t) (scheduled dw) then
    {| debounceTimer := None;
       scheduled := filter (fun t' => negb (Nat.eqb t' t)) (scheduled dw);
       nextTimeout := nextTimeout dw;
       changes := S (changes dw) |}
  else dw.

(** [close()] of the watcher: the pending timeout is cleared; the handle
    of chokidar, closed by the same call, is not part of this state. *)
Definition closeDirWatcher (dw : DirWatcher) : DirWatcher :=
  match debounceTimer dw with
  | Some t =>
      {| debounceTimer := None;
         scheduled := filter (fun t' => negb (Nat.eqb t' t)) (scheduled dw);
         nextTimeout := nextTimeout dw;
         changes := changes dw |}
  | None => dw
  end.

Inductive WatchOp : Type :=
| WatchEvent (eventPath eventType : string)
| DebounceFires (t : Timeout)
| CloseWatcher.

Definition watchStep (skillsDir : string) (op : WatchOp) (dw : DirWatcher) : DirWatcher :=
  match op with
  | WatchEvent eventPath eventType => onWatchEvent skillsDir eventPath eventType dw
  | DebounceFires t => debounceFires t dw
  | CloseWatcher => closeDirWatcher dw
  end.

Definition watchRun (skillsDir : string) (ops : list WatchOp) (dw : DirWatcher)
  : DirWatcher :=
  fold_left (fun dw' op => watchStep skillsDir op dw') ops dw.

(** * Part II: what the claims speak of *)

(** ** Containment *)

(** [P] is nested under [R] with a separator boundary. *)
Definition nestedUnder (sepc P R : string) : Prop :=
  exists t, P = R +++ sepc +++ t.

(** ** Shapes of a scan *)

(** What the [try] block of an iteration does to the catalog: nothing, or
    one new unit under a trimmed non-empty name the catalog did not hold. *)
Inductive Registered (skillDir_ skillMdPath : string) (m : SkillMap)
  : SkillMap -> list Diagnostic -> Prop :=
| RegisteredNone line : Registered skillDir_ skillMdPath m m [line]
| RegisteredNew raw v :
    Js.trim raw <> "" ->
    JsMap.has (Js.trim raw) m = false ->
    name v = Js.trim raw ->
    path v = skillMdPath ->
    skillDir v = skillDir_ ->
    Registered skillDir_ skillMdPath m (JsMap.set (Js.trim raw) v m) [].

(** What one iteration does. *)
Inductive Visited (pathlib : PathApi) (resolvedDir : string) (entry : Dirent) (m : SkillMap)
  : result SkillMap -> list Diagnostic -> Prop :=
| VisitedSkip lines : Visited pathlib resolvedDir entry m (Ok m) lines
| VisitedThrow e : Visited pathlib resolvedDir entry m (Throw e) []
| VisitedNew raw v :
    Js.trim raw <> "" ->
    JsMap.has (Js.trim raw) m = false ->
    name v = Js.trim raw ->
    skillDir v = join pathlib resolvedDir (d_name entry) ->
    Visited pathlib resolvedDir entry m (Ok (JsMap.set (Js.trim raw) v m)) [].

(** The catalog invariant: one unit per name, filed under its own name,
    which is a trimmed non-empty string. *)
Definition CatalogOk (m : SkillMap) : Prop :=
  NoDup (JsMap.keys m) /\
  forall k v, In (k, v) m -> name v = k /\ k <> "" /\ exists raw, k = Js.trim raw.

(** ** Identifiers *)

Definition noSlash (s : string) : bool :=
  allChars (fun c => negb (Ascii.eqb c slash)) s.

(** A unit name as the scheme can carry it, and a selector. *)
Definition validName (n : string) : Prop := n <> "" /\ noSlash n = true.
Definition validRest (r : string) : Prop :=
  r <> "" /\ allChars (fun c => negb (isLineTerminator c)) r = true.

(** ** States of the manager *)

(** Two states with the same subscription tables and watchers: only the
    timers and the notifications may differ. *)
Definition sameTables (a b : Manager) : Prop :=
  subscribedUris a = subscribedUris b /\ uriToFilePaths a = uriToFilePaths b /\
  filePathToUris a = filePathToUris b /\ watchers a = watchers b /\
  openWatchers a = openWatchers b /\ nextWatcher a = nextWatcher b.

(** Two states with the same timers and notifications. *)
Definition sameTimers (a b : Manager) : Prop :=
  debounceTimers a = debounceTimers b /\ pendingTimers a = pendingTimers b /\
  nextTimer a = nextTimer b /\ notified a = notified b.

(** A pending timeout is the one recorded for its URI; a recorded timer
    belongs to a subscribed URI; a URI that depends on a path is subscribed
    and has that path among its paths. *)
Record TimersOk (st : Manager) : Prop := {
  pending_recorded : forall t u,
    In (t, u) (pendingTimers st) -> JsMap.get u (debounceTimers st) = Some t;
  recorded_subscribed : forall u t,
    JsMap.get u (debounceTimers st) = Some t -> In u (subscribedUris st);
  dependent_subscribed : forall p us u,
    JsMap.get p (filePathToUris st) = Some us -> In u us -> In u (subscribedUris st);
  dependent_has_path : forall p us u,
    JsMap.get p (filePathToUris st) = Some us -> In u us ->
    exists ps, JsMap.get u (uriToFilePaths st) = Some ps /\ In p ps;
  paths_unique : NoDup (JsMap.keys (filePathToUris st))
}.

(** The operation is the firing of a timeout whose callback is the one
    for [uri]. *)
Definition firesFor (uri : string) (op : Op) (st : Manager) : bool :=
  match op with
  | TimerFires t =>
      match find (fun tu => Nat.eqb (fst tu) t) (pendingTimers st) with
      | Some (_, u) => String.eqb u uri
      | None => false
      end
  | _ => false
  end.

(** The operation is a call of [subscribe] for [uri]. *)
Definition subscribes (uri : string) (op : Op) : bool :=
  match op with
  | Subscribe _ u => String.eqb u uri
  | _ => false
  end.

(** How many times [notifyCallback] has been called with [uri]. *)
Definition notifications (uri : string) (st : Manager) : nat :=
  count_occ string_dec (notified st) uri.

Section Quiet.
Variable pathlib : PathApi.
Variable skillsDir : string.

(** No timeout of [uri] fires while [ops] run from [st]. *)
Fixpoint quietFor (uri : string) (ops : list Op) (st : Manager) : bool :=
  match ops with
  | [] => true
  | op :: rest =>
      negb (firesFor uri op st)
      && quietFor uri rest (snd (step pathlib skillsDir op st))
  end.

End Quiet.

(** The watchers open on path [p], and the URIs that depend on [p]. *)
Definition handlesOn (p : string) (st : Manager) : list (FSWatcher * string) :=
  filter (fun h => String.eqb (snd h) p) (openWatchers st).

Definition dependents (p : string) (st : Manager) : JsSet.t :=
  match JsMap.get p (filePathToUris st) with
  | Some uris => uris
  | None => []
  end.

(** What holds of the watchers whatever happened: the open watchers are
    those recorded in [watchers], each under a number of its own; the
    recorded dependents of a path are never an empty set; a watched path
    has dependents. *)
Record WatchOk (st : Manager) : Prop := {
  open_recorded : forall id p,
    In (id, p) (openWatchers st) <-> JsMap.get p (watchers st) = Some id;
  open_distinct : NoDup (map fst (openWatchers st));
  open_below : forall id p, In (id, p) (openWatchers st) -> id < nextWatcher st;
  dependents_nonempty : forall p us,
    JsMap.get p (filePathToUris st) = Some us -> us <> [];
  watched_has_dependents : forall p,
    JsMap.has p (watchers st) = true -> JsMap.has p (filePathToUris st) = true
}.

(** What holds besides, [watch] giving a watcher whenever it is called:
    a path with dependents is watched. *)
Definition Covered (st : Manager) : Prop :=
  forall p, JsMap.has p (filePathToUris st) = true -> JsMap.has p (watchers st) = true.

(** ** Characters of a text *)

(** How many times the character [c] occurs in [s]. *)
Fixpoint occurrences (c : ascii) (s : string) : nat :=
  match s with
  | EmptyString => 0
  | String d s' => (if Ascii.eqb d c then 1 else 0) + occurrences c s'
  end.

(** The characters [escapeXml] rewrites, counted in [s]. *)
Definition specials (s : string) : nat :=
  occurrences "&"%char s + occurrences "<"%char s + occurrences ">"%char s
  + occurrences quoteChar s + occurrences aposChar s.

(** ** Events of the structural watcher *)

(** A path segment: a text with no separator of either kind. *)
Definition plainSegment (s : string) : bool :=
  allChars (fun c => negb (Ascii.eqb c "/"%char) && negb (Ascii.eqb c "\"%char)) s.

Definition isDirEvent (eventType : string) : bool :=
  String.eqb eventType "addDir" || String.eqb eventType "unlinkDir".

(** How many of [ops] are events the watcher takes as relevant. *)
Fixpoint relevantEvents (skillsDir : string) (ops : list WatchOp) : nat :=
  match ops with
  | [] => 0
  | WatchEvent eventPath eventType :: rest =>
      (if isRelevantEvent skillsDir eventPath eventType then 1 else 0)
      + relevantEvents skillsDir rest
  | _ :: rest => relevantEvents skillsDir rest
  end.

Definition isWatchEvent (op : WatchOp) : bool :=
  match op with WatchEvent _ _ => true | _ => false end.

(** The variable [debounceTimer] holds the one timeout that is pending,
    if any is. *)
Definition OneTimeout (dw : DirWatcher) : Prop :=
  scheduled dw = match debounceTimer dw with Some t => [t] | None => [] end.

(** ** Calls on the file system *)

(** The calls a loader may make for the file [fullPath] of the base
    [skillsDir]. *)
Definition callsFor (skillsDir fullPath : string) : list FsCall :=
  [CallRealpath skillsDir; CallRealpath fullPath; CallStat fullPath;
   CallReadFile fullPath].

(** The checks a file passes before a loader reads it. *)
Definition checkedFile (pathlib : PathApi) (fs : Fs) (skillsDir fullPath : string)
  : Prop :=
  isPathWithinBase pathlib fs fullPath skillsDir = true /\
  exists sz, statSync fs fullPath = Ok sz /\ (sz <= MAX_FILE_SIZE)%N.

(** ** Timeouts of the manager *)

(** Timeouts are numbered as they are set: the pending ones carry
    numbers of their own, a recorded timer was set before the next one to
    come, and no two URIs record the same timer. *)
Record TimerIds (st : Manager) : Prop := {
  pending_distinct : NoDup (map fst (pendingTimers st));
  recorded_below : forall u t,
    JsMap.get u (debounceTimers st) = Some t -> t < nextTimer st;
  recorded_distinct : forall u u' t,
    JsMap.get u (debounceTimers st) = Some t ->
    JsMap.get u' (debounceTimers st) = Some t -> u = u'
}.

(** The test of [onFileChange]: the changed path is the watched path or
    lies under it. *)
Definition pathMatches (changedPath watchedPath : string) : bool :=
  String.eqb (Js.slashes changedPath) (Js.slashes watchedPath)
  || Js.startsWith (Js.slashes changedPath) (Js.slashes watchedPath +++ "/").

(** The loop of [onFileChange], over any entries. *)
Definition changeLoop (changedPath : string) (entries : list (string * JsSet.t))
    (st : Manager) : Manager :=
  fold_left
    (fun st' (entry : string * JsSet.t) =>
       let '(watchedPath, uris) := entry in
       if negb (pathMatches changedPath watchedPath) then st'
       else fold_left (fun st'' uri => debounce uri st'') uris st')
    entries st.

(** ** What a scan lists *)

Section Listing.
Variable pathlib : PathApi.
Variable fs : Fs.
Variable parseYaml : string -> result Yaml.
Variable stackDepth : nat.

(** [dir] is [top], or a directory reached from [top] through entries
    that are directories and lie within the base. *)
Inductive Descends (baseDir top : string) : string -> Prop :=
| DescendsTop : Descends baseDir top top
| DescendsInto dir entries entry :
    Descends baseDir top dir ->
    readdirSync fs dir = Ok entries ->
    In entry entries ->
    isDirectory entry = true ->
    isPathWithinBase pathlib fs (join pathlib dir (d_name entry)) baseDir = true ->
    Descends baseDir top (join pathlib dir (d_name entry)).

(** The document [d] stands for a file found under [top]: an entry that
    is a file, lies within the base and has the size listed, which is
    within the limit; its path is taken relative to [relativeTo]. *)
Definition ListedFrom (baseDir relativeTo top : string) (d : SkillDocument) : Prop :=
  exists dir entries entry,
    Descends baseDir top dir /\
    readdirSync fs dir = Ok entries /\ In entry entries /\ isFile entry = true /\
    isPathWithinBase pathlib fs (join pathlib dir (d_name entry)) baseDir = true /\
    statSync fs (join pathlib dir (d_name entry)) = Ok (size d) /\
    (size d <= MAX_FILE_SIZE)%N /\
    doc_path d = Js.slashes (relative pathlib relativeTo (join pathlib dir (d_name entry))) /\
    mimeType d = getMimeType pathlib (d_name entry).

(** The unit [v], filed under [k], is what the directory [entry] of the
    root declares. *)
Definition UnitOf (resolvedDir : string) (entry : Dirent) (k : string)
    (v : SkillMetadata) : Prop :=
  isDirectory entry = true /\
  skillDir v = join pathlib resolvedDir (d_name entry) /\
  findSkillMd pathlib fs (skillDir v) ["SKILL.md"; "skill.md"] = Some (path v) /\
  checkedFile pathlib fs resolvedDir (path v) /\
  exists content frontmatter body rawName rawDescription,
    readFileSync fs (path v) = Ok content /\
    parseFrontmatter parseYaml content = Ok (frontmatter, body) /\
    requiredString (prop frontmatter "name") = Some rawName /\
    requiredString (prop frontmatter "description") = Some rawDescription /\
    k = Js.trim rawName /\ name v = k /\
    description v = Js.trim rawDescription /\
    scanDocuments pathlib fs stackDepth (skillDir v) resolvedDir = Ok (documents v).

(** The directory [entry] of the root declares the name [k] with the
    unit [v]: it holds a definition file that lies within the root and is
    within the size limit, the file reads and its frontmatter parses, the
    frontmatter gives a name, of which [k] is the trimmed text, and a
    description, the documents of the directory scan, and [v] is the unit
    made of these. *)
Definition Declares (resolvedDir : string) (entry : Dirent) (k : string)
    (v : SkillMetadata) : Prop :=
  isDirectory entry = true /\
  exists skillMdPath content frontmatter body rawName rawDescription docs,
    findSkillMd pathlib fs (join pathlib resolvedDir (d_name entry))
                ["SKILL.md"; "skill.md"] = Some skillMdPath /\
    checkedFile pathlib fs resolvedDir skillMdPath /\
    readFileSync fs skillMdPath = Ok content /\
    parseFrontmatter parseYaml content = Ok (frontmatter, body) /\
    requiredString (prop frontmatter "name") = Some rawName /\
    requiredString (prop frontmatter "description") = Some rawDescription /\
    scanDocuments pathlib fs stackDepth (join pathlib resolvedDir (d_name entry))
                  resolvedDir = Ok docs /\
    k = Js.trim rawName /\
    v = {| name := Js.trim rawName;
           description := Js.trim rawDescription;
           path := skillMdPath;
           skillDir := join pathlib resolvedDir (d_name entry);
           metadata := match extractMetadata frontmatter with
                       | [] => None
                       | _ => Some (extractMetadata frontmatter)
                       end;
           documents := docs |}.

(** The entry of the root is a directory that holds a definition file. *)
Definition hasDefinition (resolvedDir : string) (entry : Dirent) : bool :=
  isDirectory entry
  && match findSkillMd pathlib fs (join pathlib resolvedDir (d_name entry))
                       ["SKILL.md"; "skill.md"] with
     | Some _ => true
     | None => false
     end.

End Listing.

(** ** A concrete disk, for examples *)

Module Disk.

Inductive Node : Type :=
| RegularFile (size : N) (content : string)
| Folder (entries : list Dirent).

Definition t : Type := JsMap.t Node.

Definition enoent {A} : result A := Throw "ENOENT: no such file or directory".

(** The file system of a POSIX disk without symbolic links, whose nodes
    are listed under their absolute normalized paths. *)
Definition fs (d : t) : Fs :=
  {| existsSync := fun p => JsMap.has p d;
     readdirSync := fun p =>
       match JsMap.get p d with
       | Some (Folder entries) => Ok entries
       | Some (RegularFile _ _) => Throw "ENOTDIR: not a directory"
       | None => enoent
       end;
     statSync := fun p =>
       match JsMap.get p d with
       | Some (RegularFile sz _) => Ok sz
       | Some (Folder _) => Ok 4096%N
       | None => enoent
       end;
     readFileSync := fun p =>
       match JsMap.get p d with
       | Some (RegularFile _ content) => Ok content
       | Some (Folder _) => Throw "EISDIR: illegal operation on a directory"
       | None => enoent
       end;
     realpathSync := fun p =>
       if JsMap.has p d then Ok p else enoent |}.

Definition dir (n : string) : Dirent := {| d_name := n; d_type := IsDirectory |}.
Definition file (n : string) : Dirent := {| d_name := n; d_type := IsFile |}.

(** A YAML parser for the examples: it reads the two lines
    [name: ...] and [description: ...] and nothing else. *)
Definition field (line key : string) : option (string * Yaml) :=
  if Js.startsWith line (key +++ ": ")
  then Some (key, YString (String.substring (String.length key + 2)
                                            (String.length line) line))
  else None.

Definition parseYaml (text : string) : result Yaml :=
  Ok (YMap (flat_map (fun line =>
                        match field line "name", field line "description" with
                        | Some kv, _ => [kv]
                        | None, Some kv => [kv]
                        | None, None => []
                        end) (Js.split text (String "010"%char EmptyString)))).

Definition posix : PathApi := Posix.api "/".

End Disk.

(** ** A sample tree *)

Module Sample.

Definition nl : string := String "010"%char EmptyString.

Definition skillMd (n d : string) : string :=
  "---" +++ nl +++ "name: " +++ n +++ nl +++ "description: " +++ d +++ nl
  +++ "---" +++ nl +++ "Body".

(** [alpha] and [beta] are well formed, [gamma] has a definition file of
    2 MB, and [alpha2] declares the name [alpha] again. *)
Definition disk : Disk.t :=
  [ ("/skills", Disk.Folder [Disk.dir "alpha"; Disk.file "README.md"; Disk.dir "gamma";
                             Disk.dir "beta"; Disk.dir "alpha2"]);
    ("/skills/alpha", Disk.Folder [Disk.file "SKILL.md"]);
    ("/skills/alpha/SKILL.md", Disk.RegularFile 60 (skillMd "alpha" "d"));
    ("/skills/gamma", Disk.Folder [Disk.file "SKILL.md"]);
    ("/skills/gamma/SKILL.md", Disk.RegularFile 2097152 (skillMd "gamma" "big"));
    ("/skills/beta", Disk.Folder [Disk.file "skill.md"; Disk.dir "refs"]);
    ("/skills/beta/skill.md", Disk.RegularFile 60 (skillMd " beta " "b"));
    ("/skills/beta/refs", Disk.Folder [Disk.file "r.md"; Disk.dir "deep"]);
    ("/skills/beta/refs/r.md", Disk.RegularFile 50 "x");
    ("/skills/beta/refs/deep", Disk.Folder [Disk.file "pic.PNG"]);
    ("/skills/beta/refs/deep/pic.PNG", Disk.RegularFile 5 "x");
    ("/skills/alpha2", Disk.Folder [Disk.file "SKILL.md"]);
    ("/skills/alpha2/SKILL.md", Disk.RegularFile 60 (skillMd "alpha  " "second")) ].

Definition fs : Fs := Disk.fs disk.

Definition alpha : SkillMetadata :=
  {| name := "alpha"; description := "d"; path := "/skills/alpha/SKILL.md";
     skillDir := "/skills/alpha"; metadata := None; documents := [] |}.

Definition beta : SkillMetadata :=
  {| name := "beta"; description := "b"; path := "/skills/beta/skill.md";
     skillDir := "/skills/beta"; metadata := None;
     documents :=
       [ {| doc_path := "refs/r.md"; mimeType := "text/markdown"; size := 50 |};
         {| doc_path := "refs/deep/pic.PNG"; mimeType := "image/png"; size := 5 |} ] |}.

Definition scan : result SkillMap * list Diagnostic :=
  discoverSkills Disk.posix fs Disk.parseYaml 16 "/skills".

End Sample.

(** ** The sample tree, served *)

Module Scenario.
Import Sample.
Definition catalog : SkillMap := [("alpha", alpha); ("beta", beta)].

(** A world in which the system accepts every watch, and one in which
    it has run out of watchers: every watcher created there reports the
    error after [watch] has returned it. *)
Definition calm : World :=
  Build_World catalog fs (fun _ => None).


Definition alphaUri : string := "skill://alpha/SKILL.md".

Abbreviation subscribe := (subscribe Disk.posix "/skills").
Abbreviation run := (run Disk.posix "/skills").

Definition sharedOps : list Op :=
  [ Subscribe calm alphaUri; Subscribe calm "skill://prompt-xml";
    Subscribe calm "skill://beta/_manifest"; Unsubscribe alphaUri;
    UnsubscribeByPrefix "skill://beta/" ].

(** The server with the sample catalog, and a scan that finds [alpha]
    with a new description. *)
Definition server : Index.Server :=
  {| Index.skillMap := catalog;
     Index.resourceHandles :=
       [ ("alpha", ("skill-alpha", "skill-alpha-manifest"));
         ("beta", ("skill-beta", "skill-beta-manifest")) ];
     Index.registered :=
       [ "skills-prompt-xml"; "skill-alpha"; "skill-alpha-manifest";
         "skill-beta"; "skill-beta-manifest"; "skill-file" ];
     Index.subscriptions :=
       run [Subscribe calm "skill://beta/_manifest"] createSubscriptionManager;
     Index.loadSkillToolDescription := Index.describeLoadSkill catalog;
     Index.log := [] |}.

(** The tree after an edit: [alpha] has a new description and a
    document, [beta] is gone, [delta] is new. *)
Definition editedDisk : Disk.t :=
  [ ("/skills", Disk.Folder [Disk.dir "alpha"; Disk.dir "delta"]);
    ("/skills/alpha", Disk.Folder [Disk.file "SKILL.md"; Disk.dir "refs"]);
    ("/skills/alpha/SKILL.md", Disk.RegularFile 65 (skillMd "alpha" "edited"));
    ("/skills/alpha/refs", Disk.Folder [Disk.file "new.md"]);
    ("/skills/alpha/refs/new.md", Disk.RegularFile 7 "x");
    ("/skills/delta", Disk.Folder [Disk.file "SKILL.md"]);
    ("/skills/delta/SKILL.md", Disk.RegularFile 60 (skillMd "delta" "new")) ].

Definition alphaEdited : SkillMetadata :=
  {| name := "alpha"; description := "edited"; path := "/skills/alpha/SKILL.md";
     skillDir := "/skills/alpha"; metadata := None;
     documents := [ {| doc_path := "refs/new.md"; mimeType := "text/markdown";
                       size := 7 |} ] |}.

Definition delta : SkillMetadata :=
  {| name := "delta"; description := "new"; path := "/skills/delta/SKILL.md";
     skillDir := "/skills/delta"; metadata := None; documents := [] |}.

Definition rescanned : SkillMap := [("alpha", alphaEdited); ("delta", delta)].

Abbreviation onChanged :=
  (Index.onChanged Disk.posix (Disk.fs editedDisk) Disk.parseYaml 16 "/skills").

End Scenario.

(** ** Further cases on the sample tree *)

Module Cases.
Import Sample.

(** The sample tree on a system that refuses to give the size of the
    definition file of [beta]. *)
Definition guarded : Fs :=
  {| existsSync := existsSync fs;
     readdirSync := readdirSync fs;
     statSync := fun p =>
       if String.eqb p "/skills/beta/skill.md"
       then Throw "EACCES: permission denied"
       else statSync fs p;
     readFileSync := readFileSync fs;
     realpathSync := realpathSync fs |}.



(** The second unit of the sample tree that declares [alpha]. *)
Definition alphaAgain : SkillMetadata :=
  {| name := "alpha"; description := "second"; path := "/skills/alpha2/SKILL.md";
     skillDir := "/skills/alpha2"; metadata := None; documents := [] |}.

(** A directory and its definition file arrive. *)
Definition arrival : list (string * string) :=
  [ ("/skills/delta", "addDir"); ("/skills/delta/notes.txt", "add");
    ("/skills/delta/SKILL.md", "add") ].

(** A client subscribes to the definition file of [alpha], which then
    changes. *)
Definition alphaWatched : list Op := [Subscribe Scenario.calm Scenario.alphaUri].

Definition alphaChanged : list Op :=
  alphaWatched ++ [FileChange "/skills/alpha/SKILL.md"].

(** The server of the scenario with two more subscriptions. *)
Definition busyServer : Index.Server :=
  {| Index.skillMap := Index.skillMap Scenario.server;
     Index.resourceHandles := Index.resourceHandles Scenario.server;
     Index.registered := Index.registered Scenario.server;
     Index.subscriptions :=
       run Disk.posix "/skills"
           [ Subscribe Scenario.calm "skill://beta/_manifest";
             Subscribe Scenario.calm Scenario.alphaUri;
             Subscribe Scenario.calm "skill://prompt-xml" ]
           createSubscriptionManager;
     Index.loadSkillToolDescription := Index.loadSkillToolDescription Scenario.server;
     Index.log := [] |}.

End Cases.

(** * Part III: the properties *)

(** ** Facts about strings *)

Module JsFacts.
Import Js.

Lemma startsWith_spec s p : startsWith s p = true <-> exists t, s = p +++ t.
Proof.
  unfold startsWith. revert s.
  induction p as [|c p IH]; intros s; simpl.
  - destruct s; split; eauto.
  - destruct s as [|d s]; simpl.
    + split; [discriminate | intros [t Ht]; discriminate].
    + destruct (Ascii.ascii_dec c d) as [->|Hne].
      * rewrite IH. split; intros [t Ht]; exists t; congruence.
      * split; [discriminate | intros [t Ht]; congruence].
Qed.

Lemma startsWith_app p t : startsWith (p +++ t) p = true.
Proof. apply startsWith_spec. eauto. Qed.

Lemma app_inv_head (p a b : string) : p +++ a = p +++ b -> a = b.
Proof. induction p; simpl; intros H; [assumption | injection H; auto]. Qed.

Lemma app_assoc (a b c : string) : (a +++ b) +++ c = a +++ (b +++ c).
Proof. induction a; simpl; congruence. Qed.

Lemma app_nil_r (a : string) : a +++ "" = a.
Proof. induction a; simpl; congruence. Qed.

Lemma app_neq_self (p t : string) : t <> "" -> p +++ t <> p.
Proof.
  intros Ht H. apply Ht.
  rewrite <- (app_nil_r p) in H at 2. now apply app_inv_head in H.
Qed.

Lemma prefix_startsWith sub s : String.prefix sub s = startsWith s sub.
Proof. reflexivity. Qed.

Lemma includes_spec s sub :
  includes s sub = true <-> exists a b, s = a +++ sub +++ b.
Proof.
  induction s as [|c s IH]; cbn [includes];
    rewrite prefix_startsWith;
    match goal with |- context [startsWith ?x sub] =>
      destruct (startsWith x sub) eqn:E end.
  - split; [intros _ | reflexivity].
    apply startsWith_spec in E. destruct E as [t Ht]. exists "", t. exact Ht.
  - split; [discriminate|]. intros (a & b & H).
    destruct a; simpl in H; [|discriminate].
    assert (startsWith "" sub = true) by (apply startsWith_spec; eauto).
    congruence.
  - split; [intros _ | reflexivity].
    apply startsWith_spec in E. destruct E as [t Ht]. exists "", t. exact Ht.
  - rewrite IH. split.
    + intros (a & b & ->). exists (String c a), b. reflexivity.
    + intros (a & b & H). destruct a as [|d a]; simpl in H.
      * assert (startsWith (String c s) sub = true) by (apply startsWith_spec; eauto).
        congruence.
      * injection H as _ ->. eauto.
Qed.

End JsFacts.

(** *** Containment: what each branch decides *)

Section BoundaryFacts.
Variable pathlib : PathApi.
Variable fs : Fs.

(** On the branch where both paths resolve, containment is equality with
    the root or nesting under it. *)
Lemma isPathWithinBase_resolved targetPath baseDir realBase realTarget :
  realpathSync fs baseDir = Ok realBase ->
  realpathSync fs targetPath = Ok realTarget ->
  isPathWithinBase pathlib fs targetPath baseDir = true <->
  realTarget = realBase \/ nestedUnder (sep pathlib) realTarget realBase.
Proof.
  intros Hb Ht. unfold isPathWithinBase, nestedUnder. rewrite Hb, Ht.
  rewrite orb_true_iff, String.eqb_eq, JsFacts.startsWith_spec.
  split; (intros [H|[t H]]; [left; exact H | right; exists t]).
  - now rewrite H, JsFacts.app_assoc.
  - now rewrite H, JsFacts.app_assoc.
Qed.

(** On the fallback branch only nesting is accepted. *)
Lemma isPathWithinBase_fallback targetPath baseDir :
  isOk (realpathSync fs baseDir) && isOk (realpathSync fs targetPath) = false ->
  isPathWithinBase pathlib fs targetPath baseDir = true <->
  nestedUnder (sep pathlib) (resolve pathlib targetPath) (resolve pathlib baseDir).
Proof.
  intros Hf. unfold isPathWithinBase, withinLexically, nestedUnder.
  assert (E : forall b, b = Js.startsWith (resolve pathlib targetPath)
                              (resolve pathlib baseDir +++ sep pathlib) ->
              b = true <-> exists t, resolve pathlib targetPath
                                     = resolve pathlib baseDir +++ sep pathlib +++ t).
  { intros b ->. rewrite JsFacts.startsWith_spec.
    split; intros [t H]; exists t; now rewrite H, JsFacts.app_assoc. }
  destruct (realpathSync fs baseDir); [destruct (realpathSync fs targetPath)|];
    simpl in Hf; try discriminate; now apply E.
Qed.

(** A sibling whose name extends the root's is outside it, whichever
    branch decides: a path that continues the root with a character other
    than the separator's first is neither the root nor nested under it. *)
Lemma sibling_not_nested (R : string) (c d : ascii) (sepRest tail : string) :
  c <> d -> R +++ String c tail <> R /\ ~ nestedUnder (String d sepRest) (R +++ String c tail) R.
Proof.
  intros Hcd. split.
  - apply JsFacts.app_neq_self. discriminate.
  - intros [t H]. apply JsFacts.app_inv_head in H. simpl in H. congruence.
Qed.

Lemma isPathWithinBase_sibling_resolved targetPath baseDir realBase tail :
  sep pathlib = "/" ->
  realpathSync fs baseDir = Ok realBase ->
  realpathSync fs targetPath = Ok (realBase +++ "-" +++ tail) ->
  isPathWithinBase pathlib fs targetPath baseDir = false.
Proof.
  intros Hs Hb Ht. apply not_true_is_false. intros H.
  apply (isPathWithinBase_resolved _ _ _ _ Hb Ht) in H. rewrite Hs in H.
  destruct (@sibling_not_nested realBase "-"%char "/"%char "" tail) as [H1 H2];
    [discriminate|].
  destruct H as [H|H]; [exact (H1 H) | exact (H2 H)].
Qed.

Lemma isPathWithinBase_sibling_fallback targetPath baseDir tail :
  sep pathlib = "/" ->
  isOk (realpathSync fs baseDir) && isOk (realpathSync fs targetPath) = false ->
  resolve pathlib targetPath = resolve pathlib baseDir +++ "-" +++ tail ->
  isPathWithinBase pathlib fs targetPath baseDir = false.
Proof.
  intros Hs Hf Hr. apply not_true_is_false. intros H.
  apply (isPathWithinBase_fallback _ _ Hf) in H. rewrite Hs, Hr in H.
  destruct (@sibling_not_nested (resolve pathlib baseDir) "-"%char "/"%char "" tail)
    as [_ H2]; [discriminate|].
  exact (H2 H).
Qed.

(** C1 (the defect): when resolution fails, the fallback branch answers
    [false] for a candidate whose resolved form equals the resolved root,
    the root itself to begin with; the branch taken when resolution
    succeeds accepts that case through its equality test. *)
Theorem isPathWithinBase_fallback_rejects_root (P R : string) :
  isOk (realpathSync fs R) && isOk (realpathSync fs P) = false ->
  sep pathlib <> "" ->
  resolve pathlib P = resolve pathlib R ->
  isPathWithinBase pathlib fs P R = false.
Proof.
  intros Hf Hs He.
  apply not_true_is_false. intros H.
  apply isPathWithinBase_fallback in H; [|exact Hf].
  destruct H as [t H]. rewrite He in H.
  symmetry in H. revert H. apply JsFacts.app_neq_self.
  destruct (sep pathlib); [congruence | discriminate].
Qed.

End BoundaryFacts.

(** ** Facts about [Map] and [Set] *)

Module JsMapFacts.
Import JsMap.

Lemma get_set_same {V} k (v : V) m : get k (set k v m) = Some v.
Proof.
  induction m as [|[k' v'] m IH]; simpl.
  - now rewrite String.eqb_refl.
  - destruct (String.eqb k k') eqn:E; simpl; rewrite ?String.eqb_refl, ?E; auto.
Qed.

Lemma get_set_other {V} k k' (v : V) m : k <> k' -> get k' (set k v m) = get k' m.
Proof.
  intros Hne. induction m as [|[k0 v0] m IH]; simpl.
  - destruct (String.eqb k' k) eqn:E; [apply String.eqb_eq in E; congruence | reflexivity].
  - destruct (String.eqb k k0) eqn:E; simpl.
    + apply String.eqb_eq in E. subst k0.
      destruct (String.eqb k' k) eqn:E'; [apply String.eqb_eq in E'; congruence | reflexivity].
    + destruct (String.eqb k' k0); auto.
Qed.

Lemma has_In_keys {V} k (m : t V) : has k m = true <-> In k (keys m).
Proof.
  unfold has, keys. induction m as [|[k' v'] m IH]; simpl.
  - split; [discriminate | tauto].
  - destruct (String.eqb k k') eqn:E.
    + apply String.eqb_eq in E. split; auto.
    + apply String.eqb_neq in E. rewrite IH. split; [auto | intros [H|H]; congruence].
Qed.

Lemma get_In {V} k (v : V) m : get k m = Some v -> In (k, v) m.
Proof.
  induction m as [|[k' v'] m IH]; simpl; [discriminate|].
  destruct (String.eqb k k') eqn:E.
  - apply String.eqb_eq in E. intros [= ->]. left. congruence.
  - auto.
Qed.

Lemma In_get {V} k (v : V) m : NoDup (keys m) -> In (k, v) m -> get k m = Some v.
Proof.
  unfold keys. induction m as [|[k' v'] m IH]; simpl; [tauto|].
  intros Hnd [H|H].
  - injection H as -> ->. now rewrite String.eqb_refl.
  - inversion Hnd as [|? ? Hni Hnd']; subst.
    destruct (String.eqb k k') eqn:E; [|auto].
    apply String.eqb_eq in E. subst k'. exfalso. apply Hni.
    change k with (fst (k, v)). now apply in_map.
Qed.

Lemma set_new {V} k (v : V) m : has k m = false -> set k v m = m ++ [(k, v)].
Proof.
  unfold has. induction m as [|[k' v'] m IH]; simpl; [reflexivity|].
  destruct (String.eqb k k'); [discriminate|]. intros H. now rewrite IH.
Qed.

Lemma keys_set_new {V} k (v : V) m :
  has k m = false -> keys (set k v m) = keys m ++ [k].
Proof. intros H. rewrite (@set_new _ k v m H). unfold keys. now rewrite map_app. Qed.

Lemma NoDup_keys_set {V} k (v : V) m :
  has k m = false -> NoDup (keys m) -> NoDup (keys (set k v m)).
Proof.
  intros Hh Hnd. rewrite (@keys_set_new _ k v m Hh).
  apply NoDup_app; [assumption | repeat constructor; simpl; tauto | ].
  intros x Hx [<-|[]]. apply has_In_keys in Hx. congruence.
Qed.

Lemma get_delete_same {V} k (m : t V) : get k (delete k m) = None.
Proof.
  unfold delete. induction m as [|[k' v'] m IH]; simpl; [reflexivity|].
  destruct (String.eqb k k') eqn:E; simpl; [assumption | now rewrite E].
Qed.

Lemma get_delete_other {V} k k' (m : t V) : k <> k' -> get k' (delete k m) = get k' m.
Proof.
  intros Hne. unfold delete. induction m as [|[k0 v0] m IH]; simpl; [reflexivity|].
  destruct (String.eqb k k0) eqn:E; simpl.
  - apply String.eqb_eq in E. subst k0.
    destruct (String.eqb k' k) eqn:E'; [apply String.eqb_eq in E'; congruence | assumption].
  - destruct (String.eqb k' k0); auto.
Qed.

End JsMapFacts.

Module JsSetFacts.
Import JsSet.

Lemma has_In x s : has x s = true <-> In x s.
Proof.
  unfold has. rewrite existsb_exists. split.
  - intros (y & Hy & E). apply String.eqb_eq in E. now subst.
  - intros H. exists x. split; [assumption | apply String.eqb_refl].
Qed.

Lemma has_false x s : has x s = false <-> ~ In x s.
Proof. rewrite <- has_In. destruct (has x s); split; congruence. Qed.

Lemma In_add x y s : In x (add y s) <-> x = y \/ In x s.
Proof.
  unfold add. destruct (has y s) eqn:E.
  - apply has_In in E. split; [auto | intros [->|H]; assumption].
  - rewrite in_app_iff. simpl. split; [intros [H|[H|[]]]; auto | intros [H|H]; auto].
Qed.

Lemma In_delete x y s : In x (delete y s) <-> x <> y /\ In x s.
Proof.
  unfold delete. rewrite filter_In, negb_true_iff, String.eqb_neq.
  split; intros [H1 H2]; split; auto.
Qed.

Lemma In_ofList x xs : In x (ofList xs) <-> In x xs.
Proof.
  unfold ofList.
  assert (G : forall acc, In x (fold_left (fun s y => add y s) xs acc) <-> In x acc \/ In x xs).
  { induction xs as [|y xs IH]; intros acc; simpl; [tauto|].
    rewrite IH, In_add. split; intros H; intuition auto. }
  rewrite G. simpl. tauto.
Qed.

End JsSetFacts.

(** ** The scan: skipped units, duplicate names, a missing root *)

Section DiscoveryFacts.
Variable pathlib : PathApi.
Variable fs : Fs.
Variable parseYaml : string -> result Yaml.
Variable stackDepth : nat.

Abbreviation visitEntry := (visitEntry pathlib fs parseYaml stackDepth).
Abbreviation visitEntries := (visitEntries pathlib fs parseYaml stackDepth).
Abbreviation registerSkill := (registerSkill pathlib fs parseYaml stackDepth).
Abbreviation discoverSkills := (discoverSkills pathlib fs parseYaml stackDepth).
Abbreviation findSkillMd := (findSkillMd pathlib fs).

Lemma requiredString_trim v s : requiredString v = Some s -> Js.trim s <> "".
Proof.
  unfold requiredString. destruct v as [[]|]; try discriminate.
  destruct (Js.trim s0) eqn:E; simpl; [discriminate|].
  intros [= <-]. rewrite E. discriminate.
Qed.

Lemma registerSkill_cases resolvedDir skillDir_ skillMdPath m :
  Registered skillDir_ skillMdPath m
    (fst (registerSkill resolvedDir skillDir_ skillMdPath m))
    (snd (registerSkill resolvedDir skillDir_ skillMdPath m)).
Proof.
  unfold registerSkill.
  destruct (readFileSync fs skillMdPath); simpl; [|constructor].
  destruct (parseFrontmatter parseYaml a) as [[fm body]|]; simpl; [|constructor].
  destruct (requiredString (prop fm "name")) as [n|] eqn:En; simpl; [|constructor].
  destruct (requiredString (prop fm "description")) as [d|]; simpl; [|constructor].
  destruct (JsMap.has (Js.trim n) m) eqn:Eh; simpl; [constructor|].
  destruct (scanDocuments pathlib fs stackDepth skillDir_ resolvedDir); simpl;
    [|constructor].
  apply RegisteredNew; auto. eapply requiredString_trim; eauto.
Qed.

Lemma visitEntry_cases resolvedDir entry m :
  Visited pathlib resolvedDir entry m (fst (visitEntry resolvedDir m entry))
                              (snd (visitEntry resolvedDir m entry)).
Proof.
  unfold visitEntry.
  destruct (isDirectory entry); cbn [negb fst snd]; [|constructor].
  destruct (findSkillMd (join pathlib resolvedDir (d_name entry)) ["SKILL.md"; "skill.md"])
    as [p|]; [|constructor].
  destruct (statSync fs p) as [sz|]; [|constructor].
  destruct (N.ltb MAX_FILE_SIZE sz); [constructor|].
  destruct (isPathWithinBase pathlib fs p resolvedDir); cbn [negb fst snd]; [|constructor].
  pose proof (registerSkill_cases resolvedDir
                (join pathlib resolvedDir (d_name entry)) p m) as R.
  destruct (registerSkill resolvedDir (join pathlib resolvedDir (d_name entry)) p m)
    as [m' lines]. cbn [fst snd] in *.
  inversion R; subst; [constructor|].
  now apply VisitedNew.
Qed.

Lemma CatalogOk_empty : CatalogOk [].
Proof. split; [constructor | intros k v []]. Qed.

Lemma visitEntry_keeps resolvedDir entry m m' :
  fst (visitEntry resolvedDir m entry) = Ok m' ->
  (forall k v, JsMap.get k m = Some v -> JsMap.get k m' = Some v) /\
  (CatalogOk m -> CatalogOk m') /\
  (forall k v, In (k, v) m' ->
     In (k, v) m \/ skillDir v = join pathlib resolvedDir (d_name entry)).
Proof.
  intros H. pose proof (visitEntry_cases resolvedDir entry m) as C.
  rewrite H in C.
  inversion C as [lines Hl | | raw v Ht Hh Hn Hd Hm]; subst; [now auto|].
  split; [|split].
  - intros k v0 Hk. rewrite JsMapFacts.get_set_other; [assumption|].
    intros <-. unfold JsMap.has in Hh. now rewrite Hk in Hh.
  - intros [Hnd Hall]. split; [now apply JsMapFacts.NoDup_keys_set|].
    intros k v0 Hin. rewrite JsMapFacts.set_new in Hin by assumption.
    apply in_app_or in Hin. destruct Hin as [Hin|[[= <- <-]|[]]]; [now apply Hall|].
    split; [assumption|]. split; [assumption | eauto].
  - intros k v0 Hin. rewrite JsMapFacts.set_new in Hin by assumption.
    apply in_app_or in Hin. destruct Hin as [Hin|[[= <- <-]|[]]]; auto.
Qed.

Lemma visitEntries_cons resolvedDir entry rest m log :
  visitEntries resolvedDir (entry :: rest) m log =
  match visitEntry resolvedDir m entry with
  | (Ok m', lines) => visitEntries resolvedDir rest m' (log ++ lines)
  | (Throw e, lines) => (Throw e, log ++ lines)
  end.
Proof. reflexivity. Qed.

Lemma visitEntries_app resolvedDir a b m log :
  visitEntries resolvedDir (a ++ b) m log =
  match visitEntries resolvedDir a m log with
  | (Ok m', log') => visitEntries resolvedDir b m' log'
  | (Throw e, log') => (Throw e, log')
  end.
Proof.
  revert m log. induction a as [|x a IH]; intros m log; simpl; [reflexivity|].
  destruct (visitEntry resolvedDir m x) as [[m'|e] lines]; [apply IH | reflexivity].
Qed.

Lemma visitEntries_keeps resolvedDir entries : forall m log m' log',
  visitEntries resolvedDir entries m log = (Ok m', log') ->
  (forall k v, JsMap.get k m = Some v -> JsMap.get k m' = Some v) /\
  (CatalogOk m -> CatalogOk m') /\
  (forall k v, In (k, v) m' ->
     In (k, v) m \/
     exists e, In e entries /\ skillDir v = join pathlib resolvedDir (d_name e)) /\
  (exists lines, log' = log ++ lines).
Proof.
  induction entries as [|x entries IH]; intros m log m' log' H; simpl in H.
  - injection H as <- <-.
    split; [auto|]. split; [auto|]. split; [auto|]. exists []. now rewrite app_nil_r.
  - destruct (visitEntry resolvedDir m x) as [[m1|e] lines] eqn:E; [|discriminate].
    destruct (@visitEntry_keeps resolvedDir x m m1) as (K1 & K2 & K3);
      [now rewrite E|].
    destruct (IH _ _ _ _ H) as (I1 & I2 & I3 & [l I4]).
    split; [auto|]. split; [auto|]. split.
    + intros k v Hin. destruct (I3 _ _ Hin) as [Hm1|(e & He & Hd)].
      * destruct (K3 _ _ Hm1) as [?|?]; [now left | right; exists x; simpl; auto].
      * right. exists e. simpl. auto.
    + exists (lines ++ l). now rewrite I4, app_assoc.
Qed.


(** C10: when the root directory does not exist the scan returns the
    empty catalog, after one diagnostic, and throws nothing. *)
Theorem discoverSkills_missing_root skillsDir :
  existsSync fs (resolve pathlib skillsDir) = false ->
  discoverSkills skillsDir
  = (Ok [], [SkillsDirNotFound (resolve pathlib skillsDir)]).
Proof. intros H. unfold discoverSkills. now rewrite H. Qed.

End DiscoveryFacts.

(** ** Loading: the traversal guard *)

Section LoadingFacts.
Variable pathlib : PathApi.
Variable fs : Fs.

Lemma isPathWithinBaseTraced_fst targetPath baseDir :
  fst (isPathWithinBaseTraced pathlib fs targetPath baseDir)
  = isPathWithinBase pathlib fs targetPath baseDir.
Proof.
  unfold isPathWithinBaseTraced, isPathWithinBase.
  destruct (realpathSync fs baseDir); [destruct (realpathSync fs targetPath)|];
    reflexivity.
Qed.

(** C9: a document path that holds two consecutive dots anywhere, be it
    inside a file name, is refused with the traversal error before the
    loader makes any call on the file system. *)
Theorem loadDocument_rejects_dotdot skill documentPath skillsDir :
  (exists a b, documentPath = a +++ ".." +++ b) ->
  loadDocument pathlib fs skill documentPath skillsDir
  = (Throw "Path traversal not allowed", []).
Proof.
  intros H. apply JsFacts.includes_spec in H. unfold loadDocument. now rewrite H.
Qed.

End LoadingFacts.

(** ** The resolver: one rule per kind of identifier *)

Lemma stripPrefix_app p s : stripPrefix p (p +++ s) = Some s.
Proof.
  induction p as [|c p IH]; simpl; [now destruct s|]. now rewrite Ascii.eqb_refl.
Qed.

Lemma stripPrefix_Some p : forall s t, stripPrefix p s = Some t -> s = p +++ t.
Proof.
  induction p as [|c p IH]; intros s t; simpl.
  - destruct s; now intros [= ->].
  - destruct s as [|d s]; [discriminate|].
    destruct (Ascii.eqb c d) eqn:E; [|discriminate].
    apply Ascii.eqb_eq in E. subst d. intros H. now rewrite (IH _ _ H).
Qed.

Lemma cutAtSlash_app n rest :
  noSlash n = true -> cutAtSlash (n +++ "/" +++ rest) = Some (n, rest).
Proof.
  unfold noSlash. induction n as [|c n IH]; simpl in *; [reflexivity|].
  intros H. apply andb_true_iff in H. destruct H as [Hc Hn].
  apply negb_true_iff in Hc. rewrite Hc. now rewrite IH.
Qed.

Lemma cutAtSlash_Some s : forall a b,
  cutAtSlash s = Some (a, b) -> s = a +++ "/" +++ b /\ noSlash a = true.
Proof.
  unfold noSlash. induction s as [|c s IH]; intros a b; simpl; [discriminate|].
  destruct (Ascii.eqb c slash) eqn:E.
  - apply Ascii.eqb_eq in E. subst c. intros [= <- <-]. now split.
  - destruct (cutAtSlash s) as [[a' b']|]; [|discriminate].
    intros [= <- <-]. destruct (IH _ _ eq_refl) as [-> Ha].
    split; [reflexivity|]. simpl. now rewrite E, Ha.
Qed.

Lemma truthy_neq s : Js.truthy s = true <-> s <> "".
Proof. destruct s; simpl; split; congruence. Qed.

Lemma matchSkillUri_build n rest :
  validName n -> validRest rest ->
  matchSkillUri ("skill://" +++ n +++ "/" +++ rest) = Some (n, rest).
Proof.
  intros [Hn Hs] [Hr Hl]. unfold matchSkillUri.
  rewrite stripPrefix_app. cbv beta iota. rewrite (cutAtSlash_app _ _ Hs).
  apply truthy_neq in Hn, Hr. cbv beta iota. now rewrite Hn, Hr, Hl.
Qed.

Lemma matchSkillUri_Some uri n rest :
  matchSkillUri uri = Some (n, rest) ->
  uri = "skill://" +++ n +++ "/" +++ rest /\ validName n /\ validRest rest.
Proof.
  unfold matchSkillUri.
  destruct (stripPrefix "skill://" uri) as [body|] eqn:Ep; [|discriminate].
  destruct (cutAtSlash body) as [[a b]|] eqn:Ec; [|discriminate].
  destruct (Js.truthy a) eqn:Ea; [|discriminate].
  destruct (Js.truthy b) eqn:Eb; [|discriminate].
  destruct (allChars _ b) eqn:El; [|discriminate].
  intros [= <- <-]. apply stripPrefix_Some in Ep.
  destruct (cutAtSlash_Some _ _ _ Ec) as [-> Hs]. subst uri.
  repeat split; auto; now apply truthy_neq.
Qed.

Lemma scheme_not_aggregate n rest :
  noSlash n = true ->
  String.eqb ("skill://" +++ n +++ "/" +++ rest) "skill://prompt-xml" = false.
Proof.
  intros Hs. apply String.eqb_neq. intros H.
  apply (JsFacts.app_inv_head "skill://" (n +++ "/" +++ rest) "prompt-xml") in H.
  pose proof (cutAtSlash_app n rest Hs) as C. rewrite H in C. discriminate.
Qed.

Section ResolverFacts.
Variable pathlib : PathApi.
Variable fs : Fs.
Variable skillsDir : string.

(** C2: the rules of the resolver, one per kind of identifier: the
    aggregate identifier, a unit's primary content, a unit's manifest, a
    supplementary path behind the boundary check, and the empty list for
    every identifier that is none of these. *)
Theorem resolveUriToFilePaths_rules (skillMap : SkillMap) :
  resolveUriToFilePaths pathlib fs "skill://prompt-xml" skillMap skillsDir
  = map path (JsMap.values skillMap) /\
  (forall n skill, validName n -> JsMap.get n skillMap = Some skill ->
     resolveUriToFilePaths pathlib fs ("skill://" +++ n +++ "/SKILL.md") skillMap skillsDir
     = [path skill]) /\
  (forall n skill, validName n -> JsMap.get n skillMap = Some skill ->
     resolveUriToFilePaths pathlib fs ("skill://" +++ n +++ "/_manifest") skillMap skillsDir
     = [skillDir skill]) /\
  (forall n rest skill,
     validName n -> validRest rest -> rest <> "SKILL.md" -> rest <> "_manifest" ->
     JsMap.get n skillMap = Some skill ->
     resolveUriToFilePaths pathlib fs ("skill://" +++ n +++ "/" +++ rest) skillMap skillsDir
     = if isPathWithinBase pathlib fs (join pathlib (skillDir skill) rest) skillsDir
       then [join pathlib (skillDir skill) rest] else []) /\
  (forall uri,
     uri <> "skill://prompt-xml" ->
     (forall n rest, uri = "skill://" +++ n +++ "/" +++ rest ->
                     validName n -> validRest rest -> JsMap.get n skillMap = None) ->
     resolveUriToFilePaths pathlib fs uri skillMap skillsDir = []).
Proof.
  split; [reflexivity|].
  assert (R : forall n rest skill, validName n -> validRest rest ->
                JsMap.get n skillMap = Some skill ->
                resolveUriToFilePaths pathlib fs ("skill://" +++ n +++ "/" +++ rest)
                                      skillMap skillsDir
                = if String.eqb rest "SKILL.md" then [path skill]
                  else if String.eqb rest "_manifest" then [skillDir skill]
                  else if negb (isPathWithinBase pathlib fs
                                  (join pathlib (skillDir skill) rest) skillsDir)
                       then [] else [join pathlib (skillDir skill) rest]).
  { intros n rest skill Hn Hr Hg. unfold resolveUriToFilePaths.
    rewrite (scheme_not_aggregate n rest (proj2 Hn)).
    now rewrite (matchSkillUri_build n rest Hn Hr), Hg. }
  split; [|split; [|split]].
  - intros n skill Hn Hg.
    apply (R n "SKILL.md" skill Hn); [split; [discriminate | reflexivity] | exact Hg].
  - intros n skill Hn Hg.
    apply (R n "_manifest" skill Hn); [split; [discriminate | reflexivity] | exact Hg].
  - intros n rest skill Hn Hr H1 H2 Hg. rewrite (R n rest skill Hn Hr Hg).
    apply String.eqb_neq in H1, H2. rewrite H1, H2.
    now destruct (isPathWithinBase pathlib fs (join pathlib (skillDir skill) rest) skillsDir).
  - intros uri Hagg Hnone. unfold resolveUriToFilePaths.
    apply String.eqb_neq in Hagg. rewrite Hagg.
    destruct (matchSkillUri uri) as [[n rest]|] eqn:Em; [|reflexivity].
    destruct (matchSkillUri_Some _ _ _ Em) as (Hu & Hn & Hr).
    now rewrite (Hnone n rest Hu Hn Hr).
Qed.

End ResolverFacts.

(** ** Reconciliation keeps the units it already has *)

Module IndexFacts.
Import Index.

Lemma dropIfRemoved_keeps newSkillMap k names : forall srv,
  JsMap.has k newSkillMap = true ->
  JsMap.get k (skillMap (fold_left (dropIfRemoved newSkillMap) names srv))
  = JsMap.get k (skillMap srv).
Proof.
  induction names as [|n names IH]; intros srv Hk; simpl; [reflexivity|].
  rewrite IH by assumption. unfold dropIfRemoved.
  destruct (JsMap.has n newSkillMap) eqn:En; [reflexivity|].
  destruct (JsMap.get n (resourceHandles srv)) as [[h1 h2]|]; simpl;
    apply JsMapFacts.get_delete_other; intros ->; congruence.
Qed.

Lemma addIfNew_keeps k old entries : forall srv,
  JsMap.get k (skillMap srv) = Some old ->
  JsMap.get k (skillMap (fold_left addIfNew entries srv)) = Some old.
Proof.
  induction entries as [|[n v] entries IH]; intros srv Hk; simpl; [assumption|].
  apply IH. unfold addIfNew.
  destruct (JsMap.has n (skillMap srv)) eqn:En; [assumption|]. simpl.
  rewrite JsMapFacts.get_set_other; [assumption|].
  intros ->. unfold JsMap.has in En. now rewrite Hk in En.
Qed.

Lemma reconcile_keeps_existing_unit newSkillMap srv k old :
  JsMap.get k (skillMap srv) = Some old ->
  JsMap.has k newSkillMap = true ->
  JsMap.get k (skillMap (reconcile newSkillMap srv)) = Some old.
Proof.
  intros Hold Hnew. unfold reconcile. simpl.
  apply addIfNew_keeps. now rewrite dropIfRemoved_keeps.
Qed.

(** C5, as the code has it: when the callback of the structural watcher
    runs and its scan returns, a name present in the catalog and in the
    new scan keeps the unit the catalog already holds; the newly scanned
    unit of that name is not stored. *)
Theorem onChanged_keeps_existing_unit pathlib fs parseYaml stackDepth skillsDir
    srv newSkillMap k old :
  fst (discoverSkills pathlib fs parseYaml stackDepth skillsDir) = Ok newSkillMap ->
  JsMap.get k (skillMap srv) = Some old ->
  JsMap.has k newSkillMap = true ->
  fst (onChanged pathlib fs parseYaml stackDepth skillsDir srv) = Ok tt /\
  JsMap.get k (skillMap (snd (onChanged pathlib fs parseYaml stackDepth skillsDir srv)))
  = Some old.
Proof.
  intros Hscan Hold Hnew. unfold onChanged. rewrite Hscan. cbn [fst snd].
  split; [reflexivity | now apply reconcile_keeps_existing_unit].
Qed.

End IndexFacts.

(** ** The subscription manager: what each operation leaves alone *)

Section ManagerFrames.
Variable pathlib : PathApi.
Variable skillsDir : string.

Lemma sameTables_refl a : sameTables a a.
Proof. repeat split. Qed.

Lemma sameTables_trans a b c : sameTables a b -> sameTables b c -> sameTables a c.
Proof.
  unfold sameTables. intros (A1 & A2 & A3 & A4 & A5 & A6) (B1 & B2 & B3 & B4 & B5 & B6).
  repeat split; congruence.
Qed.

Lemma sameTimers_refl a : sameTimers a a.
Proof. repeat split. Qed.

Lemma sameTimers_trans a b c : sameTimers a b -> sameTimers b c -> sameTimers a c.
Proof.
  unfold sameTimers. intros (A1 & A2 & A3 & A4) (B1 & B2 & B3 & B4).
  repeat split; congruence.
Qed.

Lemma debounce_tables uri st : sameTables st (debounce uri st).
Proof.
  unfold debounce. destruct (JsMap.get uri (debounceTimers st)); repeat split.
Qed.

Lemma debounce_notified uri st : notified (debounce uri st) = notified st.
Proof. unfold debounce. now destruct (JsMap.get uri (debounceTimers st)). Qed.

Lemma fold_debounce_tables uris : forall st,
  sameTables st (fold_left (fun st'' uri => debounce uri st'') uris st) /\
  notified (fold_left (fun st'' uri => debounce uri st'') uris st) = notified st.
Proof.
  induction uris as [|u uris IH]; intros st; simpl; [split; [apply sameTables_refl | reflexivity]|].
  destruct (IH (debounce u st)) as [I1 I2]. split.
  - eapply sameTables_trans; [apply debounce_tables | exact I1].
  - now rewrite I2, debounce_notified.
Qed.

Lemma onFileChange_tables changedPath st :
  sameTables st (onFileChange changedPath st) /\
  notified (onFileChange changedPath st) = notified st.
Proof.
  unfold onFileChange. generalize (filePathToUris st) as entries.
  intros entries. revert st.
  induction entries as [|[p uris] entries IH]; intros st; simpl;
    [split; [apply sameTables_refl | reflexivity]|].
  match goal with |- context [if ?c then _ else _] => destruct c end.
  - apply IH.
  - destruct (fold_debounce_tables uris st) as [F1 F2].
    destruct (IH (fold_left (fun st'' uri => debounce uri st'') uris st)) as [I1 I2].
    split; [eapply sameTables_trans; eauto | congruence].
Qed.

Lemma timerFires_tables t st : sameTables st (timerFires t st).
Proof.
  unfold timerFires.
  destruct (find (fun tu => Nat.eqb (fst tu) t) (pendingTimers st)) as [[t' uri]|];
    [|apply sameTables_refl].
  match goal with |- context [if ?c then _ else _] => destruct c end; repeat split.
Qed.

Lemma ensureWatcher_timers w p st : sameTimers st (snd (ensureWatcher w p st)).
Proof.
  unfold ensureWatcher. destruct (JsMap.has p (watchers st)); [apply sameTimers_refl|].
  repeat split.
Qed.

Lemma ensureWatcher_subscribed w p st :
  subscribedUris (snd (ensureWatcher w p st)) = subscribedUris st /\
  uriToFilePaths (snd (ensureWatcher w p st)) = uriToFilePaths st /\
  filePathToUris (snd (ensureWatcher w p st)) = filePathToUris st.
Proof.
  unfold ensureWatcher. destruct (JsMap.has p (watchers st)); repeat split.
Qed.

Lemma subscribePaths_frame w uri paths : forall st,
  sameTimers st (snd (subscribePaths w uri paths st)) /\
  subscribedUris (snd (subscribePaths w uri paths st)) = subscribedUris st /\
  uriToFilePaths (snd (subscribePaths w uri paths st)) = uriToFilePaths st.
Proof.
  induction paths as [|p paths IH]; intros st; simpl;
    [split; [apply sameTimers_refl | split; reflexivity]|].
  match goal with |- context [ensureWatcher w p ?s] =>
    pose proof (ensureWatcher_timers w p s) as E1;
    pose proof (ensureWatcher_subscribed w p s) as (E2 & E3 & _);
    destruct (ensureWatcher w p s) as [[u|e] st2] end; simpl in *.
  - destruct (IH st2) as (I1 & I2 & I3). split; [|split].
    + eapply sameTimers_trans; [exact E1 | exact I1].
    + now rewrite I2, E2.
    + now rewrite I3, E3.
  - auto.
Qed.

Lemma removeWatcher_frame p st :
  sameTimers st (removeWatcher p st) /\
  subscribedUris (removeWatcher p st) = subscribedUris st /\
  uriToFilePaths (removeWatcher p st) = uriToFilePaths st /\
  filePathToUris (removeWatcher p st) = filePathToUris st.
Proof.
  unfold removeWatcher. destruct (JsMap.get p (watchers st)); repeat split.
Qed.

Lemma releasePath_frame uri p st :
  sameTimers st (releasePath uri p st) /\
  subscribedUris (releasePath uri p st) = subscribedUris st /\
  uriToFilePaths (releasePath uri p st) = uriToFilePaths st.
Proof.
  unfold releasePath. destruct (JsMap.get p (filePathToUris st)) as [uris|];
    [|repeat split].
  destruct (JsSet.delete uri uris); [|repeat split].
  match goal with |- context [removeWatcher p ?s] =>
    destruct (removeWatcher_frame p s) as (R1 & R2 & R3 & _) end.
  split; [|split]; [|now rewrite R2 | now rewrite R3].
  eapply sameTimers_trans; [|exact R1]. repeat split.
Qed.

Lemma fold_releasePath_frame uri paths : forall st,
  sameTimers st (fold_left (fun st' p => releasePath uri p st') paths st) /\
  subscribedUris (fold_left (fun st' p => releasePath uri p st') paths st)
  = subscribedUris st /\
  uriToFilePaths (fold_left (fun st' p => releasePath uri p st') paths st)
  = uriToFilePaths st.
Proof.
  induction paths as [|p paths IH]; intros st; simpl;
    [split; [apply sameTimers_refl | split; reflexivity]|].
  destruct (releasePath_frame uri p st) as (R1 & R2 & R3).
  destruct (IH (releasePath uri p st)) as (I1 & I2 & I3).
  split; [|split]; [eapply sameTimers_trans; eauto | congruence | congruence].
Qed.

(** [unsubscribe] notifies nobody and takes exactly [uri] out of the
    subscribed set. *)
Lemma unsubscribe_frame uri st :
  notified (unsubscribe uri st) = notified st /\
  subscribedUris (unsubscribe uri st) = JsSet.delete uri (subscribedUris st).
Proof.
  unfold unsubscribe. destruct (JsSet.has uri (subscribedUris st)) eqn:Eh; simpl.
  - set (st1 := with_subscribedUris (JsSet.delete uri) st).
    set (st2 := match JsMap.get uri (debounceTimers st) with
                | Some timer => deleteDebounceTimer uri (clearTimeout timer st1)
                | None => st1
                end).
    assert (H2 : notified st2 = notified st /\
                 subscribedUris st2 = JsSet.delete uri (subscribedUris st)).
    { unfold st2. destruct (JsMap.get uri (debounceTimers st)); split; reflexivity. }
    destruct H2 as [N2 S2].
    destruct (JsMap.get uri (uriToFilePaths st2)) as [paths|]; [|now split].
    destruct (fold_releasePath_frame uri paths st2) as ((_ & _ & _ & F1) & F2 & _).
    simpl. split; congruence.
  - split; [reflexivity|]. apply JsSetFacts.has_false in Eh.
    unfold JsSet.delete. symmetry. apply forallb_filter_id.
    apply forallb_forall. intros x Hx. apply negb_true_iff, String.eqb_neq.
    intros ->. contradiction.
Qed.

Lemma fold_unsubscribe_frame uris : forall st,
  notified (fold_left (fun st' uri => unsubscribe uri st') uris st) = notified st /\
  forall x, In x (subscribedUris (fold_left (fun st' uri => unsubscribe uri st') uris st))
            -> In x (subscribedUris st).
Proof.
  induction uris as [|u uris IH]; intros st; simpl; [now split|].
  destruct (unsubscribe_frame u st) as [U1 U2].
  destruct (IH (unsubscribe u st)) as [I1 I2]. split; [congruence|].
  intros x Hx. apply I2 in Hx. rewrite U2 in Hx. now apply JsSetFacts.In_delete in Hx.
Qed.

Lemma subscribe_frame w uri st :
  notified (snd (subscribe pathlib skillsDir w uri st)) = notified st /\
  forall x, In x (subscribedUris (snd (subscribe pathlib skillsDir w uri st)))
            <-> x = uri \/ In x (subscribedUris st).
Proof.
  unfold subscribe. destruct (JsSet.has uri (subscribedUris st)) eqn:Eh; cbn [snd].
  - split; [reflexivity|]. apply JsSetFacts.has_In in Eh.
    intros x. split; [auto | intros [->|H]; assumption].
  - generalize (resolveUriToFilePaths pathlib (disk w) uri (skillMap w) skillsDir).
    intros ps.
    destruct (subscribePaths_frame w uri ps
                (with_uriToFilePaths (JsMap.set uri (JsSet.ofList ps))
                                     (with_subscribedUris (JsSet.add uri) st)))
      as ((_ & _ & _ & F1) & F2 & _).
    destruct ps as [|p paths].
    + cbn [snd]. split; [reflexivity|]. intros x. apply JsSetFacts.In_add.
    + split; [symmetry; exact F1|]. intros x. rewrite F2. apply JsSetFacts.In_add.
Qed.

End ManagerFrames.

(** ** The subscription manager: timers follow subscriptions *)

Module MapKeys.
Import JsMap.

Lemma keys_set {V} k (v : V) m :
  keys (set k v m) = if has k m then keys m else keys m ++ [k].
Proof.
  unfold has, keys. induction m as [|[k' v'] m IH]; simpl; [reflexivity|].
  destruct (String.eqb k k') eqn:E; simpl.
  - apply String.eqb_eq in E. now subst.
  - rewrite IH. now destruct (get k m).
Qed.

Lemma NoDup_set {V} k (v : V) m : NoDup (keys m) -> NoDup (keys (set k v m)).
Proof.
  intros H. rewrite keys_set. destruct (has k m) eqn:E; [assumption|].
  apply NoDup_app; [assumption | repeat constructor; simpl; tauto |].
  intros x Hx [<-|[]]. apply JsMapFacts.has_In_keys in Hx. congruence.
Qed.

Lemma keys_delete {V} k (m : t V) :
  keys (delete k m) = filter (fun k' => negb (String.eqb k k')) (keys m).
Proof.
  unfold delete, keys. induction m as [|[k' v'] m IH]; simpl; [reflexivity|].
  destruct (String.eqb k k'); simpl; now rewrite IH.
Qed.

Lemma NoDup_delete {V} k (m : t V) : NoDup (keys m) -> NoDup (keys (delete k m)).
Proof. intros H. rewrite keys_delete. now apply NoDup_filter. Qed.

Lemma has_set {V} k k' (v : V) m :
  has k' (set k v m) = String.eqb k k' || has k' m.
Proof.
  unfold has. destruct (String.eqb k k') eqn:E.
  - apply String.eqb_eq in E. subst. now rewrite JsMapFacts.get_set_same.
  - apply String.eqb_neq in E. now rewrite JsMapFacts.get_set_other.
Qed.

Lemma has_delete {V} k k' (m : t V) :
  has k' (delete k m) = negb (String.eqb k k') && has k' m.
Proof.
  unfold has. destruct (String.eqb k k') eqn:E.
  - apply String.eqb_eq in E. subst. now rewrite JsMapFacts.get_delete_same.
  - apply String.eqb_neq in E. now rewrite JsMapFacts.get_delete_other.
Qed.

Lemma get_In_values {V} k (v : V) m : get k m = Some v -> In (k, v) m.
Proof. apply JsMapFacts.get_In. Qed.

End MapKeys.

Section TimerInvariant.
Variable pathlib : PathApi.
Variable skillsDir : string.

Lemma TimersOk_init : TimersOk createSubscriptionManager.
Proof. split; simpl; try discriminate; try tauto. constructor. Qed.

Lemma debounce_ok u st : TimersOk st -> In u (subscribedUris st) -> TimersOk (debounce u st).
Proof.
  intros [T1 T4 I3 I4 K] Hu. unfold debounce.
  assert (G : forall st1,
             subscribedUris st1 = subscribedUris st ->
             uriToFilePaths st1 = uriToFilePaths st ->
             filePathToUris st1 = filePathToUris st ->
             debounceTimers st1 = debounceTimers st ->
             (forall t' u', In (t', u') (pendingTimers st1) ->
                            In (t', u') (pendingTimers st) /\ u' <> u) ->
             TimersOk (setDebounceTimer u st1)).
  { intros st1 E1 E2 E3 E4 Hp. split; simpl; rewrite ?E1, ?E2, ?E3, ?E4; auto.
    - intros t' u' Hin. apply in_app_or in Hin. destruct Hin as [Hin|[[= <- <-]|[]]].
      + destruct (Hp _ _ Hin) as [Hold Hne].
        rewrite JsMapFacts.get_set_other by congruence. now apply T1.
      + apply JsMapFacts.get_set_same.
    - intros u' t' Hg. destruct (string_dec u u') as [<-|Hne]; [assumption|].
      rewrite JsMapFacts.get_set_other in Hg by assumption. eapply T4; eauto. }
  destruct (JsMap.get u (debounceTimers st)) as [existing|] eqn:Eg.
  - apply G; try reflexivity. simpl. intros t' u' Hin.
    apply filter_In in Hin. destruct Hin as [Hin Hne]. split; [assumption|].
    intros ->. apply T1 in Hin. rewrite Eg in Hin. injection Hin as ->.
    simpl in Hne. now rewrite Nat.eqb_refl in Hne.
  - apply G; try reflexivity. intros t' u' Hin. split; [assumption|].
    intros ->. apply T1 in Hin. congruence.
Qed.

Lemma fold_debounce_ok uris : forall st,
  TimersOk st -> (forall u, In u uris -> In u (subscribedUris st)) ->
  TimersOk (fold_left (fun st'' uri => debounce uri st'') uris st).
Proof.
  induction uris as [|u uris IH]; intros st Hok Hs; simpl; [assumption|].
  apply IH.
  - apply debounce_ok; [assumption | apply Hs; now left].
  - intros u' Hu'. destruct (debounce_tables u st) as (E & _). rewrite <- E.
    apply Hs. now right.
Qed.

Lemma onFileChange_ok changedPath st : TimersOk st -> TimersOk (onFileChange changedPath st).
Proof.
  intros Hok. unfold onFileChange.
  assert (G : forall entries st',
             TimersOk st' -> subscribedUris st' = subscribedUris st ->
             (forall p us, In (p, us) entries -> In (p, us) (filePathToUris st)) ->
             TimersOk
               (fold_left
                  (fun st0 (entry : string * JsSet.t) =>
                     let '(watchedPath, uris) := entry in
                     if negb (String.eqb (Js.slashes changedPath) (Js.slashes watchedPath)
                              || Js.startsWith (Js.slashes changedPath)
                                               (Js.slashes watchedPath +++ "/"))
                     then st0
                     else fold_left (fun st'' uri => debounce uri st'') uris st0)
                  entries st')).
  { induction entries as [|[p us] entries IH]; intros st' Hok' Es Hsub; simpl;
      [assumption|].
    match goal with |- context [if ?c then _ else _] => destruct c end.
    - apply IH; auto. intros; apply Hsub; now right.
    - apply IH.
      + apply fold_debounce_ok; [assumption|]. intros u Hu. rewrite Es.
        eapply (dependent_subscribed st Hok); [|exact Hu].
        apply JsMapFacts.In_get; [apply (paths_unique st Hok) | apply Hsub; now left].
      + destruct (fold_debounce_tables us st') as ((E & _) & _). now rewrite <- E.
      + intros; apply Hsub; now right. }
  apply G; auto.
Qed.

Lemma find_pending t st t' u :
  find (fun tu => Nat.eqb (fst tu) t) (pendingTimers st) = Some (t', u) ->
  t' = t /\ In (t, u) (pendingTimers st).
Proof.
  intros H. apply find_some in H. destruct H as [Hin He]. simpl in He.
  apply Nat.eqb_eq in He. now subst.
Qed.

Lemma timerFires_ok t st : TimersOk st -> TimersOk (timerFires t st).
Proof.
  intros [T1 T4 I3 I4 K]. unfold timerFires.
  destruct (find (fun tu => Nat.eqb (fst tu) t) (pendingTimers st)) as [[t' u]|] eqn:Ef;
    [|now split].
  destruct (find_pending _ _ _ _ Ef) as [-> Hin].
  assert (G : TimersOk (deleteDebounceTimer u (clearTimeout t st))).
  { split; simpl; auto.
    - intros t' u' H. apply filter_In in H. destruct H as [H Hne]. simpl in Hne.
      assert (u' <> u).
      { intros ->. apply T1 in H, Hin. rewrite H in Hin. injection Hin as ->.
        now rewrite Nat.eqb_refl in Hne. }
      rewrite JsMapFacts.get_delete_other by congruence. now apply T1.
    - intros u' t' Hg. destruct (string_dec u u') as [<-|Hne].
      + now rewrite JsMapFacts.get_delete_same in Hg.
      + rewrite JsMapFacts.get_delete_other in Hg by assumption. eapply T4; eauto. }
  match goal with |- context [if ?c then _ else _] => destruct c end; [|exact G].
  destruct G as [G1 G2 G3 G4 G5]. split; auto.
Qed.

Lemma close_ok st : TimersOk st -> TimersOk (close st).
Proof.
  intros [T1 T4 I3 I4 K]. split; simpl; try discriminate; [|constructor].
  intros t u H. apply filter_In in H. destruct H as [H Hn]. exfalso.
  apply negb_true_iff in Hn. cbn [fst] in Hn.
  apply T1 in H. apply JsMapFacts.get_In in H.
  assert (E : existsb (fun kv : string * Timeout => Nat.eqb (snd kv) t)
                      (debounceTimers st) = true).
  { apply existsb_exists. exists (u, t). split; [assumption | apply Nat.eqb_refl]. }
  exact (eq_true_false_abs _ E Hn).
Qed.

(** The invariant reads five fields only. *)
Lemma TimersOk_same a b :
  subscribedUris a = subscribedUris b -> uriToFilePaths a = uriToFilePaths b ->
  filePathToUris a = filePathToUris b -> debounceTimers a = debounceTimers b ->
  pendingTimers a = pendingTimers b -> TimersOk a -> TimersOk b.
Proof.
  intros E1 E2 E3 E4 E5 [T1 T4 I3 I4 K].
  split; rewrite <- ?E1, <- ?E2, <- ?E3, <- ?E4, <- ?E5; assumption.
Qed.

Lemma subscribePaths_ok w uri paths : forall st,
  TimersOk st -> In uri (subscribedUris st) ->
  (exists ps, JsMap.get uri (uriToFilePaths st) = Some ps /\
              forall p, In p paths -> In p ps) ->
  TimersOk (snd (subscribePaths w uri paths st)).
Proof.
  induction paths as [|p paths IH]; intros st Hok Hs (ps & Hps & Hin);
    [assumption|].
  cbn [subscribePaths].
  set (uris := match JsMap.get p (filePathToUris st) with
               | Some uris => uris
               | None => []
               end).
  set (st1 := with_filePathToUris (JsMap.set p (JsSet.add uri uris)) st).
  assert (H1 : TimersOk st1).
  { destruct Hok as [T1 T4 I3 I4 K]. split; simpl; auto.
    - intros q us u Hg Hu. destruct (string_dec p q) as [<-|Hne].
      + rewrite JsMapFacts.get_set_same in Hg. injection Hg as <-.
        apply JsSetFacts.In_add in Hu. destruct Hu as [->|Hu]; [assumption|].
        unfold uris in Hu. destruct (JsMap.get p (filePathToUris st)) eqn:E;
          [eapply I3; eauto | destruct Hu].
      + rewrite JsMapFacts.get_set_other in Hg by assumption. eapply I3; eauto.
    - intros q us u Hg Hu. destruct (string_dec p q) as [<-|Hne].
      + rewrite JsMapFacts.get_set_same in Hg. injection Hg as <-.
        apply JsSetFacts.In_add in Hu. destruct Hu as [->|Hu].
        * exists ps. split; [assumption | apply Hin; now left].
        * unfold uris in Hu. destruct (JsMap.get p (filePathToUris st)) eqn:E;
            [eapply I4; eauto | destruct Hu].
      + rewrite JsMapFacts.get_set_other in Hg by assumption. eapply I4; eauto.
    - now apply MapKeys.NoDup_set. }
  pose proof (ensureWatcher_timers w p st1) as (E4 & E5 & _).
  pose proof (ensureWatcher_subscribed w p st1) as (E1 & E2 & E3).
  assert (H2 : TimersOk (snd (ensureWatcher w p st1))).
  { eapply TimersOk_same; [| | | | |exact H1];
      first [assumption | symmetry; assumption]. }
  destruct (ensureWatcher w p st1) as [[u|e] st2]; cbn [snd] in *; [|exact H2].
  apply IH; [exact H2 | now rewrite E1 |].
  exists ps. rewrite E2. split; [exact Hps | intros q Hq; apply Hin; now right].
Qed.

Lemma subscribe_ok w uri st :
  TimersOk st -> TimersOk (snd (subscribe pathlib skillsDir w uri st)).
Proof.
  intros Hok. unfold subscribe.
  destruct (JsSet.has uri (subscribedUris st)) eqn:Eh; [assumption|].
  apply JsSetFacts.has_false in Eh.
  assert (H1 : TimersOk (with_subscribedUris (JsSet.add uri) st)).
  { destruct Hok as [T1 T4 I3 I4 K]. split; simpl; auto.
    - intros u t Hg. apply JsSetFacts.In_add. right. eapply T4; eauto.
    - intros p us u Hg Hu. apply JsSetFacts.In_add. right. eapply I3; eauto. }
  generalize (resolveUriToFilePaths pathlib (disk w) uri (skillMap w) skillsDir).
  intros paths. destruct paths as [|p0 paths0]; [exact H1|].
  set (paths := p0 :: paths0).
  apply subscribePaths_ok.
  - destruct H1 as [T1 T4 I3 I4 K]. split; simpl in *; auto.
    intros p us u Hg Hu. destruct (string_dec uri u) as [<-|Hne].
    + exfalso. apply Eh. eapply (dependent_subscribed st Hok); eauto.
    + rewrite JsMapFacts.get_set_other by assumption. eapply I4; eauto.
  - simpl. apply JsSetFacts.In_add. now left.
  - exists (JsSet.ofList paths). simpl. rewrite JsMapFacts.get_set_same.
    split; [reflexivity | intros q Hq; now apply JsSetFacts.In_ofList].
Qed.

(** What [releasePath] does to the dependents of each path. *)
Lemma releasePath_get uri p st q :
  JsMap.get q (filePathToUris (releasePath uri p st)) =
  if String.eqb p q then
    match JsMap.get p (filePathToUris st) with
    | Some us => match JsSet.delete uri us with [] => None | us' => Some us' end
    | None => None
    end
  else JsMap.get q (filePathToUris st).
Proof.
  unfold releasePath. destruct (String.eqb p q) eqn:E.
  - apply String.eqb_eq in E. subst q.
    destruct (JsMap.get p (filePathToUris st)) as [us|] eqn:Eg; [|exact Eg].
    destruct (JsSet.delete uri us) as [|x us'] eqn:Ed.
    + match goal with |- context [removeWatcher p ?s] =>
        destruct (removeWatcher_frame p s) as (_ & _ & _ & R) end.
      rewrite R. simpl. apply JsMapFacts.get_delete_same.
    + simpl. apply JsMapFacts.get_set_same.
  - apply String.eqb_neq in E.
    destruct (JsMap.get p (filePathToUris st)) as [us|] eqn:Eg; [|reflexivity].
    destruct (JsSet.delete uri us) as [|x us'] eqn:Ed.
    + match goal with |- context [removeWatcher p ?s] =>
        destruct (removeWatcher_frame p s) as (_ & _ & _ & R) end.
      rewrite R. simpl. rewrite JsMapFacts.get_delete_other by assumption.
      now apply JsMapFacts.get_set_other.
    + simpl. now apply JsMapFacts.get_set_other.
Qed.

Lemma releasePath_unique uri p st :
  NoDup (JsMap.keys (filePathToUris st)) ->
  NoDup (JsMap.keys (filePathToUris (releasePath uri p st))).
Proof.
  intros K. unfold releasePath.
  destruct (JsMap.get p (filePathToUris st)) as [us|]; [|assumption].
  destruct (JsSet.delete uri us) as [|x us'].
  - match goal with |- context [removeWatcher p ?s] =>
      destruct (removeWatcher_frame p s) as (_ & _ & _ & R) end.
    rewrite R. simpl. now apply MapKeys.NoDup_delete, MapKeys.NoDup_set.
  - simpl. now apply MapKeys.NoDup_set.
Qed.

(** After the loop of [unsubscribe], the dependents of every path are
    among those it had, and the paths visited no longer have [uri]. *)
Lemma fold_releasePath_get uri paths : forall st q us',
  JsMap.get q (filePathToUris (fold_left (fun st' p => releasePath uri p st') paths st))
  = Some us' ->
  exists us, JsMap.get q (filePathToUris st) = Some us /\
             (forall x, In x us' -> In x us) /\
             (In q paths -> ~ In uri us').
Proof.
  induction paths as [|p paths IH]; intros st q us' H; simpl in H.
  - exists us'. split; [assumption|]. split; [auto | intros []].
  - destruct (IH _ _ _ H) as (us1 & H1 & Hsub & Hno).
    rewrite releasePath_get in H1.
    destruct (String.eqb p q) eqn:E.
    + apply String.eqb_eq in E. subst q.
      destruct (JsMap.get p (filePathToUris st)) as [us|]; [|discriminate].
      exists us. split; [reflexivity|].
      assert (Hd : us1 = JsSet.delete uri us).
      { destruct (JsSet.delete uri us); [discriminate | congruence]. }
      split.
      * intros x Hx. apply Hsub in Hx. rewrite Hd in Hx.
        now apply JsSetFacts.In_delete in Hx.
      * intros _ Hu. apply Hsub in Hu. rewrite Hd in Hu.
        apply JsSetFacts.In_delete in Hu. now destruct Hu.
    + exists us1. split; [assumption|]. split; [assumption|].
      intros [->|Hq]; [|auto]. now rewrite String.eqb_refl in E.
Qed.

Lemma fold_releasePath_unique uri paths : forall st,
  NoDup (JsMap.keys (filePathToUris st)) ->
  NoDup (JsMap.keys
           (filePathToUris (fold_left (fun st' p => releasePath uri p st') paths st))).
Proof.
  induction paths as [|p paths IH]; intros st K; simpl; [assumption|].
  now apply IH, releasePath_unique.
Qed.

Lemma unsubscribe_ok uri st : TimersOk st -> TimersOk (unsubscribe uri st).
Proof.
  intros Hok. unfold unsubscribe.
  destruct (JsSet.has uri (subscribedUris st)) eqn:Eh; [|assumption].
  cbn [negb].
  set (st1 := with_subscribedUris (JsSet.delete uri) st).
  set (st2 := match JsMap.get uri (debounceTimers st1) with
              | Some timer => deleteDebounceTimer uri (clearTimeout timer st1)
              | None => st1
              end).
  destruct Hok as [T1 T4 I3 I4 K].
  assert (S2 : subscribedUris st2 = JsSet.delete uri (subscribedUris st) /\
               uriToFilePaths st2 = uriToFilePaths st /\
               filePathToUris st2 = filePathToUris st).
  { unfold st2. destruct (JsMap.get uri (debounceTimers st1)); repeat split. }
  destruct S2 as (S2a & S2b & S2c).
  assert (P2 : forall t u, In (t, u) (pendingTimers st2) ->
                           JsMap.get u (debounceTimers st2) = Some t).
  { unfold st2. simpl. destruct (JsMap.get uri (debounceTimers st)) as [timer|] eqn:Eg;
      simpl; [|exact T1].
    intros t u H. apply filter_In in H. destruct H as [H Hne]. simpl in Hne.
    assert (u <> uri).
    { intros ->. apply T1 in H. rewrite Eg in H. injection H as ->.
      now rewrite Nat.eqb_refl in Hne. }
    rewrite JsMapFacts.get_delete_other by congruence. now apply T1. }
  assert (R2 : forall u t, JsMap.get u (debounceTimers st2) = Some t ->
                           In u (JsSet.delete uri (subscribedUris st))).
  { unfold st2. simpl. intros u t Hg. apply JsSetFacts.In_delete.
    destruct (JsMap.get uri (debounceTimers st)) as [timer|] eqn:Eg; simpl in Hg.
    - destruct (string_dec uri u) as [<-|Hne].
      + now rewrite JsMapFacts.get_delete_same in Hg.
      + rewrite JsMapFacts.get_delete_other in Hg by assumption.
        split; [congruence | eapply T4; eauto].
    - split; [intros ->; congruence | eapply T4; eauto]. }
  destruct (JsMap.get uri (uriToFilePaths st2)) as [paths|] eqn:Ep.
  - destruct (fold_releasePath_frame uri paths st2) as ((F1 & F2 & _) & F3 & F4).
    split; simpl; rewrite <- ?F1, <- ?F2, ?F3, ?S2a; auto.
    + intros p us u Hg Hu.
      destruct (fold_releasePath_get _ _ _ _ _ Hg) as (us0 & H0 & Hsub & Hno).
      rewrite S2c in H0. apply JsSetFacts.In_delete. split; [|eapply I3; eauto].
      intros ->. destruct (I4 _ _ _ H0 (Hsub _ Hu)) as (ps & Hps & Hin).
      rewrite <- S2b, Ep in Hps. injection Hps as <-. now apply Hno.
    + intros p us u Hg Hu.
      destruct (fold_releasePath_get _ _ _ _ _ Hg) as (us0 & H0 & Hsub & Hno).
      rewrite S2c in H0. destruct (I4 _ _ _ H0 (Hsub _ Hu)) as (ps & Hps & Hin).
      assert (u <> uri).
      { intros ->. rewrite <- S2b, Ep in Hps. injection Hps as <-. now apply Hno. }
      exists ps. rewrite F4, S2b. rewrite JsMapFacts.get_delete_other by congruence.
      now split.
    + apply fold_releasePath_unique. now rewrite S2c.
  - split; rewrite ?S2a, ?S2b, ?S2c; auto.
    + intros p us u Hg Hu. apply JsSetFacts.In_delete. split; [|eapply I3; eauto].
      intros ->. destruct (I4 _ _ _ Hg Hu) as (ps & Hps & _). congruence.
Qed.

Lemma unsubscribeByPrefix_ok prefix st : TimersOk st -> TimersOk (unsubscribeByPrefix prefix st).
Proof.
  unfold unsubscribeByPrefix.
  generalize (filter (fun uri => Js.startsWith uri prefix) (subscribedUris st)).
  intros uris. revert st. induction uris as [|u uris IH]; intros st Hok; simpl;
    [assumption|].
  now apply IH, unsubscribe_ok.
Qed.

(** Every operation keeps the invariant, whether it throws or not. *)
Lemma step_ok op st :
  TimersOk st -> TimersOk (snd (step pathlib skillsDir op st)).
Proof.
  intros Hok. destruct op; simpl.
  - now apply subscribe_ok.
  - now apply unsubscribe_ok.
  - now apply unsubscribeByPrefix_ok.
  - now apply close_ok.
  - now apply onFileChange_ok.
  - now apply timerFires_ok.
Qed.

Lemma run_ok ops : forall st,
  TimersOk st -> TimersOk (run pathlib skillsDir ops st).
Proof.
  unfold run. induction ops as [|op ops IH]; intros st Hok; simpl; [assumption|].
  now apply IH, step_ok.
Qed.

End TimerInvariant.

(** ** Unsubscribing during the debounce window *)

Section DebounceWindow.
Variable pathlib : PathApi.
Variable skillsDir : string.

(** A notification for [uri] is delivered only by the firing of a
    timeout of [uri], and only while [uri] is subscribed. *)
Lemma step_notifications uri op st :
  firesFor uri op st = false \/ JsSet.has uri (subscribedUris st) = false ->
  notifications uri (snd (step pathlib skillsDir op st)) = notifications uri st.
Proof.
  unfold notifications. intros H. destruct op as [w u|u|prefix| |changedPath|t]; simpl.
  - now destruct (subscribe_frame pathlib skillsDir w u st) as [-> _].
  - now destruct (unsubscribe_frame u st) as [-> _].
  - unfold unsubscribeByPrefix.
    now destruct (fold_unsubscribe_frame
                    (filter (fun uri0 => Js.startsWith uri0 prefix) (subscribedUris st)) st)
      as [-> _].
  - reflexivity.
  - now destruct (onFileChange_tables changedPath st) as [_ ->].
  - unfold timerFires. simpl in H.
    destruct (find (fun tu => Nat.eqb (fst tu) t) (pendingTimers st)) as [[t' u]|];
      [|reflexivity].
    simpl. destruct (JsSet.has u (subscribedUris st)) eqn:Eu; [|reflexivity].
    simpl. rewrite count_occ_app. simpl.
    destruct (string_dec u uri) as [->|Hne]; [|lia].
    rewrite String.eqb_refl in H. destruct H; congruence.
Qed.

Lemma step_stays_unsubscribed uri op st :
  subscribes uri op = false ->
  JsSet.has uri (subscribedUris st) = false ->
  JsSet.has uri (subscribedUris (snd (step pathlib skillsDir op st))) = false.
Proof.
  intros Hop Hs. apply JsSetFacts.has_false. apply JsSetFacts.has_false in Hs.
  intros Hin. apply Hs. clear Hs.
  destruct op as [w u|u|prefix| |changedPath|t]; simpl in *.
  - destruct (subscribe_frame pathlib skillsDir w u st) as [_ F].
    apply F in Hin. destruct Hin as [->|Hin]; [|assumption].
    now rewrite String.eqb_refl in Hop.
  - destruct (unsubscribe_frame u st) as [_ F]. rewrite F in Hin.
    now apply JsSetFacts.In_delete in Hin.
  - unfold unsubscribeByPrefix in Hin.
    destruct (fold_unsubscribe_frame
                (filter (fun uri0 => Js.startsWith uri0 prefix) (subscribedUris st)) st)
      as [_ F]. now apply F.
  - destruct Hin.
  - destruct (onFileChange_tables changedPath st) as [(E & _) _]. now rewrite E.
  - destruct (timerFires_tables t st) as (E & _). now rewrite E.
Qed.

Lemma quiet_run uri ops : forall st,
  quietFor pathlib skillsDir uri ops st = true ->
  notifications uri (run pathlib skillsDir ops st) = notifications uri st.
Proof.
  unfold run. induction ops as [|op ops IH]; intros st H; simpl in *; [reflexivity|].
  apply andb_true_iff in H. destruct H as [H1 H2]. apply negb_true_iff in H1.
  rewrite IH by assumption. apply step_notifications. now left.
Qed.

Lemma unsubscribed_run uri ops : forall st,
  forallb (fun op => negb (subscribes uri op)) ops = true ->
  JsSet.has uri (subscribedUris st) = false ->
  notifications uri (run pathlib skillsDir ops st) = notifications uri st.
Proof.
  unfold run. induction ops as [|op ops IH]; intros st H Hs; simpl in *; [reflexivity|].
  apply andb_true_iff in H. destruct H as [H1 H2]. apply negb_true_iff in H1.
  rewrite IH; [apply step_notifications; now right | assumption |].
  now apply step_stays_unsubscribed.
Qed.

(** C3: from any state the manager can reach, if [subscribe uri] is
    followed by [unsubscribe uri] and no timeout of [uri] fires in
    between, whatever else happens there (file events included), then
    [uri] is notified neither in between nor afterwards, as long as it is
    not subscribed again: [unsubscribe] leaves no timeout of [uri]
    pending and [uri] out of the subscribed set, which the callback of a
    timeout consults. *)
Theorem unsubscribe_in_window_suppresses ops0 w uri mid after :
  let st0 := run pathlib skillsDir ops0 createSubscriptionManager in
  let st1 := snd (subscribe pathlib skillsDir w uri st0) in
  let st2 := unsubscribe uri (run pathlib skillsDir mid st1) in
  quietFor pathlib skillsDir uri mid st1 = true ->
  forallb (fun op => negb (subscribes uri op)) after = true ->
  notifications uri (run pathlib skillsDir after st2) = notifications uri st0 /\
  (forall t, ~ In (t, uri) (pendingTimers st2)) /\
  JsSet.has uri (subscribedUris st2) = false.
Proof.
  intros st0 st1 st2 Hq Ha.
  assert (Hs : JsSet.has uri (subscribedUris st2) = false).
  { apply JsSetFacts.has_false. unfold st2.
    destruct (unsubscribe_frame uri (run pathlib skillsDir mid st1)) as [_ ->].
    intros H. apply JsSetFacts.In_delete in H. now destruct H. }
  split; [|split; [|exact Hs]].
  - rewrite (unsubscribed_run uri after st2 Ha Hs). unfold st2.
    destruct (unsubscribe_frame uri (run pathlib skillsDir mid st1)) as [N _].
    unfold notifications. rewrite N.
    change (notifications uri (run pathlib skillsDir mid st1) = notifications uri st0).
    rewrite (quiet_run uri mid st1 Hq). unfold st1, notifications.
    now destruct (subscribe_frame pathlib skillsDir w uri st0) as [-> _].
  - assert (Hok : TimersOk st2).
    { unfold st2. apply unsubscribe_ok, run_ok. unfold st1.
      apply subscribe_ok. apply run_ok, TimersOk_init. }
    intros t Hin. apply JsSetFacts.has_false in Hs. apply Hs.
    eapply (recorded_subscribed st2 Hok). eapply (pending_recorded st2 Hok). exact Hin.
Qed.

End DebounceWindow.

(** ** The subscription manager: one watcher per path with dependents *)

Section WatchInvariant.
Variable pathlib : PathApi.
Variable skillsDir : string.

Lemma WatchOk_init : WatchOk createSubscriptionManager.
Proof.
  split; simpl; try discriminate; try tauto; [|constructor].
  intros id p. split; [tauto | discriminate].
Qed.

Lemma WatchOk_same a b :
  filePathToUris a = filePathToUris b -> watchers a = watchers b ->
  openWatchers a = openWatchers b -> nextWatcher a = nextWatcher b ->
  (WatchOk a -> WatchOk b) /\ (Covered a -> Covered b).
Proof.
  intros E1 E2 E3 E4. split.
  - intros [W1 W2 W3 W4 W6]. split; rewrite <- ?E1, <- ?E2, <- ?E3, <- ?E4; assumption.
  - unfold Covered. now rewrite <- E1, <- E2.
Qed.

Lemma NoDup_map_fst_filter {A B} (f : A * B -> bool) (l : list (A * B)) :
  NoDup (map fst l) -> NoDup (map fst (filter f l)).
Proof.
  induction l as [|x l IH]; simpl; [auto|]. intros H.
  inversion H as [|? ? Hn Hd]; subst. destruct (f x); simpl; [|auto].
  constructor; [|auto]. intros Hin. apply Hn.
  apply in_map_iff in Hin. destruct Hin as (y & Hy & Hin).
  apply filter_In in Hin. apply in_map_iff. exists y. tauto.
Qed.

Lemma NoDup_fst_unique {A B} (l : list (A * B)) a b b' :
  NoDup (map fst l) -> In (a, b) l -> In (a, b') l -> b = b'.
Proof.
  induction l as [|[i r] l IH]; simpl; [tauto|].
  intros H H1 H2. inversion H as [|? ? Hn Hd]; subst.
  assert (Hfst : forall c, In (i, c) l -> False).
  { intros c Hc. apply Hn. apply in_map_iff. now exists (i, c). }
  destruct H1 as [H1|H1], H2 as [H2|H2].
  - congruence.
  - injection H1 as -> ->. now apply Hfst in H2.
  - injection H2 as -> ->. now apply Hfst in H1.
  - auto.
Qed.

Lemma ensureWatcher_watch w p st :
  WatchOk st -> JsMap.has p (filePathToUris st) = true ->
  WatchOk (snd (ensureWatcher w p st)) /\
  (forall q, JsMap.has q (watchers st) = true ->
             JsMap.has q (watchers (snd (ensureWatcher w p st))) = true) /\
  (isOk (fst (ensureWatcher w p st)) = true ->
   JsMap.has p (watchers (snd (ensureWatcher w p st))) = true).
Proof.
  intros Hok Hp. pose proof Hok as [W1 W2 W3 W4 W6]. unfold ensureWatcher.
  destruct (JsMap.has p (watchers st)) eqn:Eh;
    [cbn [fst snd]; split; [exact Hok | split; [auto | intros _; exact Eh]]|].
  split; [|split]; simpl.
  - split; simpl; auto.
    + intros id q. rewrite in_app_iff. simpl. destruct (string_dec p q) as [<-|Hne].
      * rewrite JsMapFacts.get_set_same. split.
        -- intros [H|[[= <-]|[]]]; [|reflexivity].
           apply W1 in H. unfold JsMap.has in Eh. now rewrite H in Eh.
        -- intros [= <-]. auto.
      * rewrite JsMapFacts.get_set_other by assumption. rewrite <- W1.
        split; [intros [H|[[= _ ->]|[]]]; [assumption | congruence] | auto].
    + rewrite map_app. simpl. apply NoDup_app; [assumption | repeat constructor; simpl; tauto|].
      intros x Hx [Hx'|[]]. apply in_map_iff in Hx. destruct Hx as ([id q] & Heq & Hin).
      apply W3 in Hin. simpl in Heq. lia.
    + intros id q Hin. apply in_app_or in Hin.
      destruct Hin as [Hin|[[= <- <-]|[]]]; [apply W3 in Hin|]; lia.
    + intros q Hq. rewrite MapKeys.has_set in Hq.
      destruct (String.eqb p q) eqn:E; [apply String.eqb_eq in E; now subst | auto].
  - intros q Hq. rewrite MapKeys.has_set, Hq. apply orb_true_r.
  - intros _. now rewrite MapKeys.has_set, String.eqb_refl.
Qed.

Lemma removeWatcher_watch p st :
  (forall id q, In (id, q) (openWatchers st) <-> JsMap.get q (watchers st) = Some id) ->
  NoDup (map fst (openWatchers st)) ->
  (forall id q, In (id, q) (openWatchers st) -> id < nextWatcher st) ->
  let st' := removeWatcher p st in
  (forall id q, In (id, q) (openWatchers st') <-> JsMap.get q (watchers st') = Some id) /\
  NoDup (map fst (openWatchers st')) /\
  (forall id q, In (id, q) (openWatchers st') -> id < nextWatcher st') /\
  (forall q, JsMap.has q (watchers st') = negb (String.eqb p q) && JsMap.has q (watchers st)).
Proof.
  intros W1 W2 W3. unfold removeWatcher.
  destruct (JsMap.get p (watchers st)) as [watcher|] eqn:Eg; simpl.
  - split; [|split; [|split]].
    + intros id q. rewrite filter_In. simpl. destruct (string_dec p q) as [<-|Hne].
      * rewrite JsMapFacts.get_delete_same. split; [|discriminate].
        intros [Hin Hn]. apply W1 in Hin. rewrite Eg in Hin. injection Hin as ->.
        now rewrite Nat.eqb_refl in Hn.
      * rewrite JsMapFacts.get_delete_other by assumption. rewrite <- W1.
        split; [tauto|]. intros Hin. split; [assumption|].
        apply negb_true_iff, Nat.eqb_neq. intros ->.
        apply W1 in Eg. apply Hne.
        exact (NoDup_fst_unique _ _ _ _ W2 Eg Hin).
    + now apply NoDup_map_fst_filter.
    + intros id q Hin. apply filter_In in Hin. apply (W3 id q). tauto.
    + intros q. apply MapKeys.has_delete.
  - split; [assumption|]. split; [assumption|]. split; [assumption|].
    intros q. destruct (String.eqb p q) eqn:E; [|reflexivity].
    apply String.eqb_eq in E. subst q. unfold JsMap.has. now rewrite Eg.
Qed.

Lemma releasePath_watch uri p st :
  WatchOk st ->
  WatchOk (releasePath uri p st) /\ (Covered st -> Covered (releasePath uri p st)).
Proof.
  intros Hok. pose proof Hok as [W1 W2 W3 W4 W6]. unfold releasePath.
  destruct (JsMap.get p (filePathToUris st)) as [us|] eqn:Eg; [|now split].
  destruct (JsSet.delete uri us) as [|x us'] eqn:Ed.
  - set (st1 := with_filePathToUris (JsMap.delete p)
                  (with_filePathToUris (JsMap.set p []) st)).
    destruct (removeWatcher_watch p st1 W1 W2 W3) as (R1 & R2 & R3 & R4).
    destruct (removeWatcher_frame p st1) as (_ & _ & _ & R5).
    assert (Hf : forall q, JsMap.get q (filePathToUris (removeWatcher p st1))
                           = if String.eqb p q then None
                             else JsMap.get q (filePathToUris st)).
    { intros q. rewrite R5. simpl. destruct (String.eqb p q) eqn:E.
      - apply String.eqb_eq in E. subst. apply JsMapFacts.get_delete_same.
      - apply String.eqb_neq in E. rewrite JsMapFacts.get_delete_other by assumption.
        now apply JsMapFacts.get_set_other. }
    split.
    + split; auto.
      * intros q us0 Hq. rewrite Hf in Hq.
        destruct (String.eqb p q); [discriminate | eapply W4; eauto].
      * intros q Hq. rewrite R4 in Hq. apply andb_true_iff in Hq.
        destruct Hq as [Hne Hq]. unfold JsMap.has. rewrite Hf.
        apply negb_true_iff in Hne. rewrite Hne. now apply W6.
    + intros Hc q Hq. unfold JsMap.has in Hq. rewrite Hf in Hq. rewrite R4.
      destruct (String.eqb p q); [discriminate|]. now apply Hc.
  - assert (Hh : forall q, JsMap.has q (JsMap.set p (x :: us') (filePathToUris st))
                           = JsMap.has q (filePathToUris st)).
    { intros q. rewrite MapKeys.has_set. destruct (String.eqb p q) eqn:E; [|reflexivity].
      apply String.eqb_eq in E. subst. unfold JsMap.has. now rewrite Eg. }
    split.
    + split; simpl; auto.
      * intros q us0 Hq. destruct (string_dec p q) as [<-|Hne].
        -- rewrite JsMapFacts.get_set_same in Hq. injection Hq as <-. discriminate.
        -- rewrite JsMapFacts.get_set_other in Hq by assumption. eapply W4; eauto.
      * intros q Hq. rewrite Hh. now apply W6.
    + intros Hc q Hq. simpl in *. rewrite Hh in Hq. now apply Hc.
Qed.

Lemma fold_releasePath_watch uri paths : forall st,
  WatchOk st ->
  WatchOk (fold_left (fun st' p => releasePath uri p st') paths st) /\
  (Covered st -> Covered (fold_left (fun st' p => releasePath uri p st') paths st)).
Proof.
  induction paths as [|p paths IH]; intros st Hok; simpl; [now split|].
  destruct (releasePath_watch uri p st Hok) as [R1 R2].
  destruct (IH _ R1) as [I1 I2]. split; auto.
Qed.

Lemma unsubscribe_watch uri st :
  WatchOk st ->
  WatchOk (unsubscribe uri st) /\ (Covered st -> Covered (unsubscribe uri st)).
Proof.
  intros Hok. unfold unsubscribe.
  destruct (JsSet.has uri (subscribedUris st)); [|now split]. cbn [negb].
  set (st1 := with_subscribedUris (JsSet.delete uri) st).
  set (st2 := match JsMap.get uri (debounceTimers st1) with
              | Some timer => deleteDebounceTimer uri (clearTimeout timer st1)
              | None => st1
              end).
  assert (E : filePathToUris st = filePathToUris st2 /\ watchers st = watchers st2 /\
              openWatchers st = openWatchers st2 /\ nextWatcher st = nextWatcher st2).
  { unfold st2. destruct (JsMap.get uri (debounceTimers st1)); repeat split. }
  destruct E as (E1 & E2 & E3 & E4).
  destruct (WatchOk_same st st2 E1 E2 E3 E4) as [S1 S2].
  destruct (JsMap.get uri (uriToFilePaths st2)) as [paths|]; [|split; auto].
  destruct (fold_releasePath_watch uri paths st2 (S1 Hok)) as [F1 F2].
  match goal with |- WatchOk ?s /\ _ =>
    destruct (WatchOk_same (fold_left (fun st' p => releasePath uri p st') paths st2) s)
      as [G1 G2]; try reflexivity end.
  split; auto.
Qed.

Lemma unsubscribeByPrefix_watch prefix st :
  WatchOk st ->
  WatchOk (unsubscribeByPrefix prefix st) /\
  (Covered st -> Covered (unsubscribeByPrefix prefix st)).
Proof.
  unfold unsubscribeByPrefix.
  generalize (filter (fun uri => Js.startsWith uri prefix) (subscribedUris st)).
  intros uris. revert st. induction uris as [|u uris IH]; intros st Hok; simpl;
    [now split|].
  destruct (unsubscribe_watch u st Hok) as [U1 U2].
  destruct (IH _ U1) as [I1 I2]. split; auto.
Qed.

Lemma close_watch st : WatchOk st -> WatchOk (close st) /\ Covered (close st).
Proof.
  intros [W1 W2 W3 W4 W6]. split; [|intros p; simpl; discriminate].
  split; simpl; try discriminate.
  - intros id p. split; [|discriminate]. intros H. exfalso.
    apply filter_In in H. destruct H as [H Hn].
    apply negb_true_iff in Hn. cbn [fst] in Hn.
    apply W1 in H. apply JsMapFacts.get_In in H.
    assert (E : existsb (fun kv : string * FSWatcher => Nat.eqb (snd kv) id)
                        (watchers st) = true).
    { apply existsb_exists. exists (p, id). split; [assumption | apply Nat.eqb_refl]. }
    exact (eq_true_false_abs _ E Hn).
  - now apply NoDup_map_fst_filter.
  - intros id p H. apply filter_In in H. apply (W3 id p). tauto.
Qed.

Lemma subscribePaths_watch w uri paths : forall st,
  WatchOk st ->
  WatchOk (snd (subscribePaths w uri paths st)) /\
  (Covered st -> isOk (fst (subscribePaths w uri paths st)) = true ->
   Covered (snd (subscribePaths w uri paths st))).
Proof.
  induction paths as [|p paths IH]; intros st Hok; [now split|].
  cbn [subscribePaths].
  set (uris := match JsMap.get p (filePathToUris st) with
               | Some uris => uris
               | None => []
               end).
  set (st1 := with_filePathToUris (JsMap.set p (JsSet.add uri uris)) st).
  assert (H1 : WatchOk st1).
  { destruct Hok as [W1 W2 W3 W4 W6]. split; simpl; auto.
    - intros q us Hq. destruct (string_dec p q) as [<-|Hne].
      + rewrite JsMapFacts.get_set_same in Hq. injection Hq as <-.
        intros Hnil. assert (Hin : In uri (JsSet.add uri uris))
          by (apply JsSetFacts.In_add; now left).
        rewrite Hnil in Hin. destruct Hin.
      + rewrite JsMapFacts.get_set_other in Hq by assumption. eapply W4; eauto.
    - intros q Hq. rewrite MapKeys.has_set. apply W6 in Hq. rewrite Hq.
      apply orb_true_r. }
  assert (Hp : JsMap.has p (filePathToUris st1) = true).
  { simpl. now rewrite MapKeys.has_set, String.eqb_refl. }
  destruct (ensureWatcher_watch w p st1 H1 Hp) as (E1 & E2 & E3).
  pose proof (ensureWatcher_subscribed w p st1) as (_ & _ & E4).
  destruct (ensureWatcher w p st1) as [[u|e] st2]; cbn [fst snd] in *;
    [|split; [exact E1 | discriminate]].
  destruct (IH st2 E1) as [I1 I2]. split; [exact I1|].
  intros Hc Hk. apply I2; [|exact Hk].
  intros q Hq. rewrite E4 in Hq. simpl in Hq. rewrite MapKeys.has_set in Hq.
  destruct (String.eqb p q) eqn:E.
  - apply String.eqb_eq in E. subst q. now apply E3.
  - apply E2. simpl. now apply Hc.
Qed.

Lemma subscribe_watch w uri st :
  WatchOk st ->
  WatchOk (snd (subscribe pathlib skillsDir w uri st)) /\
  (Covered st -> isOk (fst (subscribe pathlib skillsDir w uri st)) = true ->
   Covered (snd (subscribe pathlib skillsDir w uri st))).
Proof.
  intros Hok. unfold subscribe.
  destruct (JsSet.has uri (subscribedUris st)); [now split|].
  generalize (resolveUriToFilePaths pathlib (disk w) uri (skillMap w) skillsDir).
  intros paths.
  set (st1 := with_subscribedUris (JsSet.add uri) st).
  destruct (WatchOk_same st st1) as [S1 S2]; try reflexivity.
  destruct paths as [|p0 paths0]; [split; auto|].
  set (st2 := with_uriToFilePaths _ st1).
  destruct (WatchOk_same st1 st2) as [S3 S4]; try reflexivity.
  destruct (subscribePaths_watch w uri (p0 :: paths0) st2 (S3 (S1 Hok))) as [P1 P2].
  split; auto.
Qed.

Lemma step_watch op st :
  WatchOk st ->
  WatchOk (snd (step pathlib skillsDir op st)) /\
  (Covered st -> isOk (fst (step pathlib skillsDir op st)) = true ->
   Covered (snd (step pathlib skillsDir op st))).
Proof.
  intros Hok. destruct op as [w u|u|prefix| |changedPath|t]; simpl.
  - now apply subscribe_watch.
  - destruct (unsubscribe_watch u st Hok); split; auto.
  - destruct (unsubscribeByPrefix_watch prefix st Hok); split; auto.
  - destruct (close_watch st Hok); split; auto.
  - destruct (onFileChange_tables changedPath st) as [(_ & _ & E1 & E2 & E3 & E4) _].
    destruct (WatchOk_same _ _ E1 E2 E3 E4). split; auto.
  - destruct (timerFires_tables t st) as (_ & _ & E1 & E2 & E3 & E4).
    destruct (WatchOk_same _ _ E1 E2 E3 E4). split; auto.
Qed.

Lemma run_watch ops : forall st,
  WatchOk st ->
  WatchOk (run pathlib skillsDir ops st) /\
  (Covered st -> runsClean pathlib skillsDir ops st = true ->
   Covered (run pathlib skillsDir ops st)).
Proof.
  unfold run. induction ops as [|op ops IH]; intros st Hok; simpl; [now split|].
  destruct (step_watch op st Hok) as [S1 S2].
  destruct (IH _ S1) as [I1 I2]. split; [exact I1|].
  intros Hc Hr. apply andb_true_iff in Hr. destruct Hr as [Hr1 Hr2]. auto.
Qed.

End WatchInvariant.

(** ** The claims on the subscription manager *)

Section ManagerClaims.
Variable pathlib : PathApi.
Variable skillsDir : string.

Lemma handlesOn_In id q p st :
  In (id, q) (handlesOn p st) <-> q = p /\ In (id, p) (openWatchers st).
Proof.
  unfold handlesOn. rewrite filter_In. simpl. rewrite String.eqb_eq.
  split; [intros [H ->]; auto | intros [-> H]; auto].
Qed.

Lemma NoDup_all_equal {A} (l : list A) :
  NoDup l -> (forall x y, In x l -> In y l -> x = y) -> length l <= 1.
Proof.
  destruct l as [|a [|b l]]; simpl; intros Hnd Heq; try lia.
  exfalso. inversion Hnd as [|? ? Hn _]; subst. apply Hn.
  rewrite (Heq a b); simpl; auto.
Qed.

Lemma NoDup_of_map_fst {A B} (l : list (A * B)) : NoDup (map fst l) -> NoDup l.
Proof.
  induction l as [|x l IH]; simpl; intros H; [constructor|].
  inversion H as [|? ? Hn Hd]; subst. constructor; [|auto].
  intros Hin. apply Hn. now apply in_map.
Qed.

Lemma subscribePaths_returns w uri paths : forall st,
  fst (subscribePaths w uri paths st) = Ok tt.
Proof.
  induction paths as [|p paths IH]; intros st; [reflexivity|].
  cbn [subscribePaths]. unfold ensureWatcher.
  match goal with |- context [if ?c then _ else _] => destruct c end; apply IH.
Qed.

Lemma subscribe_returns w uri st : fst (subscribe pathlib skillsDir w uri st) = Ok tt.
Proof.
  unfold subscribe. destruct (JsSet.has uri (subscribedUris st)); [reflexivity|].
  destruct (resolveUriToFilePaths pathlib (disk w) uri (skillMap w) skillsDir);
    [reflexivity | apply subscribePaths_returns].
Qed.

Lemma runsClean_always ops : forall st, runsClean pathlib skillsDir ops st = true.
Proof.
  induction ops as [|op ops IH]; intros st; [reflexivity|].
  cbn [runsClean]. rewrite IH, andb_true_r.
  destruct op; cbn [step fst isOk]; try reflexivity. now rewrite subscribe_returns.
Qed.

(** C4: after any sequence of operations, every path has at most one
    open watcher, however many URIs depend on it, and a path has an open
    watcher if and only if it has dependents. *)
Theorem one_watcher_per_path ops :
  let st := run pathlib skillsDir ops createSubscriptionManager in
  (forall p, length (handlesOn p st) <= 1) /\
  (forall p, handlesOn p st <> [] <-> dependents p st <> []).
Proof.
  intros st.
  destruct (run_watch pathlib skillsDir ops createSubscriptionManager WatchOk_init)
    as [Hok Hcov].
  fold st in Hok, Hcov. pose proof Hok as [W1 W2 W3 W4 W6].
  split; [|intros p; split].
  - intros p. apply NoDup_all_equal.
    + unfold handlesOn. apply NoDup_filter. now apply NoDup_of_map_fst.
    + intros [i q] [j r] Hx Hy. apply handlesOn_In in Hx, Hy.
      destruct Hx as [-> Hx], Hy as [-> Hy]. apply W1 in Hx, Hy. congruence.
  - intros Hh. destruct (handlesOn p st) as [|[id q] l] eqn:E; [congruence|].
    assert (Hin : In (id, q) (handlesOn p st)) by (rewrite E; now left).
    apply handlesOn_In in Hin. destruct Hin as [-> Hin]. apply W1 in Hin.
    assert (Hw : JsMap.has p (watchers st) = true)
      by (unfold JsMap.has; now rewrite Hin).
    apply W6 in Hw. unfold JsMap.has in Hw. unfold dependents.
    destruct (JsMap.get p (filePathToUris st)) as [us|] eqn:Eg; [|discriminate].
    eapply W4; eauto.
  - intros Hd. unfold dependents in Hd.
    destruct (JsMap.get p (filePathToUris st)) as [us|] eqn:Eg; [|congruence].
    assert (Hf : JsMap.has p (filePathToUris st) = true)
      by (unfold JsMap.has; now rewrite Eg).
    assert (Hc0 : Covered createSubscriptionManager) by (intros q Hq; discriminate).
    apply (Hcov Hc0 (runsClean_always ops _)) in Hf.
    unfold JsMap.has in Hf.
    destruct (JsMap.get p (watchers st)) as [id|] eqn:Ew; [|discriminate].
    apply W1 in Ew. intros Hnil.
    assert (Hin : In (id, p) (handlesOn p st)) by (apply handlesOn_In; auto).
    rewrite Hnil in Hin. destruct Hin.
Qed.

End ManagerClaims.

(** ** The XML of the prompt: no markup comes from the catalog *)

Module XmlFacts.

Lemma occurrences_app c a b :
  occurrences c (a +++ b) = occurrences c a + occurrences c b.
Proof.
  induction a as [|d a IH]; simpl; [reflexivity|]. rewrite IH. lia.
Qed.

Lemma length_app a b : String.length (a +++ b) = String.length a + String.length b.
Proof. induction a as [|d a IH]; simpl; [reflexivity|]. now rewrite IH. Qed.

(** What a global replacement does to the count of a character. *)
Lemma occurrences_replaceAll c d rep s :
  occurrences c (replaceAll d rep s)
  = occurrences d s * occurrences c rep
    + (if Ascii.eqb d c then 0 else occurrences c s).
Proof.
  induction s as [|e s IH]; simpl; [now destruct (Ascii.eqb d c)|].
  rewrite occurrences_app, IH.
  destruct (Ascii.eqb e d) eqn:Ed.
  - apply Ascii.eqb_eq in Ed. subst e.
    destruct (Ascii.eqb d c); simpl; lia.
  - simpl. destruct (Ascii.eqb d c) eqn:Edc.
    + apply Ascii.eqb_eq in Edc. subst c. rewrite Ed. lia.
    + destruct (Ascii.eqb e c); lia.
Qed.

Lemma length_replaceAll d rep s :
  String.length (replaceAll d rep s) + occurrences d s
  = String.length s + occurrences d s * String.length rep.
Proof.
  induction s as [|e s IH]; simpl; [reflexivity|].
  rewrite length_app. destruct (Ascii.eqb e d); simpl; lia.
Qed.

Lemma replaceAll_absent d rep s : occurrences d s = 0 -> replaceAll d rep s = s.
Proof.
  induction s as [|e s IH]; simpl; [reflexivity|].
  destruct (Ascii.eqb e d); [discriminate|]. simpl. intros H. now rewrite IH.
Qed.

Lemma occurrences_joinWith c sep parts :
  occurrences c sep = 0 ->
  occurrences c (Js.joinWith sep parts)
  = fold_right (fun p n => occurrences c p + n) 0 parts.
Proof.
  intros Hsep. induction parts as [|p [|q rest] IH].
  - reflexivity.
  - simpl. lia.
  - change (Js.joinWith sep (p :: q :: rest))
      with (p +++ sep +++ Js.joinWith sep (q :: rest)).
    rewrite !occurrences_app, IH, Hsep. simpl. lia.
Qed.

Lemma sum_app c a b :
  fold_right (fun p n => occurrences c p + n) 0 (a ++ b)
  = fold_right (fun p n => occurrences c p + n) 0 a
    + fold_right (fun p n => occurrences c p + n) 0 b.
Proof. induction a as [|p a IH]; simpl; [reflexivity|]. rewrite IH. lia. Qed.

Ltac count_chars :=
  unfold escapeXml; rewrite !occurrences_replaceAll; simpl; lia.

(** X1: the escaped text holds none of the characters [<], [>], the
    double quote and the apostrophe, and as many ampersands as the text
    had characters to escape: each of them has become one entity. *)
Theorem escapeXml_no_markup text :
  occurrences "<"%char (escapeXml text) = 0 /\
  occurrences ">"%char (escapeXml text) = 0 /\
  occurrences quoteChar (escapeXml text) = 0 /\
  occurrences aposChar (escapeXml text) = 0 /\
  occurrences "&"%char (escapeXml text) = specials text.
Proof.
  unfold specials. repeat split; count_chars.
Qed.

Lemma length_escapeXml text :
  String.length (escapeXml text)
  = String.length text
    + 4 * occurrences "&"%char text + 3 * occurrences "<"%char text
    + 3 * occurrences ">"%char text + 5 * occurrences quoteChar text
    + 5 * occurrences aposChar text.
Proof.
  unfold escapeXml.
  set (t1 := replaceAll "&"%char "&amp;" text).
  set (t2 := replaceAll "<"%char "&lt;" t1).
  set (t3 := replaceAll ">"%char "&gt;" t2).
  set (t4 := replaceAll quoteChar "&quot;" t3).
  pose proof (length_replaceAll "&"%char "&amp;" text) as H1.
  pose proof (length_replaceAll "<"%char "&lt;" t1) as H2.
  pose proof (length_replaceAll ">"%char "&gt;" t2) as H3.
  pose proof (length_replaceAll quoteChar "&quot;" t3) as H4.
  pose proof (length_replaceAll aposChar "&apos;" t4) as H5.
  fold t1 in H1. fold t2 in H2. fold t3 in H3. fold t4 in H4.
  subst t4 t3 t2 t1. rewrite !occurrences_replaceAll in *. simpl in *. lia.
Qed.

(** X2: the texts [escapeXml] leaves as they are are exactly those that
    hold none of the five characters it rewrites. *)
Theorem escapeXml_fixed_points text : escapeXml text = text <-> specials text = 0.
Proof.
  split.
  - intros H. pose proof (length_escapeXml text) as L. rewrite H in L.
    unfold specials. lia.
  - unfold specials. intros H. unfold escapeXml.
    rewrite (replaceAll_absent "&"%char) by lia.
    rewrite (replaceAll_absent "<"%char) by lia.
    rewrite (replaceAll_absent ">"%char) by lia.
    rewrite (replaceAll_absent quoteChar) by lia.
    rewrite (replaceAll_absent aposChar) by lia.
    reflexivity.
Qed.

Lemma skillXmlLines_tags skill :
  fold_right (fun p n => occurrences "<"%char p + n) 0 (skillXmlLines skill) = 8 /\
  fold_right (fun p n => occurrences ">"%char p + n) 0 (skillXmlLines skill) = 8.
Proof.
  destruct (escapeXml_no_markup (name skill)) as (Hn1 & Hn2 & _).
  destruct (escapeXml_no_markup (description skill)) as (Hd1 & Hd2 & _).
  unfold skillXmlLines. cbn [fold_right].
  rewrite !occurrences_app, Hn1, Hn2, Hd1, Hd2. split; reflexivity.
Qed.

Lemma flat_map_tags c (skills : list SkillMetadata) :
  (forall skill,
     fold_right (fun p n => occurrences c p + n) 0 (skillXmlLines skill) = 8) ->
  fold_right (fun p n => occurrences c p + n) 0 (flat_map skillXmlLines skills)
  = 8 * length skills.
Proof.
  intros H. induction skills as [|s skills IH]; [reflexivity|].
  cbn [flat_map length]. rewrite sum_app, H, IH. lia.
Qed.

(** X3: whatever the names and the descriptions of the catalog hold, the
    XML generated for the prompt has the angle brackets of its own tags
    and no other: two tags around the list and eight for each skill. *)
Theorem generateSkillsXML_tags (skillMap : SkillMap) :
  occurrences "<"%char (generateSkillsXML skillMap) = 2 + 8 * length skillMap /\
  occurrences ">"%char (generateSkillsXML skillMap) = 2 + 8 * length skillMap.
Proof.
  unfold generateSkillsXML.
  assert (Hlen : length (JsMap.values skillMap) = length skillMap)
    by (unfold JsMap.values; apply length_map).
  split; rewrite occurrences_joinWith by reflexivity;
    rewrite !sum_app, flat_map_tags, Hlen
      by (intros skill; apply (skillXmlLines_tags skill));
    simpl; lia.
Qed.

End XmlFacts.

(** ** The structural watcher: which events count, and the debounce *)

Module WatcherFacts.

Lemma slashes_app a b : Js.slashes (a +++ b) = Js.slashes a +++ Js.slashes b.
Proof. induction a as [|c a IH]; simpl; [reflexivity|]. now rewrite IH. Qed.

Lemma slashes_idem a : Js.slashes (Js.slashes a) = Js.slashes a.
Proof.
  induction a as [|c a IH]; simpl; [reflexivity|]. rewrite IH.
  destruct (Ascii.eqb c "\"%char) eqn:E; [reflexivity | now rewrite E].
Qed.

Lemma slashes_plain s : plainSegment s = true -> Js.slashes s = s.
Proof.
  induction s as [|c s IH]; simpl; [reflexivity|].
  intros H. apply andb_true_iff in H. destruct H as [Hc Hs].
  apply andb_true_iff in Hc. destruct Hc as [_ Hc].
  apply negb_true_iff in Hc. rewrite Hc, IH by assumption. reflexivity.
Qed.

Lemma sliceFrom_app a b : sliceFrom (String.length a) (a +++ b) = b.
Proof. induction a as [|c a IH]; simpl; [now destruct b | assumption]. Qed.

Lemma splitFrom_plain s : forall tail cur,
  plainSegment s = true ->
  Js.splitFrom "/" (s +++ tail) 0 cur = Js.splitFrom "/" tail 0 (cur +++ s).
Proof.
  induction s as [|c s IH]; intros tail cur H.
  - simpl. now rewrite JsFacts.app_nil_r.
  - simpl in H. apply andb_true_iff in H. destruct H as [Hc Hs].
    apply andb_true_iff in Hc. destruct Hc as [Hc _].
    apply negb_true_iff in Hc.
    change ((String c s) +++ tail) with (String c (s +++ tail)).
    cbn [Js.splitFrom String.prefix].
    destruct (ascii_dec "/" c) as [E|_].
    + subst c. discriminate.
    + rewrite IH by exact Hs. now rewrite JsFacts.app_assoc.
Qed.

Lemma split_last s : plainSegment s = true -> Js.split s "/" = [s].
Proof.
  intros H. unfold Js.split. pose proof (splitFrom_plain s "" "" H) as E.
  rewrite JsFacts.app_nil_r in E. exact E.
Qed.

Lemma split_cons s tail :
  plainSegment s = true ->
  Js.split (s +++ "/" +++ tail) "/" = s :: Js.split tail "/".
Proof.
  intros H. unfold Js.split. rewrite splitFrom_plain by assumption.
  simpl. now destruct tail.
Qed.

Lemma splitFrom_nonempty s : forall cur, Js.splitFrom "/" s 0 cur <> [].
Proof.
  induction s as [|c s IH]; intros cur; cbn [Js.splitFrom]; [discriminate|].
  destruct (String.prefix "/" (String c s)); [discriminate | apply IH].
Qed.

Lemma split_nonempty s : Js.split s "/" <> [].
Proof. apply splitFrom_nonempty. Qed.

(** The event path under the watched directory, as the function cuts it. *)
Lemma isRelevantEvent_under skillsDir relative eventType :
  Js.slashes relative = relative ->
  isRelevantEvent skillsDir (skillsDir +++ "/" +++ relative) eventType =
  if negb (Js.truthy relative) then false
  else if Nat.eqb (length (Js.split relative "/")) 1 && isDirEvent eventType then true
  else if Nat.eqb (length (Js.split relative "/")) 2
          && JsSet.has (nth 1 (Js.split relative "/") EmptyString) SKILL_FILE_NAMES
  then true
  else false.
Proof.
  intros Hrel. unfold isRelevantEvent, isDirEvent.
  rewrite !slashes_app, Hrel.
  change (Js.slashes "/") with "/".
  rewrite <- JsFacts.app_assoc, JsFacts.startsWith_app. cbn [negb].
  replace (String.length (Js.slashes skillsDir) + 1)
    with (String.length (Js.slashes skillsDir +++ "/")).
  - now rewrite sliceFrom_app.
  - generalize (Js.slashes skillsDir) as b. intros b.
    induction b as [|c b IH]; simpl; [reflexivity | now rewrite IH].
Qed.

(** X4: which events the structural watcher takes as relevant. Under the
    watched directory, a direct child counts exactly when the event is the
    addition or the removal of a directory; a file one level further down
    counts exactly when it is named SKILL.md or skill.md, whatever the
    event; nothing deeper counts; nothing outside the directory counts,
    nor the directory itself; and backslashes are read as slashes. *)
Theorem isRelevantEvent_cases skillsDir eventType :
  (forall d, plainSegment d = true -> d <> "" ->
     isRelevantEvent skillsDir (skillsDir +++ "/" +++ d) eventType
     = isDirEvent eventType) /\
  (forall d f, plainSegment d = true -> plainSegment f = true ->
     isRelevantEvent skillsDir (skillsDir +++ "/" +++ d +++ "/" +++ f) eventType
     = JsSet.has f SKILL_FILE_NAMES) /\
  (forall d f rest, plainSegment d = true -> plainSegment f = true ->
     isRelevantEvent skillsDir
       (skillsDir +++ "/" +++ d +++ "/" +++ f +++ "/" +++ Js.slashes rest) eventType
     = false) /\
  (forall eventPath,
     Js.startsWith (Js.slashes eventPath) (Js.slashes skillsDir +++ "/") = false ->
     isRelevantEvent skillsDir eventPath eventType = false) /\
  isRelevantEvent skillsDir skillsDir eventType = false /\
  (forall eventPath,
     isRelevantEvent skillsDir eventPath eventType
     = isRelevantEvent (Js.slashes skillsDir) (Js.slashes eventPath) eventType).
Proof.
  split; [|split; [|split; [|split; [|split]]]].
  - intros d Hd Hne.
    rewrite isRelevantEvent_under by now apply slashes_plain.
    rewrite split_last by assumption.
    destruct d; [congruence|]. simpl. now destruct (isDirEvent eventType).
  - intros d f Hd Hf.
    rewrite isRelevantEvent_under
      by (rewrite !slashes_app, (slashes_plain d), (slashes_plain f) by assumption;
          reflexivity).
    rewrite split_cons, split_last by assumption.
    replace (Js.truthy (d +++ "/" +++ f)) with true by now destruct d.
    cbn [negb length Nat.eqb andb nth]. now destruct (JsSet.has f SKILL_FILE_NAMES).
  - intros d f rest Hd Hf.
    rewrite isRelevantEvent_under
      by (rewrite !slashes_app, slashes_idem, (slashes_plain d), (slashes_plain f)
            by assumption; reflexivity).
    rewrite !split_cons by assumption.
    replace (Js.truthy (d +++ "/" +++ f +++ "/" +++ Js.slashes rest)) with true
      by now destruct d.
    pose proof (split_nonempty (Js.slashes rest)) as Hn.
    destruct (Js.split (Js.slashes rest) "/"); [congruence | reflexivity].
  - intros eventPath H. unfold isRelevantEvent. now rewrite H.
  - unfold isRelevantEvent.
    replace (Js.startsWith (Js.slashes skillsDir) (Js.slashes skillsDir +++ "/"))
      with false; [reflexivity|].
    symmetry. apply not_true_iff_false. intros H.
    apply JsFacts.startsWith_spec in H. destruct H as [t Ht].
    rewrite JsFacts.app_assoc in Ht. symmetry in Ht.
    now apply JsFacts.app_neq_self in Ht.
  - intros eventPath. unfold isRelevantEvent. now rewrite !slashes_idem.
Qed.

Lemma filter_self t : filter (fun t' => negb (Nat.eqb t' t)) [t] = [].
Proof. simpl. now rewrite Nat.eqb_refl. Qed.

Lemma OneTimeout_init : OneTimeout createSkillDirectoryWatcher.
Proof. reflexivity. Qed.

Lemma scheduleCallback_one dw :
  OneTimeout dw ->
  scheduled (scheduleCallback dw) = [nextTimeout dw] /\
  debounceTimer (scheduleCallback dw) = Some (nextTimeout dw).
Proof.
  unfold OneTimeout, scheduleCallback. intros H. simpl.
  destruct (debounceTimer dw) as [t|]; rewrite H; [rewrite filter_self|];
    split; reflexivity.
Qed.

Lemma debounceFires_pending t dw :
  OneTimeout dw -> In t (scheduled dw) ->
  debounceFires t dw
  = {| debounceTimer := None; scheduled := []; nextTimeout := nextTimeout dw;
       changes := S (changes dw) |}.
Proof.
  unfold OneTimeout, debounceFires. intros H Hin. rewrite H in *.
  destruct (debounceTimer dw) as [t'|]; [|destruct Hin].
  destruct Hin as [->|[]]. simpl. now rewrite Nat.eqb_refl.
Qed.

Lemma debounceFires_stale t dw :
  ~ In t (scheduled dw) -> debounceFires t dw = dw.
Proof.
  unfold debounceFires. intros H.
  destruct (existsb (Nat.eqb t) (scheduled dw)) eqn:E; [|reflexivity].
  apply existsb_exists in E. destruct E as (x & Hx & Ex).
  apply Nat.eqb_eq in Ex. now subst x.
Qed.

Lemma closeDirWatcher_one dw :
  OneTimeout dw ->
  scheduled (closeDirWatcher dw) = [] /\ debounceTimer (closeDirWatcher dw) = None /\
  changes (closeDirWatcher dw) = changes dw.
Proof.
  unfold OneTimeout, closeDirWatcher. intros H.
  destruct (debounceTimer dw) as [t|] eqn:E; simpl.
  - rewrite H, filter_self. now repeat split.
  - now rewrite E.
Qed.

Lemma watchStep_one skillsDir op dw :
  OneTimeout dw -> OneTimeout (watchStep skillsDir op dw).
Proof.
  intros H. destruct op as [p ty|t|]; simpl.
  - unfold onWatchEvent. destruct (isRelevantEvent skillsDir p ty); [|assumption].
    destruct (scheduleCallback_one dw H) as [Hs Hd]. unfold OneTimeout.
    now rewrite Hs, Hd.
  - destruct (in_dec Nat.eq_dec t (scheduled dw)) as [Hin|Hout].
    + now rewrite debounceFires_pending.
    + now rewrite debounceFires_stale.
  - destruct (closeDirWatcher_one dw H) as (Hs & Hd & _). unfold OneTimeout.
    now rewrite Hs, Hd.
Qed.

Lemma watchRun_one skillsDir ops : forall dw,
  OneTimeout dw -> OneTimeout (watchRun skillsDir ops dw).
Proof.
  induction ops as [|op ops IH]; intros dw H; [assumption|].
  apply IH. now apply watchStep_one.
Qed.

(** X5: whatever events, firings and closings the watcher has seen, at
    most one timeout is pending, and it is the one the variable
    [debounceTimer] holds: an earlier one has always been cleared. *)
Theorem watcher_one_pending_timeout skillsDir ops :
  let dw := watchRun skillsDir ops createSkillDirectoryWatcher in
  length (scheduled dw) <= 1 /\
  forall t, In t (scheduled dw) <-> debounceTimer dw = Some t.
Proof.
  intros dw.
  assert (H : OneTimeout dw) by (apply watchRun_one, OneTimeout_init).
  unfold OneTimeout in H. rewrite H.
  destruct (debounceTimer dw) as [t'|]; simpl; split; try lia; intros t; split.
  - intros [->|[]]. reflexivity.
  - intros [= ->]. now left.
  - intros [].
  - discriminate.
Qed.

Lemma burst_pending skillsDir events : forall dw,
  OneTimeout dw ->
  existsb (fun e => isRelevantEvent skillsDir (fst e) (snd e)) events = true ->
  let dw' := watchRun skillsDir (map (fun e => WatchEvent (fst e) (snd e)) events) dw in
  changes dw' = changes dw /\
  exists t, scheduled dw' = [t] /\ nextTimeout dw <= t.
Proof.
  assert (Hquiet : forall events dw,
             OneTimeout dw ->
             existsb (fun e => isRelevantEvent skillsDir (fst e) (snd e)) events = false ->
             watchRun skillsDir (map (fun e => WatchEvent (fst e) (snd e)) events) dw
             = dw).
  { intros evs. induction evs as [|e evs IH]; intros dw H E; [reflexivity|].
    simpl in E. apply orb_false_iff in E. destruct E as [E1 E2].
    simpl. unfold onWatchEvent. rewrite E1. now apply IH. }
  induction events as [|e events IH]; intros dw H E; [discriminate|].
  simpl in E. cbn [map watchRun fold_left watchStep].
  change (fold_left (fun dw' op => watchStep skillsDir op dw') ?l ?d)
    with (watchRun skillsDir l d).
  unfold onWatchEvent.
  destruct (isRelevantEvent skillsDir (fst e) (snd e)) eqn:Ee.
  - destruct (scheduleCallback_one dw H) as [Hs Hd].
    assert (H1 : OneTimeout (scheduleCallback dw))
      by (unfold OneTimeout; now rewrite Hs, Hd).
    destruct (existsb (fun e => isRelevantEvent skillsDir (fst e) (snd e)) events)
      eqn:Erest.
    + destruct (IH _ H1 eq_refl) as (Hc & t & Ht & Hle).
      split; [exact Hc|]. exists t. split; [exact Ht|]. simpl in Hle. lia.
    + rewrite Hquiet by assumption. split; [reflexivity|].
      exists (nextTimeout dw). split; [exact Hs | lia].
  - simpl in E. apply (IH _ H E).
Qed.

(** X6: a burst of events of which at least one is relevant leaves
    exactly one timeout pending, set after every timeout that existed
    before the burst, and calls [onChanged] not once; when that timeout
    fires, [onChanged] is called exactly once and nothing stays pending. *)
Theorem watcher_burst_one_callback skillsDir ops events :
  let dw := watchRun skillsDir ops createSkillDirectoryWatcher in
  let dw' := watchRun skillsDir (map (fun e => WatchEvent (fst e) (snd e)) events) dw in
  existsb (fun e => isRelevantEvent skillsDir (fst e) (snd e)) events = true ->
  changes dw' = changes dw /\
  exists t, scheduled dw' = [t] /\ nextTimeout dw <= t /\
            changes (debounceFires t dw') = S (changes dw) /\
            scheduled (debounceFires t dw') = [] /\
            debounceTimer (debounceFires t dw') = None.
Proof.
  intros dw dw' E.
  assert (H : OneTimeout dw) by (apply watchRun_one, OneTimeout_init).
  destruct (burst_pending skillsDir events dw H E) as (Hc & t & Ht & Hle).
  fold dw' in Hc, Ht.
  split; [exact Hc|]. exists t. split; [exact Ht|]. split; [exact Hle|].
  assert (H' : OneTimeout dw') by (apply watchRun_one; exact H).
  rewrite debounceFires_pending by (try exact H'; rewrite Ht; now left).
  simpl. now rewrite Hc.
Qed.

Lemma watchStep_bound skillsDir op dw :
  OneTimeout dw ->
  changes (watchStep skillsDir op dw) + length (scheduled (watchStep skillsDir op dw))
  <= changes dw + length (scheduled dw) + relevantEvents skillsDir [op].
Proof.
  intros H. destruct op as [p ty|t|]; simpl.
  - unfold onWatchEvent. destruct (isRelevantEvent skillsDir p ty); [|lia].
    destruct (scheduleCallback_one dw H) as [Hs _]. rewrite Hs. simpl. lia.
  - destruct (in_dec Nat.eq_dec t (scheduled dw)) as [Hin|Hout].
    + rewrite debounceFires_pending by assumption. simpl.
      destruct (scheduled dw); [destruct Hin | simpl; lia].
    + rewrite debounceFires_stale by assumption. lia.
  - destruct (closeDirWatcher_one dw H) as (Hs & _ & Hc). rewrite Hs, Hc. simpl. lia.
Qed.

Lemma watchRun_bound skillsDir ops : forall dw,
  OneTimeout dw ->
  changes (watchRun skillsDir ops dw) + length (scheduled (watchRun skillsDir ops dw))
  <= changes dw + length (scheduled dw) + relevantEvents skillsDir ops.
Proof.
  induction ops as [|op ops IH]; intros dw H; [simpl; lia|].
  cbn [watchRun fold_left].
  change (fold_left (fun dw' op => watchStep skillsDir op dw') ?l ?d)
    with (watchRun skillsDir l d).
  pose proof (IH _ (watchStep_one skillsDir op dw H)) as H1.
  pose proof (watchStep_bound skillsDir op dw H) as H2.
  assert (relevantEvents skillsDir (op :: ops)
          = relevantEvents skillsDir [op] + relevantEvents skillsDir ops) as ->
    by (destruct op; simpl; lia).
  lia.
Qed.

(** X7: [onChanged] is never called more often than relevant events
    have arrived, a pending timeout counted as a call to come: no event
    outside the watched shape ever causes a rescan, and a burst of events
    never causes more rescans than it has relevant events. *)
Theorem watcher_callbacks_bounded skillsDir ops :
  let dw := watchRun skillsDir ops createSkillDirectoryWatcher in
  changes dw + length (scheduled dw) <= relevantEvents skillsDir ops.
Proof.
  intros dw.
  pose proof (watchRun_bound skillsDir ops _ OneTimeout_init) as H.
  simpl in H. exact H.
Qed.

Lemma idle_run skillsDir later : forall dw,
  scheduled dw = [] -> debounceTimer dw = None ->
  forallb (fun op => negb (isWatchEvent op)) later = true ->
  watchRun skillsDir later dw = dw.
Proof.
  induction later as [|op later IH]; intros dw Hs Hd E; [reflexivity|].
  simpl in E. apply andb_true_iff in E. destruct E as [E1 E2].
  cbn [watchRun fold_left].
  change (fold_left (fun dw' op => watchStep skillsDir op dw') ?l ?d)
    with (watchRun skillsDir l d).
  assert (Hstep : watchStep skillsDir op dw = dw).
  { destruct op as [p ty|t|]; simpl; [discriminate| |].
    - apply debounceFires_stale. rewrite Hs. intros [].
    - unfold closeDirWatcher. now rewrite Hd. }
  rewrite Hstep. now apply IH.
Qed.

(** X8: closing the watcher cancels the callback that was to come: as
    long as no further event is delivered, no timeout that fires after the
    closing calls [onChanged]. *)
Theorem watcher_close_cancels skillsDir ops later :
  let dw := closeDirWatcher (watchRun skillsDir ops createSkillDirectoryWatcher) in
  forallb (fun op => negb (isWatchEvent op)) later = true ->
  scheduled dw = [] /\
  changes (watchRun skillsDir later dw)
  = changes (watchRun skillsDir ops createSkillDirectoryWatcher).
Proof.
  intros dw E.
  assert (H : OneTimeout (watchRun skillsDir ops createSkillDirectoryWatcher))
    by (apply watchRun_one, OneTimeout_init).
  destruct (closeDirWatcher_one _ H) as (Hs & Hd & Hc). fold dw in Hs, Hd, Hc.
  split; [exact Hs|]. rewrite idle_run by assumption. exact Hc.
Qed.

End WatcherFacts.

(** ** The loaders and the handlers: what is read, and when *)

Section ReadFacts.
Variable pathlib : PathApi.
Variable fs : Fs.

Lemma isPathWithinBaseTraced_calls targetPath baseDir :
  incl (snd (isPathWithinBaseTraced pathlib fs targetPath baseDir))
       [CallRealpath baseDir; CallRealpath targetPath].
Proof.
  unfold isPathWithinBaseTraced.
  destruct (realpathSync fs baseDir); [destruct (realpathSync fs targetPath)|];
    simpl; intros c Hc; simpl in *; tauto.
Qed.

(** The check of the boundary, the size check and the read, once the
    test on the text of the path has passed. *)
Lemma checked_read skillsDir fullPath :
  let r :=
    let '(within, trace) := isPathWithinBaseTraced pathlib fs fullPath skillsDir in
    if negb within then (Throw "Path escapes the skills directory", trace)
    else readChecked fs fullPath trace in
  incl (snd r) (callsFor skillsDir fullPath) /\
  (In (CallReadFile fullPath) (snd r) <-> checkedFile pathlib fs skillsDir fullPath) /\
  (forall content, fst r = Ok content ->
     checkedFile pathlib fs skillsDir fullPath /\
     readFileSync fs fullPath = Ok content) /\
  (checkedFile pathlib fs skillsDir fullPath -> fst r = readFileSync fs fullPath).
Proof.
  pose proof (isPathWithinBaseTraced_fst pathlib fs fullPath skillsDir) as Hw.
  pose proof (isPathWithinBaseTraced_calls fullPath skillsDir) as Hc.
  destruct (isPathWithinBaseTraced pathlib fs fullPath skillsDir) as [within trace].
  cbn [fst snd] in Hw, Hc. unfold checkedFile. rewrite <- Hw.
  assert (Hno : ~ In (CallReadFile fullPath) trace)
    by (intros H; apply Hc in H; simpl in H;
        destruct H as [H|[H|[]]]; discriminate).
  assert (Hin : forall c, In c trace -> In c (callsFor skillsDir fullPath))
    by (intros c H; apply Hc in H; unfold callsFor; simpl in *; tauto).
  destruct within; cbn [negb]; cbv zeta.
  - unfold readChecked. destruct (statSync fs fullPath) as [sz|e] eqn:Es.
    + destruct (N.ltb MAX_FILE_SIZE sz) eqn:El; cbn [fst snd].
      * apply N.ltb_lt in El.
        split; [|split; [|split]].
        -- intros c H. apply in_app_or in H. destruct H as [H|[<-|[]]];
             [now apply Hin | unfold callsFor; simpl; tauto].
        -- split.
           ++ intros H. apply in_app_or in H.
              destruct H as [H|[H|[]]]; [contradiction | discriminate].
           ++ intros (_ & sz' & [= <-] & Hle). lia.
        -- discriminate.
        -- intros (_ & sz' & [= <-] & Hle). lia.
      * apply N.ltb_ge in El.
        split; [|split; [|split]].
        -- intros c H. apply in_app_or in H.
           destruct H as [H|[<-|[<-|[]]]];
             [now apply Hin | unfold callsFor; simpl; tauto..].
        -- split; [intros _; split; [reflexivity | eauto]|].
           intros _. apply in_or_app. right. simpl. tauto.
        -- intros content H. split; [split; [reflexivity | eauto] | exact H].
        -- reflexivity.
    + cbn [fst snd]. split; [|split; [|split]].
      * intros c H. apply in_app_or in H. destruct H as [H|[<-|[]]];
          [now apply Hin | unfold callsFor; simpl; tauto].
      * split.
        -- intros H. apply in_app_or in H.
           destruct H as [H|[H|[]]]; [contradiction | discriminate].
        -- intros (_ & sz' & [=] & _).
      * discriminate.
      * intros (_ & sz' & [=] & _).
  - cbn [fst snd]. split; [|split; [|split]].
    + exact Hin.
    + split; [contradiction | intros [[=] _]].
    + discriminate.
    + intros [[=] _].
Qed.

(** X9: [loadSkillContent] touches no file but the base and the path it
    is given, and reads the file exactly when its name ends in [.md], it
    lies within the base and its size is within the limit; what it then
    returns is what the read returns, and it returns content in no other
    way. *)
Theorem loadSkillContent_reads_checked skillPath skillsDir :
  let r := loadSkillContent pathlib fs skillPath skillsDir in
  incl (snd r) (callsFor skillsDir skillPath) /\
  (In (CallReadFile skillPath) (snd r) <->
   Js.endsWith skillPath ".md" = true /\ checkedFile pathlib fs skillsDir skillPath) /\
  (forall content, fst r = Ok content ->
     Js.endsWith skillPath ".md" = true /\
     checkedFile pathlib fs skillsDir skillPath /\
     readFileSync fs skillPath = Ok content) /\
  (Js.endsWith skillPath ".md" = true -> checkedFile pathlib fs skillsDir skillPath ->
   fst r = readFileSync fs skillPath).
Proof.
  unfold loadSkillContent.
  destruct (Js.endsWith skillPath ".md") eqn:E; cbn [negb].
  - destruct (checked_read skillsDir skillPath) as (H1 & H2 & H3 & H4).
    split; [exact H1|]. split; [|split].
    + rewrite H2. tauto.
    + intros content H. destruct (H3 content H). tauto.
    + intros _. exact H4.
  - cbn [fst snd]. split; [intros c []|]. split; [|split].
    + split; [intros [] | intros [[=] _]].
    + discriminate.
    + discriminate.
Qed.

(** X10: [loadDocument] touches no file but the base and the document
    under the directory of the skill, and reads it exactly when the path
    asked for holds no two consecutive dots, the file lies within the base
    and its size is within the limit. *)
Theorem loadDocument_reads_checked skill documentPath skillsDir :
  let fullPath := join pathlib (skillDir skill) documentPath in
  let r := loadDocument pathlib fs skill documentPath skillsDir in
  incl (snd r) (callsFor skillsDir fullPath) /\
  (In (CallReadFile fullPath) (snd r) <->
   Js.includes documentPath ".." = false /\
   checkedFile pathlib fs skillsDir fullPath) /\
  (forall content, fst r = Ok content ->
     Js.includes documentPath ".." = false /\
     checkedFile pathlib fs skillsDir fullPath /\
     readFileSync fs fullPath = Ok content) /\
  (Js.includes documentPath ".." = false ->
   checkedFile pathlib fs skillsDir fullPath -> fst r = readFileSync fs fullPath).
Proof.
  unfold loadDocument.
  destruct (Js.includes documentPath "..") eqn:E.
  - cbn [fst snd]. split; [intros c []|]. split; [|split].
    + split; [intros [] | intros [[=] _]].
    + discriminate.
    + discriminate.
  - cbv zeta.
    destruct (checked_read skillsDir (join pathlib (skillDir skill) documentPath))
      as (H1 & H2 & H3 & H4).
    split; [exact H1|]. split; [|split].
    + rewrite H2. tauto.
    + intros content H. destruct (H3 content H). tauto.
    + intros _. exact H4.
Qed.

End ReadFacts.

Section HandlerFacts.
Variable pathlib : PathApi.
Variable fs : Fs.
Variable skillMap : SkillMap.
Variable skillsDir : string.

(** X11: the [load_skill] tool (and [read_skill] of the tools server)
    never builds a path from its argument. A name the catalog does not
    hold is answered with an error and no call on the file system; for a
    name it holds, every call is on the base or on the path the catalog
    records for that name; and a result that is not an error carries the
    content read from that path, which has passed the checks. *)
Theorem loadSkillTool_reads_catalog_path skillName :
  let r := loadSkillTool pathlib fs skillMap skillsDir skillName in
  (JsMap.get skillName skillMap = None -> isError (fst r) = true /\ snd r = []) /\
  (forall c, In c (snd r) ->
     exists skill, JsMap.get skillName skillMap = Some skill /\
                   In c (callsFor skillsDir (path skill))) /\
  (isError (fst r) = false ->
     exists skill, JsMap.get skillName skillMap = Some skill /\
                   Js.endsWith (path skill) ".md" = true /\
                   checkedFile pathlib fs skillsDir (path skill) /\
                   readFileSync fs (path skill) = Ok (tool_text (fst r))).
Proof.
  unfold loadSkillTool.
  destruct (JsMap.get skillName skillMap) as [skill|] eqn:Eg.
  - destruct (loadSkillContent_reads_checked pathlib fs (path skill) skillsDir)
      as (H1 & _ & H3 & _).
    destruct (loadSkillContent pathlib fs (path skill) skillsDir) as [[content|e] trace];
      cbn [fst snd isError tool_text] in *.
    + split; [discriminate|]. split.
      * intros c Hc. exists skill. split; [reflexivity | now apply H1].
      * intros _. exists skill. split; [reflexivity|].
        destruct (H3 content eq_refl) as (Ha & Hb & Hc). auto.
    + split; [discriminate|]. split.
      * intros c Hc. exists skill. split; [reflexivity | now apply H1].
      * discriminate.
  - cbn [fst snd isError]. split; [auto|]. split; [intros c [] | discriminate].
Qed.

Lemma findDocument_Some skill documentPath doc :
  findDocument skill documentPath = Some doc ->
  In doc (documents skill) /\ doc_path doc = documentPath.
Proof.
  unfold findDocument. intros H. apply find_some in H.
  destruct H as [H1 H2]. apply String.eqb_eq in H2. auto.
Qed.

Lemma findDocument_listed skill doc :
  In doc (documents skill) -> findDocument skill (doc_path doc) <> None.
Proof.
  unfold findDocument. intros Hin Hnone.
  apply (find_none _ _ Hnone) in Hin. now rewrite String.eqb_refl in Hin.
Qed.

(** X12: the document template reads listed documents only. Every call
    on the file system is made for a skill of the catalog and a path that
    is one of its listed documents, holds no two consecutive dots, and is
    joined to the directory of the skill; an answer that carries a MIME
    type carries the content of that file, which has passed the checks, and
    the type the catalog lists for it; and a listed document whose path
    holds two consecutive dots is never read. *)
Theorem readDocumentResource_reads_listed skillName documentPath :
  let r := readDocumentResource pathlib fs skillMap skillsDir skillName documentPath in
  (forall c, In c (snd r) ->
     exists skill doc,
       JsMap.get skillName skillMap = Some skill /\
       findDocument skill documentPath = Some doc /\
       Js.includes documentPath ".." = false /\
       In c (callsFor skillsDir (join pathlib (skillDir skill) documentPath))) /\
  (forall mime, read_mimeType (fst r) = Some mime ->
     exists skill doc,
       JsMap.get skillName skillMap = Some skill /\
       In doc (documents skill) /\ doc_path doc = documentPath /\
       mimeType doc = mime /\
       checkedFile pathlib fs skillsDir (join pathlib (skillDir skill) documentPath) /\
       readFileSync fs (join pathlib (skillDir skill) documentPath)
       = Ok (read_text (fst r))) /\
  (forall skill doc,
     JsMap.get skillName skillMap = Some skill ->
     findDocument skill documentPath = Some doc ->
     Js.includes documentPath ".." = true ->
     snd r = [] /\ read_mimeType (fst r) = None).
Proof.
  unfold readDocumentResource.
  destruct (JsMap.get skillName skillMap) as [skill|] eqn:Eg.
  - destruct (findDocument skill documentPath) as [doc|] eqn:Ef.
    + destruct (loadDocument_reads_checked pathlib fs skill documentPath skillsDir)
        as (H1 & H2 & H3 & _).
      destruct (findDocument_Some _ _ _ Ef) as [Hin Hpath].
      destruct (loadDocument pathlib fs skill documentPath skillsDir)
        as [[content|e] trace] eqn:El;
        cbn [fst snd read_mimeType read_text] in *.
      * destruct (H3 content eq_refl) as (Ha & Hb & Hc).
        split; [|split].
        -- intros c Hc'. exists skill, doc. auto.
        -- intros mime [= <-]. exists skill, doc. auto 8.
        -- intros skill' doc' [= <-] _ Hdots. congruence.
      * split; [|split].
        -- intros c Hc. exists skill, doc.
           split; [reflexivity|]. split; [exact Ef|]. split; [|now apply H1].
           destruct (Js.includes documentPath "..") eqn:Ei; [|reflexivity].
           unfold loadDocument in El. rewrite Ei in El.
           injection El as _ <-. destruct Hc.
        -- discriminate.
        -- intros skill' doc' _ _ Hdots.
           unfold loadDocument in El. rewrite Hdots in El.
           injection El as _ <-. auto.
    + cbn [fst snd read_mimeType].
      split; [intros c [] | split; [discriminate|]]. intros skill' doc' [= <-]. congruence.
  - cbn [fst snd read_mimeType].
    split; [intros c [] | split; discriminate].
Qed.

(** X13: the completions are sound for a catalog filed as the scanner
    files it. A skill name offered starts with the text typed and names a
    skill of the catalog that has documents; a path offered starts with
    the text typed and is a listed document of the skill, so that the
    template finds it; and a skill name that is offered has at least one
    path to offer. *)
Theorem completions_sound :
  CatalogOk skillMap ->
  (forall value n, In n (completeSkillName skillMap value) ->
     Js.startsWith n value = true /\
     (exists skill, JsMap.get n skillMap = Some skill /\ documents skill <> []) /\
     completeDocumentPath skillMap "" (Some n) <> []) /\
  (forall value n p, In p (completeDocumentPath skillMap value (Some n)) ->
     Js.startsWith p value = true /\
     exists skill doc, JsMap.get n skillMap = Some skill /\
                       findDocument skill p = Some doc).
Proof.
  intros [Hnd Hok]. split.
  - intros value n Hn. unfold completeSkillName in Hn.
    apply filter_In in Hn. destruct Hn as [Hn Hstart].
    apply in_map_iff in Hn. destruct Hn as (skill & <- & Hs).
    apply filter_In in Hs. destruct Hs as [Hs Hdocs].
    unfold JsMap.values in Hs. apply in_map_iff in Hs.
    destruct Hs as ([k v] & Hv & Hin). simpl in Hv. subst v.
    destruct (Hok _ _ Hin) as (Hname & Hne & _).
    assert (Hget : JsMap.get (name skill) skillMap = Some skill)
      by (rewrite Hname; now apply JsMapFacts.In_get).
    assert (Hdoc : documents skill <> [])
      by (intros E; rewrite E in Hdocs; discriminate).
    split; [exact Hstart|]. split; [eauto|].
    unfold completeDocumentPath. rewrite Hget.
    replace (Js.truthy (name skill)) with true
      by (rewrite Hname; destruct k; [congruence | reflexivity]).
    cbn [negb]. destruct (documents skill) as [|d ds]; [congruence|].
    cbn [map filter]. unfold Js.startsWith.
    destruct (doc_path d); simpl; discriminate.
  - intros value n p Hp. unfold completeDocumentPath in Hp.
    destruct (negb (Js.truthy n)); [destruct Hp|].
    destruct (JsMap.get n skillMap) as [skill|] eqn:Eg; [|destruct Hp].
    apply filter_In in Hp. destruct Hp as [Hp Hstart].
    apply in_map_iff in Hp. destruct Hp as (doc & <- & Hdoc).
    split; [exact Hstart|]. exists skill.
    pose proof (findDocument_listed skill doc Hdoc) as Hf.
    destruct (findDocument skill (doc_path doc)) as [doc'|]; [eauto | congruence].
Qed.

End HandlerFacts.

(** ** The scanner: what the catalog and its documents stand for *)

Section ScanFacts.
Variable pathlib : PathApi.
Variable fs : Fs.
Variable parseYaml : string -> result Yaml.
Variable stackDepth : nat.

Abbreviation visitEntry := (visitEntry pathlib fs parseYaml stackDepth).
Abbreviation visitEntries := (visitEntries pathlib fs parseYaml stackDepth).
Abbreviation registerSkill := (registerSkill pathlib fs parseYaml stackDepth).
Abbreviation discoverSkills := (discoverSkills pathlib fs parseYaml stackDepth).
Abbreviation findSkillMd := (findSkillMd pathlib fs).
Abbreviation scanEntries := (scanEntries pathlib fs).
Abbreviation scanDir := (scanDir pathlib fs).
Abbreviation scanSubdirs := (scanSubdirs pathlib fs stackDepth).
Abbreviation scanDocuments := (scanDocuments pathlib fs stackDepth).
Abbreviation ListedFrom := (ListedFrom pathlib fs).
Abbreviation Descends := (Descends pathlib fs).
Abbreviation UnitOf := (UnitOf pathlib fs parseYaml stackDepth).
Abbreviation hasDefinition := (hasDefinition pathlib fs).

Lemma scanEntries_listed recur dirPath relativeTo baseDir top all :
  Descends baseDir top dirPath ->
  readdirSync fs dirPath = Ok all ->
  (forall entry docs,
     In entry all -> isDirectory entry = true ->
     isPathWithinBase pathlib fs (join pathlib dirPath (d_name entry)) baseDir = true ->
     recur (join pathlib dirPath (d_name entry)) = Ok docs ->
     forall d, In d docs -> ListedFrom baseDir relativeTo top d) ->
  forall entries documents docs,
    incl entries all ->
    (forall d, In d documents -> ListedFrom baseDir relativeTo top d) ->
    scanEntries recur dirPath relativeTo baseDir entries documents = Ok docs ->
    forall d, In d docs -> ListedFrom baseDir relativeTo top d.
Proof.
  intros Hdesc Hread Hrec.
  induction entries as [|entry rest IH]; intros documents docs Hincl Hdocs Hscan.
  - simpl in Hscan. injection Hscan as <-. exact Hdocs.
  - assert (Hentry : In entry all) by (apply Hincl; now left).
    assert (Hrest : incl rest all) by (intros x Hx; apply Hincl; now right).
    cbn [scanEntries] in Hscan.
    destruct (isPathWithinBase pathlib fs (join pathlib dirPath (d_name entry)) baseDir)
      eqn:Ew; cbn [negb] in Hscan; [|now apply (IH documents docs)].
    destruct (isFile entry) eqn:Ef.
    + destruct (statSync fs (join pathlib dirPath (d_name entry))) as [sz|e] eqn:Es;
        [|now apply (IH documents docs)].
      destruct (N.ltb MAX_FILE_SIZE sz) eqn:El; [now apply (IH documents docs)|].
      apply N.ltb_ge in El.
      refine (IH _ docs Hrest _ Hscan).
      intros d Hd. apply in_app_or in Hd. destruct Hd as [Hd|[<-|[]]]; [auto|].
      exists dirPath, all, entry. cbn [size doc_path mimeType]. auto 10.
    + destruct (isDirectory entry) eqn:Ed; [|now apply (IH documents docs)].
      destruct (recur (join pathlib dirPath (d_name entry))) as [sub|e] eqn:Er;
        [|discriminate].
      refine (IH _ docs Hrest _ Hscan).
      intros d Hd. apply in_app_or in Hd. destruct Hd as [Hd|Hd]; [auto|].
      exact (Hrec entry sub Hentry Ed Ew Er d Hd).
Qed.

Lemma scanDir_listed relativeTo baseDir top depth : forall dirPath docs,
  Descends baseDir top dirPath ->
  scanDir depth dirPath relativeTo baseDir = Ok docs ->
  forall d, In d docs -> ListedFrom baseDir relativeTo top d.
Proof.
  induction depth as [|depth IH]; intros dirPath docs Hdesc Hscan; [discriminate|].
  cbn [scanDir] in Hscan.
  destruct (existsSync fs dirPath); cbn [negb] in Hscan;
    [|injection Hscan as <-; intros d []].
  destruct (readdirSync fs dirPath) as [all|e] eqn:Er;
    [|injection Hscan as <-; intros d []].
  refine (scanEntries_listed _ dirPath relativeTo baseDir top all Hdesc Er _
            all [] docs (fun x Hx => Hx) _ Hscan).
  - intros entry sub Hentry Ed Ew Hsub.
    apply (IH (join pathlib dirPath (d_name entry)) sub); [|exact Hsub].
    exact (DescendsInto pathlib fs baseDir top dirPath all entry Hdesc Er Hentry Ed Ew).
  - intros d [].
Qed.

Lemma scanSubdirs_listed skillDir_ baseDir all : forall entries documents docs,
  incl entries all ->
  (forall d, In d documents ->
     exists sub, In sub all /\ isDirectory sub = true /\
                 ListedFrom baseDir skillDir_ (join pathlib skillDir_ (d_name sub)) d) ->
  scanSubdirs skillDir_ baseDir entries documents = Ok docs ->
  forall d, In d docs ->
    exists sub, In sub all /\ isDirectory sub = true /\
                ListedFrom baseDir skillDir_ (join pathlib skillDir_ (d_name sub)) d.
Proof.
  induction entries as [|entry rest IH]; intros documents docs Hincl Hdocs Hscan.
  - simpl in Hscan. injection Hscan as <-. exact Hdocs.
  - assert (Hentry : In entry all) by (apply Hincl; now left).
    assert (Hrest : incl rest all) by (intros x Hx; apply Hincl; now right).
    cbn [scanSubdirs] in Hscan.
    destruct (isDirectory entry) eqn:Ed; cbn [negb] in Hscan;
      [|now apply (IH documents docs)].
    destruct (scanDir stackDepth (join pathlib skillDir_ (d_name entry)) skillDir_ baseDir)
      as [sub|e] eqn:Es; [|discriminate].
    refine (IH _ docs Hrest _ Hscan).
    intros d Hd. apply in_app_or in Hd. destruct Hd as [Hd|Hd]; [auto|].
    exists entry. split; [exact Hentry|]. split; [exact Ed|].
    exact (scanDir_listed skillDir_ baseDir _ stackDepth _ sub
             (DescendsTop pathlib fs baseDir _) Es d Hd).
Qed.

Lemma slashes_no_backslash s : occurrences "\"%char (Js.slashes s) = 0.
Proof.
  induction s as [|c s IH]; simpl; [reflexivity|].
  rewrite IH. destruct (Ascii.eqb c "\"%char) eqn:E; [reflexivity | now rewrite E].
Qed.

(** X14: every document [scanDocuments] lists stands for a file that was
    found under a subdirectory of the skill, through directories that lie
    within the base: the file itself lies within the base, its size is the
    one listed and is within the limit, its path is taken relative to the
    directory of the skill and holds no backslash, and its MIME type is
    that of its name. Files that sit directly in the directory of the
    skill are not reached. *)
Theorem scanDocuments_lists_checked_files skillDir_ baseDir docs d :
  scanDocuments skillDir_ baseDir = Ok docs ->
  In d docs ->
  (exists entries sub,
     readdirSync fs skillDir_ = Ok entries /\ In sub entries /\
     isDirectory sub = true /\
     ListedFrom baseDir skillDir_ (join pathlib skillDir_ (d_name sub)) d) /\
  (size d <= MAX_FILE_SIZE)%N /\
  occurrences "\"%char (doc_path d) = 0.
Proof.
  unfold scanDocuments. intros Hscan Hd.
  destruct (readdirSync fs skillDir_) as [entries|e] eqn:Er;
    [|injection Hscan as <-; destruct Hd].
  destruct (scanSubdirs_listed skillDir_ baseDir entries entries [] docs
              (fun x Hx => Hx) (fun d' (H : In d' []) => match H with end) Hscan d Hd)
    as (sub & Hsub & Hdir & Hl).
  split; [exists entries, sub; auto|].
  destruct Hl as (dir & es & entry & _ & _ & _ & _ & _ & _ & Hsz & Hp & _).
  split; [exact Hsz|]. rewrite Hp. apply slashes_no_backslash.
Qed.

Lemma visitEntry_unit resolvedDir entry m m' :
  fst (visitEntry resolvedDir m entry) = Ok m' ->
  (m' = m /\
   length (snd (visitEntry resolvedDir m entry))
   = if hasDefinition resolvedDir entry then 1 else 0) \/
  (exists k v,
     hasDefinition resolvedDir entry = true /\ JsMap.has k m = false /\
     m' = JsMap.set k v m /\ snd (visitEntry resolvedDir m entry) = [] /\
     UnitOf resolvedDir entry k v).
Proof.
  unfold visitEntry, hasDefinition, UnitOf.
  destruct (isDirectory entry) eqn:Ed; cbn [negb andb];
    [|intros [= <-]; left; auto].
  destruct (findSkillMd (join pathlib resolvedDir (d_name entry)) ["SKILL.md"; "skill.md"])
    as [skillMdPath|] eqn:Efind; [|intros [= <-]; left; auto].
  destruct (statSync fs skillMdPath) as [sz|e] eqn:Es; [|discriminate].
  destruct (N.ltb MAX_FILE_SIZE sz) eqn:El; [intros [= <-]; left; auto|].
  apply N.ltb_ge in El.
  destruct (isPathWithinBase pathlib fs skillMdPath resolvedDir) eqn:Ew; cbn [negb];
    [|intros [= <-]; left; auto].
  unfold registerSkill.
  destruct (readFileSync fs skillMdPath) as [content|e] eqn:Eread;
    [|intros [= <-]; left; auto].
  destruct (parseFrontmatter parseYaml content) as [[frontmatter body]|e] eqn:Eparse;
    [|intros [= <-]; left; auto].
  destruct (requiredString (prop frontmatter "name")) as [rawName|] eqn:En;
    [|intros [= <-]; left; auto].
  destruct (requiredString (prop frontmatter "description")) as [rawDescription|] eqn:Edesc;
    [|intros [= <-]; left; auto].
  cbv zeta.
  destruct (JsMap.has (Js.trim rawName) m) eqn:Ehas; [intros [= <-]; left; auto|].
  destruct (scanDocuments
              (join pathlib resolvedDir (d_name entry)) resolvedDir)
    as [documents_|e] eqn:Edocs; [|intros [= <-]; left; auto].
  cbn [fst snd]. intros [= <-]. right.
  eexists _, _. split; [reflexivity|]. split; [exact Ehas|].
  split; [reflexivity|]. split; [reflexivity|].
  cbn [skillDir path name description documents].
  split; [reflexivity|]. split; [reflexivity|]. split; [exact Efind|].
  split; [split; [exact Ew | eauto]|].
  exists content, frontmatter, body, rawName, rawDescription. auto 10.
Qed.

Lemma visitEntries_units resolvedDir entries : forall m log m' log',
  visitEntries resolvedDir entries m log = (Ok m', log') ->
  (forall k v, In (k, v) m' ->
     In (k, v) m \/ exists entry, In entry entries /\ UnitOf resolvedDir entry k v) /\
  length m' + length log'
  = length m + length log + length (filter (hasDefinition resolvedDir) entries).
Proof.
  induction entries as [|entry rest IH]; intros m log m' log' H.
  - simpl in H. injection H as <- <-. split; [auto | simpl; lia].
  - rewrite visitEntries_cons in H.
    pose proof (visitEntry_unit resolvedDir entry m) as Hu.
    destruct (visitEntry resolvedDir m entry) as [[m1|e] lines]; [|discriminate].
    cbn [fst snd] in Hu. specialize (Hu m1 eq_refl).
    destruct (IH _ _ _ _ H) as [Hin Hlen]. cbn [filter].
    destruct Hu as [[-> Hl]|(k & v & Hdef & Hhas & -> & -> & Hunit)].
    + split.
      * intros k v Hkv. destruct (Hin k v Hkv) as [Hm|(e & He & Hu)]; [auto|].
        right. exists e. split; [now right | exact Hu].
      * rewrite Hlen, length_app, Hl.
        destruct (hasDefinition resolvedDir entry); simpl; lia.
    + rewrite Hdef. split.
      * intros k' v' Hkv. destruct (Hin k' v' Hkv) as [Hm|(e & He & Hu)].
        -- rewrite JsMapFacts.set_new in Hm by assumption.
           apply in_app_or in Hm. destruct Hm as [Hm|[[= <- <-]|[]]]; [auto|].
           right. exists entry. split; [now left | exact Hunit].
        -- right. exists e. split; [now right | exact Hu].
      * rewrite Hlen, JsMapFacts.set_new, !length_app by assumption. simpl. lia.
Qed.

(** X15: every unit of the catalog is what a directory of the root
    declares. It is filed under the trimmed name of the frontmatter of the
    definition file of that directory, SKILL.md or else skill.md; that
    file lies within the root, its size is within the limit, and its
    frontmatter parsed; the description is the trimmed description, and
    the documents are those the scan of the directory lists. *)
Theorem discoverSkills_units_declared skillsDir m log k v :
  discoverSkills skillsDir = (Ok m, log) ->
  In (k, v) m ->
  exists entries entry,
    readdirSync fs (resolve pathlib skillsDir) = Ok entries /\ In entry entries /\
    UnitOf (resolve pathlib skillsDir) entry k v.
Proof.
  unfold discoverSkills. cbv zeta.
  destruct (existsSync fs (resolve pathlib skillsDir)); cbn [negb];
    [|intros [= <- _] []].
  destruct (readdirSync fs (resolve pathlib skillsDir)) as [entries|e];
    [|discriminate].
  intros H Hin. destruct (visitEntries_units _ _ _ _ _ _ H) as [Hu _].
  destruct (Hu k v Hin) as [[]|(entry & He & Hunit)]. eauto.
Qed.

(** X16: the scan drops nothing in silence. When it returns, either
    the root is missing, and the catalog is empty with the one line that
    says so, or the root has been listed, and its directories that hold a
    definition file are as many as the units of the catalog and the lines
    logged taken together: each of them has given one unit or one line that
    says why it gave none. *)
Theorem discoverSkills_reports_every_skip skillsDir m log :
  discoverSkills skillsDir = (Ok m, log) ->
  (existsSync fs (resolve pathlib skillsDir) = false /\
   m = [] /\ log = [SkillsDirNotFound (resolve pathlib skillsDir)]) \/
  (existsSync fs (resolve pathlib skillsDir) = true /\
   exists entries,
     readdirSync fs (resolve pathlib skillsDir) = Ok entries /\
     length m + length log
     = length (filter (hasDefinition (resolve pathlib skillsDir)) entries)).
Proof.
  unfold discoverSkills. cbv zeta.
  destruct (existsSync fs (resolve pathlib skillsDir)); cbn [negb].
  - destruct (readdirSync fs (resolve pathlib skillsDir)) as [entries|e];
      [|discriminate].
    intros H. right. split; [reflexivity|]. exists entries. split; [reflexivity|].
    destruct (visitEntries_units _ _ _ _ _ _ H) as [_ Hlen]. exact Hlen.
  - intros [= <- <-]. left. auto.
Qed.

(** X17: the size of a definition file is asked for outside the [try]
    block. When that call throws, the scan as a whole throws: no catalog
    is returned, be it of the units found before. *)
Theorem discoverSkills_stat_failure_aborts skillsDir pre entry post skillMdPath e m0 log0 :
  existsSync fs (resolve pathlib skillsDir) = true ->
  readdirSync fs (resolve pathlib skillsDir) = Ok (pre ++ entry :: post) ->
  visitEntries (resolve pathlib skillsDir) pre [] [] = (Ok m0, log0) ->
  isDirectory entry = true ->
  findSkillMd (join pathlib (resolve pathlib skillsDir) (d_name entry))
              ["SKILL.md"; "skill.md"] = Some skillMdPath ->
  statSync fs skillMdPath = Throw e ->
  discoverSkills skillsDir = (Throw e, log0).
Proof.
  intros Hex Hread Hpre Hdir Hfind Hstat.
  unfold discoverSkills. cbv zeta. rewrite Hex, Hread. cbn [negb].
  rewrite visitEntries_app, Hpre, visitEntries_cons.
  unfold visitEntry. rewrite Hdir. cbn [negb].
  rewrite Hfind, Hstat. now rewrite app_nil_r.
Qed.

Lemma trimStart_head s :
  match Js.trimStart s with
  | EmptyString => True
  | String c _ => Js.isSpace c = false
  end.
Proof.
  induction s as [|c s IH]; simpl; [exact I|].
  destruct (Js.isSpace c) eqn:E; [exact IH | exact E].
Qed.

Lemma trimEnd_head c s :
  Js.isSpace c = false -> exists t, Js.trimEnd (String c s) = String c t.
Proof.
  intros H. simpl. destruct (Js.trimEnd s); [rewrite H|]; eauto.
Qed.

Lemma trimEnd_idem s : Js.trimEnd (Js.trimEnd s) = Js.trimEnd s.
Proof.
  induction s as [|c s IH]; [reflexivity|].
  simpl. destruct (Js.trimEnd s) as [|d t] eqn:E.
  - destruct (Js.isSpace c) eqn:Ec; simpl; [reflexivity | now rewrite Ec].
  - change (Js.trimEnd (String c (String d t)))
      with (match Js.trimEnd (String d t) with
            | EmptyString => if Js.isSpace c then EmptyString else String c EmptyString
            | u => String c u
            end).
    now rewrite IH.
Qed.

Lemma trim_idem s : Js.trim (Js.trim s) = Js.trim s.
Proof.
  unfold Js.trim. pose proof (trimStart_head s) as H.
  destruct (Js.trimStart s) as [|c u]; [reflexivity|].
  destruct (trimEnd_head c u H) as [t Ht]. rewrite Ht.
  replace (Js.trimStart (String c t)) with (String c t) by (simpl; now rewrite H).
  rewrite <- Ht. apply trimEnd_idem.
Qed.

(** X18: the names the catalog is looked up by, and the descriptions it
    shows, carry no white space at either end and are not empty. *)
Theorem discoverSkills_names_trimmed skillsDir m log k v :
  discoverSkills skillsDir = (Ok m, log) ->
  In (k, v) m ->
  Js.trim k = k /\ k <> "" /\
  Js.trim (description v) = description v /\ description v <> "".
Proof.
  unfold discoverSkills. cbv zeta.
  destruct (existsSync fs (resolve pathlib skillsDir)); cbn [negb];
    [|intros [= <- _] []].
  destruct (readdirSync fs (resolve pathlib skillsDir)) as [entries|e];
    [|discriminate].
  intros H Hin. destruct (visitEntries_units _ _ _ _ _ _ H) as [Hu _].
  destruct (Hu k v Hin) as [[]|(entry & He & Hunit)].
  destruct Hunit as (_ & _ & _ & _ & content & fm & body & rn & rd & _ & _
                     & Hn & Hd & -> & _ & -> & _).
  pose proof (requiredString_trim _ _ Hn). pose proof (requiredString_trim _ _ Hd).
  rewrite !trim_idem. auto.
Qed.

Abbreviation Declares := (Declares pathlib fs parseYaml stackDepth).


Lemma visitEntry_of_declared resolvedDir entry k v m0 :
  Declares resolvedDir entry k v ->
  visitEntry resolvedDir m0 entry
  = if JsMap.has k m0 then (Ok m0, [DuplicateSkillName k (path v)])
    else (Ok (JsMap.set k v m0), []).
Proof.
  intros (Hdir & p & content & fm & body & rn & rd & docs & Hfind
          & (Hw & sz & Hst & Hle) & Hread & Hparse & Hn & Hd & Hdocs & -> & ->).
  unfold visitEntry. rewrite Hdir. cbn [negb]. rewrite Hfind, Hst.
  apply N.ltb_ge in Hle. rewrite Hle, Hw. cbn [negb].
  unfold registerSkill. rewrite Hread, Hparse, Hn, Hd. cbv zeta. cbn [path].
  destruct (JsMap.has (Js.trim rn) m0); [reflexivity|]. now rewrite Hdocs.
Qed.

Lemma visitEntry_declared resolvedDir entry m m' :
  fst (visitEntry resolvedDir m entry) = Ok m' ->
  m' = m \/
  exists k v, JsMap.has k m = false /\ m' = JsMap.set k v m /\
              Declares resolvedDir entry k v.
Proof.
  unfold visitEntry.
  destruct (isDirectory entry) eqn:Ed; cbn [negb]; [|intros [= <-]; auto].
  destruct (findSkillMd (join pathlib resolvedDir (d_name entry)) ["SKILL.md"; "skill.md"])
    as [skillMdPath|] eqn:Efind; [|intros [= <-]; auto].
  destruct (statSync fs skillMdPath) as [sz|e] eqn:Es; [|discriminate].
  destruct (N.ltb MAX_FILE_SIZE sz) eqn:El; [intros [= <-]; auto|].
  apply N.ltb_ge in El.
  destruct (isPathWithinBase pathlib fs skillMdPath resolvedDir) eqn:Ew; cbn [negb];
    [|intros [= <-]; auto].
  unfold registerSkill.
  destruct (readFileSync fs skillMdPath) as [content|e] eqn:Eread;
    [|intros [= <-]; auto].
  destruct (parseFrontmatter parseYaml content) as [[frontmatter body]|e] eqn:Eparse;
    [|intros [= <-]; auto].
  destruct (requiredString (prop frontmatter "name")) as [rawName|] eqn:En;
    [|intros [= <-]; auto].
  destruct (requiredString (prop frontmatter "description")) as [rawDescription|] eqn:Edesc;
    [|intros [= <-]; auto].
  cbv zeta.
  destruct (JsMap.has (Js.trim rawName) m) eqn:Ehas; [intros [= <-]; auto|].
  destruct (scanDocuments (join pathlib resolvedDir (d_name entry)) resolvedDir)
    as [documents_|e] eqn:Edocs; [|intros [= <-]; auto].
  cbn [fst]. intros [= <-]. right.
  eexists _, _. split; [exact Ehas|]. split; [reflexivity|]. split; [exact Ed|].
  exists skillMdPath, content, frontmatter, body, rawName, rawDescription, documents_.
  split; [exact Efind|]. split; [split; [exact Ew | eauto]|].
  split; [exact Eread|]. split; [exact Eparse|]. split; [exact En|].
  split; [exact Edesc|]. split; [exact Edocs|]. split; reflexivity.
Qed.

Lemma visitEntries_declared resolvedDir entries : forall m log m' log',
  visitEntries resolvedDir entries m log = (Ok m', log') ->
  forall k v, In (k, v) m' ->
    In (k, v) m \/ exists e, In e entries /\ Declares resolvedDir e k v.
Proof.
  induction entries as [|entry rest IH]; intros m log m' log' H k v Hkv.
  - simpl in H. injection H as <- <-. auto.
  - rewrite visitEntries_cons in H.
    pose proof (visitEntry_declared resolvedDir entry m) as Hu.
    destruct (visitEntry resolvedDir m entry) as [[m1|e] lines]; [|discriminate].
    cbn [fst] in Hu. specialize (Hu m1 eq_refl).
    destruct (IH _ _ _ _ H k v Hkv) as [Hm|(e & He & Hd)];
      [|right; exists e; split; [now right | exact Hd]].
    destruct Hu as [->|(k0 & v0 & Hhas & -> & Hdecl)]; [auto|].
    rewrite JsMapFacts.set_new in Hm by assumption.
    apply in_app_or in Hm. destruct Hm as [Hm|[[= <- <-]|[]]]; [auto|].
    right. exists entry. split; [now left | exact Hdecl].
Qed.

Lemma visitEntries_Ok_app resolvedDir a b m log m' log' :
  visitEntries resolvedDir (a ++ b) m log = (Ok m', log') ->
  exists m1 log1,
    visitEntries resolvedDir a m log = (Ok m1, log1) /\
    visitEntries resolvedDir b m1 log1 = (Ok m', log').
Proof.
  rewrite visitEntries_app.
  destruct (visitEntries resolvedDir a m log) as [[m1|e] log1]; [eauto | discriminate].
Qed.

Lemma visitEntries_has_declared resolvedDir entries entry k v : forall m log m' log',
  visitEntries resolvedDir entries m log = (Ok m', log') ->
  In entry entries -> Declares resolvedDir entry k v ->
  JsMap.has k m' = true.
Proof.
  induction entries as [|e rest IH]; intros m log m' log' H Hin Hd; [destruct Hin|].
  rewrite visitEntries_cons in H.
  destruct Hin as [->|Hin].
  - rewrite (visitEntry_of_declared _ _ _ _ m Hd) in H.
    assert (G : forall m1 lines, JsMap.has k m1 = true ->
                  visitEntries resolvedDir rest m1 (log ++ lines) = (Ok m', log') ->
                  JsMap.has k m' = true).
    { intros m1 lines Hh H1. unfold JsMap.has in *.
      destruct (JsMap.get k m1) as [u|] eqn:Eg; [|discriminate].
      destruct (visitEntries_keeps _ _ _ _ _ _ _ _ _ _ H1) as (K & _).
      now rewrite (K _ _ Eg). }
    destruct (JsMap.has k m) eqn:Eh.
    + exact (G _ _ Eh H).
    + refine (G _ _ _ H). unfold JsMap.has. now rewrite JsMapFacts.get_set_same.
  - destruct (visitEntry resolvedDir m e) as [[m1|err] lines]; [|discriminate].
    exact (IH _ _ _ _ H Hin Hd).
Qed.

(** C8: the catalog of a scan holds one unit per trimmed name, and a
    name for every directory that declares one. Of the directories that
    declare the same name the first is the one whose unit the catalog
    holds under that name, and every later one is dropped with a
    diagnostic. *)
Theorem discoverSkills_first_wins skillsDir m log :
  discoverSkills skillsDir = (Ok m, log) ->
  NoDup (JsMap.keys m) /\
  (forall k v, In (k, v) m -> name v = k /\ k <> "" /\ exists raw, k = Js.trim raw) /\
  (forall entries entry k v,
     existsSync fs (resolve pathlib skillsDir) = true ->
     readdirSync fs (resolve pathlib skillsDir) = Ok entries ->
     In entry entries ->
     Declares (resolve pathlib skillsDir) entry k v ->
     JsMap.has k m = true) /\
  forall pre entry post k v,
    existsSync fs (resolve pathlib skillsDir) = true ->
    readdirSync fs (resolve pathlib skillsDir) = Ok (pre ++ entry :: post) ->
    Declares (resolve pathlib skillsDir) entry k v ->
    (forall e v', In e pre -> ~ Declares (resolve pathlib skillsDir) e k v') ->
    JsMap.get k m = Some v /\
    forall e' v', In e' post -> Declares (resolve pathlib skillsDir) e' k v' ->
                  In (DuplicateSkillName k (path v')) log.
Proof.
  intros H.
  assert (Hok : CatalogOk m).
  { unfold discoverSkills in H.
    destruct (existsSync fs (resolve pathlib skillsDir)); cbn [negb] in H.
    - destruct (readdirSync fs (resolve pathlib skillsDir)) as [entries|];
        [|discriminate].
      destruct (visitEntries_keeps _ _ _ _ _ _ _ _ _ _ H) as (_ & K & _).
      apply K, CatalogOk_empty.
    - injection H as <- <-. apply CatalogOk_empty. }
  destruct Hok as [Hnd Hall]. split; [exact Hnd|]. split; [exact Hall|]. split.
  - intros entries entry k v Hex Hls Hin Hd.
    unfold discoverSkills in H. rewrite Hex, Hls in H. cbn [negb] in H.
    exact (visitEntries_has_declared _ _ _ _ _ _ _ _ _ H Hin Hd).
  - intros pre entry post k v Hex Hls Hd Hfirst.
    unfold discoverSkills in H. rewrite Hex, Hls in H. cbn [negb] in H.
    destruct (visitEntries_Ok_app _ _ _ _ _ _ _ H) as (m0 & log0 & Hpre & Hrest).
    assert (Hfresh : JsMap.has k m0 = false).
    { unfold JsMap.has. destruct (JsMap.get k m0) as [u|] eqn:Eg; [|reflexivity].
      apply JsMapFacts.get_In in Eg.
      destruct (visitEntries_declared _ _ _ _ _ _ Hpre k u Eg) as [[]|(e & He & Hde)].
      exfalso. exact (Hfirst e u He Hde). }
    rewrite visitEntries_cons, (visitEntry_of_declared _ _ _ _ m0 Hd), Hfresh in Hrest.
    assert (Hin1 : JsMap.get k (JsMap.set k v m0) = Some v)
      by apply JsMapFacts.get_set_same.
    split.
    + destruct (visitEntries_keeps _ _ _ _ _ _ _ _ _ _ Hrest) as (K & _). now apply K.
    + intros e' v' He' Hd'. apply in_split in He'. destruct He' as (a & b & ->).
      destruct (visitEntries_Ok_app _ _ _ _ _ _ _ Hrest) as (m2 & log2 & Ha & Hb).
      destruct (visitEntries_keeps _ _ _ _ _ _ _ _ _ _ Ha) as (Ka & _).
      assert (Hh2 : JsMap.has k m2 = true)
        by (unfold JsMap.has; now rewrite (Ka _ _ Hin1)).
      rewrite visitEntries_cons, (visitEntry_of_declared _ _ _ _ m2 Hd'), Hh2 in Hb.
      destruct (visitEntries_keeps _ _ _ _ _ _ _ _ _ _ Hb) as (_ & _ & _ & [lines ->]).
      apply in_or_app. left. apply in_or_app. right. now left.
Qed.

End ScanFacts.

(** ** The manager: what unsubscribing and closing leave behind *)

Section ManagerRelease.
Variable pathlib : PathApi.
Variable skillsDir : string.

Abbreviation reached ops := (run pathlib skillsDir ops createSubscriptionManager).

Lemma filter_none {A} (f : A -> bool) (l : list A) :
  (forall x, In x l -> f x = false) -> filter f l = [].
Proof.
  induction l as [|x l IH]; intros H; simpl; [reflexivity|].
  rewrite (H x) by now left. apply IH. intros y Hy. apply H. now right.
Qed.

Lemma delete_absent x s : ~ In x s -> JsSet.delete x s = s.
Proof.
  intros H. unfold JsSet.delete. apply forallb_filter_id.
  apply forallb_forall. intros y Hy. apply negb_true_iff, String.eqb_neq.
  intros ->. contradiction.
Qed.

Lemma delete_idem x s : JsSet.delete x (JsSet.delete x s) = JsSet.delete x s.
Proof.
  apply delete_absent. intros H. apply JsSetFacts.In_delete in H. now destruct H.
Qed.

(** X19: closing the manager releases everything, whatever happened
    before: no watcher stays open, no timeout stays pending, every table
    is empty; and nobody who does not subscribe again is notified
    afterwards, whatever events arrive and whatever timeouts fire. *)
Theorem close_releases_everything ops later uri :
  let st := close (reached ops) in
  forallb (fun op => negb (subscribes uri op)) later = true ->
  openWatchers st = [] /\ pendingTimers st = [] /\ subscribedUris st = [] /\
  uriToFilePaths st = [] /\ filePathToUris st = [] /\ watchers st = [] /\
  debounceTimers st = [] /\
  notifications uri (run pathlib skillsDir later st) = notifications uri (reached ops).
Proof.
  intros st Hlater.
  pose proof (run_ok pathlib skillsDir ops _ TimersOk_init) as Hok.
  destruct (run_watch pathlib skillsDir ops _ WatchOk_init) as [Hw _].
  split; [|split; [|repeat split]].
  - unfold st, close. cbn [openWatchers]. apply filter_none.
    intros [id p] Hin. apply negb_false_iff, existsb_exists.
    exists (p, id). split; [|apply Nat.eqb_refl].
    apply JsMapFacts.get_In. now apply (open_recorded _ Hw).
  - unfold st, close. cbn [pendingTimers]. apply filter_none.
    intros [t u] Hin. apply negb_false_iff, existsb_exists.
    exists (u, t). split; [|apply Nat.eqb_refl].
    apply JsMapFacts.get_In. now apply (pending_recorded _ Hok).
  - rewrite (unsubscribed_run pathlib skillsDir uri later st Hlater eq_refl).
    reflexivity.
Qed.

Lemma fold_unsubscribe_subscribed uris : forall st x,
  In x (subscribedUris (fold_left (fun st' uri => unsubscribe uri st') uris st))
  <-> In x (subscribedUris st) /\ ~ In x uris.
Proof.
  induction uris as [|u uris IH]; intros st x; simpl; [tauto|].
  rewrite IH. destruct (unsubscribe_frame u st) as [_ ->].
  rewrite JsSetFacts.In_delete. split.
  - intros [[Hne Hin] Hn]. split; [assumption|]. intros [E|H]; [congruence | auto].
  - intros [Hin Hn]. split; [split|]; [|assumption|]; intros H; apply Hn; auto.
Qed.

Lemma unsubscribeByPrefix_subscribed prefix st uri :
  In uri (subscribedUris (unsubscribeByPrefix prefix st)) <->
  In uri (subscribedUris st) /\ Js.startsWith uri prefix = false.
Proof.
  unfold unsubscribeByPrefix.
  rewrite fold_unsubscribe_subscribed, filter_In. split.
  - intros [Hin Hn]. split; [assumption|].
    destruct (Js.startsWith uri prefix); [exfalso; auto | reflexivity].
  - intros [Hin Hs]. split; [assumption|]. intros [_ H]. congruence.
Qed.

(** X20: after [unsubscribeByPrefix], nothing of the namespace stays
    behind. The subscribed URIs are those that were subscribed and do not
    start with the prefix; no timeout is pending for a URI that starts
    with it, and no path has such a URI among its dependents; nobody is
    notified by the call. *)
Theorem unsubscribeByPrefix_clears_namespace ops prefix :
  let st := reached ops in
  let st' := unsubscribeByPrefix prefix st in
  (forall uri, In uri (subscribedUris st') <->
               In uri (subscribedUris st) /\ Js.startsWith uri prefix = false) /\
  (forall t uri, In (t, uri) (pendingTimers st') -> Js.startsWith uri prefix = false) /\
  (forall p uri, In uri (dependents p st') -> Js.startsWith uri prefix = false) /\
  notified st' = notified st.
Proof.
  intros st st'.
  pose proof (unsubscribeByPrefix_subscribed prefix st) as Hsub. fold st' in Hsub.
  assert (Hok : TimersOk st')
    by (apply unsubscribeByPrefix_ok, (run_ok pathlib skillsDir ops _ TimersOk_init)).
  split; [exact Hsub|]. split; [|split].
  - intros t uri Hin. apply (pending_recorded _ Hok) in Hin.
    apply (recorded_subscribed _ Hok) in Hin. now apply Hsub in Hin.
  - intros p uri Hin. unfold dependents in Hin.
    destruct (JsMap.get p (filePathToUris st')) as [us|] eqn:Eg; [|destruct Hin].
    apply (dependent_subscribed _ Hok _ _ _ Eg) in Hin. now apply Hsub in Hin.
  - unfold st', unsubscribeByPrefix. apply fold_unsubscribe_frame.
Qed.

Lemma releasePath_dependents uri p st q :
  dependents q (releasePath uri p st)
  = if String.eqb p q then JsSet.delete uri (dependents q st) else dependents q st.
Proof.
  unfold dependents. rewrite releasePath_get.
  destruct (String.eqb p q) eqn:E; [|reflexivity].
  apply String.eqb_eq in E. subst q.
  destruct (JsMap.get p (filePathToUris st)) as [us|]; [|reflexivity].
  now destruct (JsSet.delete uri us).
Qed.

Lemma fold_releasePath_dependents uri q paths : forall st,
  dependents q (fold_left (fun st' p => releasePath uri p st') paths st)
  = if existsb (fun p => String.eqb p q) paths
    then JsSet.delete uri (dependents q st) else dependents q st.
Proof.
  induction paths as [|p paths IH]; intros st; simpl; [reflexivity|].
  rewrite IH, releasePath_dependents.
  destruct (String.eqb p q); simpl.
  - rewrite delete_idem. now destruct (existsb (fun p0 => String.eqb p0 q) paths).
  - reflexivity.
Qed.

(** X21: unsubscribing a URI takes that URI, and nothing else, out of
    the dependents of every path: the dependencies of the other URIs on
    paths they share with it are kept. *)
Theorem unsubscribe_keeps_other_dependents ops uri p :
  let st := reached ops in
  dependents p (unsubscribe uri st) = JsSet.delete uri (dependents p st).
Proof.
  intros st.
  pose proof (run_ok pathlib skillsDir ops _ TimersOk_init) as Hok. fold st in Hok.
  assert (Hdep : In uri (dependents p st) ->
                 In uri (subscribedUris st) /\
                 exists l, JsMap.get uri (uriToFilePaths st) = Some l /\ In p l).
  { intros Hin. unfold dependents in Hin.
    destruct (JsMap.get p (filePathToUris st)) as [us|] eqn:Eg; [|destruct Hin].
    split; [exact (dependent_subscribed _ Hok _ _ _ Eg Hin)|].
    exact (dependent_has_path _ Hok _ _ _ Eg Hin). }
  unfold unsubscribe.
  destruct (JsSet.has uri (subscribedUris st)) eqn:Eh; cbn [negb].
  - set (st1 := with_subscribedUris (JsSet.delete uri) st).
    set (st2 := match JsMap.get uri (debounceTimers st1) with
                | Some timer => deleteDebounceTimer uri (clearTimeout timer st1)
                | None => st1
                end).
    assert (H2 : filePathToUris st2 = filePathToUris st /\
                 uriToFilePaths st2 = uriToFilePaths st)
      by (unfold st2; destruct (JsMap.get uri (debounceTimers st1)); split; reflexivity).
    destruct H2 as [F2 U2].
    assert (D2 : dependents p st2 = dependents p st)
      by (unfold dependents; now rewrite F2).
    rewrite U2.
    destruct (JsMap.get uri (uriToFilePaths st)) as [paths|] eqn:Eu.
    + change (dependents p (with_uriToFilePaths (JsMap.delete uri) ?s))
        with (dependents p s).
      rewrite fold_releasePath_dependents, D2.
      destruct (existsb (fun p0 => String.eqb p0 p) paths) eqn:Ex; [reflexivity|].
      symmetry. apply delete_absent. intros Hin.
      destruct (Hdep Hin) as (_ & l & [= <-] & Hp).
      assert (existsb (fun p0 => String.eqb p0 p) paths = true)
        by (apply existsb_exists; exists p; split;
            [assumption | apply String.eqb_refl]).
      congruence.
    + rewrite D2. symmetry. apply delete_absent. intros Hin.
      destruct (Hdep Hin) as (_ & l & [=] & _).
  - symmetry. apply delete_absent. intros Hin.
    destruct (Hdep Hin) as [Hs _]. apply JsSetFacts.has_In in Hs. congruence.
Qed.

End ManagerRelease.

(** ** The reconciliation: the names of the catalog and the subscriptions *)

Module ReconcileFacts.
Import Index.

Lemma dropIfRemoved_get newSkillMap srv n k :
  JsMap.get k (skillMap (dropIfRemoved newSkillMap srv n))
  = if negb (JsMap.has n newSkillMap) && String.eqb n k then None
    else JsMap.get k (skillMap srv).
Proof.
  unfold dropIfRemoved. destruct (JsMap.has n newSkillMap); cbn [negb andb];
    [reflexivity|].
  destruct (JsMap.get n (resourceHandles srv)) as [[h1 h2]|]; cbn [skillMap];
    (destruct (String.eqb n k) eqn:E;
     [apply String.eqb_eq in E; subst k; apply JsMapFacts.get_delete_same
     |apply String.eqb_neq in E; now apply JsMapFacts.get_delete_other]).
Qed.

Lemma fold_dropIfRemoved_get newSkillMap names k : forall srv,
  JsMap.get k (skillMap (fold_left (dropIfRemoved newSkillMap) names srv))
  = if negb (JsMap.has k newSkillMap) && existsb (fun n => String.eqb n k) names
    then None else JsMap.get k (skillMap srv).
Proof.
  induction names as [|n names IH]; intros srv; cbn [fold_left existsb].
  - now rewrite andb_false_r.
  - rewrite IH, dropIfRemoved_get.
    destruct (String.eqb n k) eqn:E.
    + apply String.eqb_eq in E. subst n.
      destruct (JsMap.has k newSkillMap); cbn [negb andb orb];
        [reflexivity | now destruct (existsb _ names)].
    + rewrite andb_false_r. reflexivity.
Qed.

Lemma addIfNew_get srv n v k :
  JsMap.get k (skillMap (addIfNew srv (n, v)))
  = match JsMap.get k (skillMap srv) with
    | Some old => Some old
    | None => if String.eqb k n then Some v else None
    end.
Proof.
  unfold addIfNew, registerSkillResources, JsMap.has.
  destruct (JsMap.get n (skillMap srv)) as [u|] eqn:En; cbn [skillMap].
  - destruct (JsMap.get k (skillMap srv)) eqn:Ek; [reflexivity|].
    destruct (String.eqb k n) eqn:E; [|reflexivity].
    apply String.eqb_eq in E. congruence.
  - destruct (String.eqb k n) eqn:E.
    + apply String.eqb_eq in E. subst k.
      now rewrite JsMapFacts.get_set_same, En.
    + apply String.eqb_neq in E.
      rewrite JsMapFacts.get_set_other by congruence.
      now destruct (JsMap.get k (skillMap srv)).
Qed.

Lemma fold_addIfNew_get entries k : forall srv,
  JsMap.get k (skillMap (fold_left addIfNew entries srv))
  = match JsMap.get k (skillMap srv) with
    | Some old => Some old
    | None => JsMap.get k entries
    end.
Proof.
  induction entries as [|[n v] entries IH]; intros srv; cbn [fold_left JsMap.get].
  - now destruct (JsMap.get k (skillMap srv)).
  - rewrite IH, addIfNew_get.
    destruct (JsMap.get k (skillMap srv)); [reflexivity|].
    now destruct (String.eqb k n).
Qed.

Lemma reconcile_get newSkillMap srv k :
  JsMap.get k (skillMap (reconcile newSkillMap srv))
  = if JsMap.has k newSkillMap
    then match JsMap.get k (skillMap srv) with
         | Some old => Some old
         | None => JsMap.get k newSkillMap
         end
    else None.
Proof.
  unfold reconcile. cbn [skillMap].
  rewrite fold_addIfNew_get, fold_dropIfRemoved_get.
  unfold JsMap.has.
  destruct (JsMap.get k newSkillMap) as [v|] eqn:En; cbn [negb andb]; [reflexivity|].
  destruct (existsb (fun n => String.eqb n k) (JsMap.keys (skillMap srv))) eqn:Ex;
    [reflexivity|].
  destruct (JsMap.get k (skillMap srv)) as [old|] eqn:Eo; [|reflexivity].
  assert (Hin : In k (JsMap.keys (skillMap srv)))
    by (apply JsMapFacts.has_In_keys; unfold JsMap.has; now rewrite Eo).
  assert (existsb (fun n => String.eqb n k) (JsMap.keys (skillMap srv)) = true)
    by (apply existsb_exists; exists k; split; [assumption | apply String.eqb_refl]).
  congruence.
Qed.

(** X25: after the reconciliation the catalog holds exactly the names of
    the new scan; and a name the catalog did not hold is filed with the
    unit the scan found for it. *)
Theorem reconcile_names_follow_scan newSkillMap srv k :
  JsMap.has k (skillMap (reconcile newSkillMap srv)) = JsMap.has k newSkillMap /\
  (JsMap.has k (skillMap srv) = false ->
   JsMap.get k (skillMap (reconcile newSkillMap srv)) = JsMap.get k newSkillMap).
Proof.
  split.
  - unfold JsMap.has at 1. rewrite reconcile_get. unfold JsMap.has.
    destruct (JsMap.get k newSkillMap); [|reflexivity].
    now destruct (JsMap.get k (skillMap srv)).
  - intros H. rewrite reconcile_get. unfold JsMap.has in *.
    destruct (JsMap.get k (skillMap srv)); [discriminate|].
    now destruct (JsMap.get k newSkillMap).
Qed.

Lemma fold_addIfNew_subscriptions entries : forall srv,
  subscriptions (fold_left addIfNew entries srv) = subscriptions srv.
Proof.
  induction entries as [|[n v] entries IH]; intros srv; cbn [fold_left];
    [reflexivity|].
  rewrite IH. unfold addIfNew, registerSkillResources.
  now destruct (JsMap.has n (skillMap srv)).
Qed.

Lemma dropIfRemoved_subscriptions newSkillMap srv n :
  subscriptions (dropIfRemoved newSkillMap srv n)
  = if JsMap.has n newSkillMap then subscriptions srv
    else unsubscribeByPrefix ("skill://" +++ n +++ "/") (subscriptions srv).
Proof.
  unfold dropIfRemoved. destruct (JsMap.has n newSkillMap); [reflexivity|].
  now destruct (JsMap.get n (resourceHandles srv)) as [[h1 h2]|].
Qed.

Lemma fold_dropIfRemoved_subscriptions newSkillMap names uri : forall srv,
  In uri (subscribedUris (subscriptions (fold_left (dropIfRemoved newSkillMap) names srv)))
  <-> In uri (subscribedUris (subscriptions srv)) /\
      forall n, In n names -> JsMap.has n newSkillMap = false ->
                Js.startsWith uri ("skill://" +++ n +++ "/") = false.
Proof.
  induction names as [|n names IH]; intros srv; cbn [fold_left].
  - split; [intros H; split; [assumption | intros n []] | tauto].
  - rewrite IH, dropIfRemoved_subscriptions.
    destruct (JsMap.has n newSkillMap) eqn:En.
    + split; intros [H1 H2]; (split; [assumption|]).
      * intros m [<-|Hm] Hh; [congruence | auto].
      * intros m Hm. apply H2. now right.
    + rewrite unsubscribeByPrefix_subscribed. split.
      * intros [[H1 H2] H3]. split; [assumption|].
        intros m [<-|Hm] Hh; [assumption | auto].
      * intros [H1 H2]. split; [split; [assumption|]|].
        -- apply H2; [now left | assumption].
        -- intros m Hm. apply H2. now right.
Qed.

(** X26: the reconciliation drops the subscriptions under the
    namespace of every skill that has gone, and no other: a URI is
    subscribed afterwards exactly when it was subscribed before and starts
    with the prefix of no skill that the catalog held and the new scan
    does not hold. *)
Theorem reconcile_subscriptions newSkillMap srv uri :
  In uri (subscribedUris (subscriptions (reconcile newSkillMap srv))) <->
  In uri (subscribedUris (subscriptions srv)) /\
  forall n, JsMap.has n (skillMap srv) = true -> JsMap.has n newSkillMap = false ->
            Js.startsWith uri ("skill://" +++ n +++ "/") = false.
Proof.
  unfold reconcile. cbn [subscriptions].
  rewrite fold_addIfNew_subscriptions, fold_dropIfRemoved_subscriptions.
  split; intros [H1 H2]; (split; [assumption|]); intros n Hn; apply H2.
  - now apply JsMapFacts.has_In_keys.
  - now apply JsMapFacts.has_In_keys in Hn.
Qed.

End ReconcileFacts.

(** ** The manager: one timeout per URI, and what it does when it fires *)

Section TimerIdentity.
Variable pathlib : PathApi.
Variable skillsDir : string.

Abbreviation reached ops := (run pathlib skillsDir ops createSubscriptionManager).

Lemma TimerIds_init : TimerIds createSubscriptionManager.
Proof. split; simpl; [constructor | discriminate..]. Qed.

Lemma TimerIds_same a b :
  debounceTimers a = debounceTimers b -> pendingTimers a = pendingTimers b ->
  nextTimer a = nextTimer b -> TimerIds a -> TimerIds b.
Proof. intros E1 E2 E3 [I1 I3 I4]. split; rewrite <- ?E1, <- ?E2, <- ?E3; auto. Qed.

Lemma pending_below st t u :
  TimersOk st -> TimerIds st -> In (t, u) (pendingTimers st) -> t < nextTimer st.
Proof.
  intros Hok Hids Hin. apply (recorded_below _ Hids u).
  now apply (pending_recorded _ Hok).
Qed.

Lemma find_unique (l : list (Timeout * string)) t u :
  NoDup (map fst l) -> In (t, u) l ->
  find (fun tu => Nat.eqb (fst tu) t) l = Some (t, u).
Proof.
  intros Hnd Hin.
  destruct (find (fun tu => Nat.eqb (fst tu) t) l) as [[t' u']|] eqn:Ef.
  - apply find_some in Ef. destruct Ef as [Hin' E]. simpl in E.
    apply Nat.eqb_eq in E. subst t'.
    now rewrite (NoDup_fst_unique l t u u' Hnd Hin Hin').
  - apply (find_none _ _ Ef) in Hin. simpl in Hin. now rewrite Nat.eqb_refl in Hin.
Qed.

(** What one pass of the debounce does to the timers. *)
Lemma debounce_timers u st :
  TimersOk st -> TimerIds st ->
  TimerIds (debounce u st) /\
  nextTimer (debounce u st) = S (nextTimer st) /\
  In (nextTimer st, u) (pendingTimers (debounce u st)) /\
  JsMap.get u (debounceTimers (debounce u st)) = Some (nextTimer st) /\
  (forall t u', u' <> u ->
     (In (t, u') (pendingTimers (debounce u st)) <-> In (t, u') (pendingTimers st))) /\
  (forall u', u' <> u ->
     JsMap.get u' (debounceTimers (debounce u st)) = JsMap.get u' (debounceTimers st)).
Proof.
  intros Hok Hids. pose proof Hids as [I1 I3 I4].
  assert (G : forall st1,
             debounceTimers st1 = debounceTimers st ->
             nextTimer st1 = nextTimer st ->
             NoDup (map fst (pendingTimers st1)) ->
             (forall x, In x (pendingTimers st1) -> In x (pendingTimers st)) ->
             (forall t u', u' <> u -> In (t, u') (pendingTimers st) ->
                           In (t, u') (pendingTimers st1)) ->
             TimerIds (setDebounceTimer u st1) /\
             nextTimer (setDebounceTimer u st1) = S (nextTimer st) /\
             In (nextTimer st, u) (pendingTimers (setDebounceTimer u st1)) /\
             JsMap.get u (debounceTimers (setDebounceTimer u st1)) = Some (nextTimer st) /\
             (forall t u', u' <> u ->
                (In (t, u') (pendingTimers (setDebounceTimer u st1))
                 <-> In (t, u') (pendingTimers st))) /\
             (forall u', u' <> u ->
                JsMap.get u' (debounceTimers (setDebounceTimer u st1))
                = JsMap.get u' (debounceTimers st))).
  { intros st1 Em En Hnd Hsub Hkeep. unfold setDebounceTimer.
    cbn [pendingTimers debounceTimers nextTimer]. rewrite Em, En.
    split; [split|split; [|split; [|split; [|split]]]].
    - cbn [pendingTimers]. rewrite map_app.
      apply NoDup_app; [assumption | repeat constructor; simpl; tauto |].
      intros x Hx [<-|[]]. apply in_map_iff in Hx. destruct Hx as ([t0 u0] & E & Hx).
      simpl in E. subst t0. apply Hsub in Hx.
      pose proof (pending_below st _ _ Hok Hids Hx). lia.
    - cbn [debounceTimers nextTimer]. intros u' t Hg.
      destruct (string_dec u u') as [<-|Hne].
      + rewrite JsMapFacts.get_set_same in Hg. injection Hg as <-. lia.
      + rewrite JsMapFacts.get_set_other in Hg by assumption.
        pose proof (I3 _ _ Hg). lia.
    - cbn [debounceTimers]. intros u1 u2 t H1 H2.
      destruct (string_dec u u1) as [<-|N1], (string_dec u u2) as [<-|N2];
        [reflexivity| | |].
      + rewrite JsMapFacts.get_set_same in H1. injection H1 as <-.
        rewrite JsMapFacts.get_set_other in H2 by assumption.
        pose proof (I3 _ _ H2). lia.
      + rewrite JsMapFacts.get_set_same in H2. injection H2 as <-.
        rewrite JsMapFacts.get_set_other in H1 by assumption.
        pose proof (I3 _ _ H1). lia.
      + rewrite JsMapFacts.get_set_other in H1, H2 by assumption.
        exact (I4 _ _ _ H1 H2).
    - reflexivity.
    - apply in_or_app. right. now left.
    - apply JsMapFacts.get_set_same.
    - intros t u' Hne. split.
      + intros H. apply in_app_or in H. destruct H as [H|[[= <- <-]|[]]];
          [now apply Hsub | congruence].
      + intros H. apply in_or_app. left. now apply Hkeep.
    - intros u' Hne. apply JsMapFacts.get_set_other. congruence. }
  unfold debounce.
  destruct (JsMap.get u (debounceTimers st)) as [existing|] eqn:Eg.
  - apply G; try reflexivity; cbn [clearTimeout pendingTimers].
    + now apply NoDup_map_fst_filter.
    + intros x Hx. apply filter_In in Hx. tauto.
    + intros t u' Hne Hin. apply filter_In. split; [assumption|].
      cbn [fst]. apply negb_true_iff, Nat.eqb_neq. intros ->.
      apply (pending_recorded _ Hok) in Hin. apply Hne. exact (I4 _ _ _ Hin Eg).
  - apply G; auto.
Qed.

Lemma clearDelete_ids u t st :
  TimerIds st -> TimerIds (deleteDebounceTimer u (clearTimeout t st)).
Proof.
  intros [I1 I3 I4]. split; cbn [deleteDebounceTimer clearTimeout pendingTimers
                                 debounceTimers nextTimer].
  - now apply NoDup_map_fst_filter.
  - intros u' t' Hg. destruct (string_dec u u') as [<-|Hne].
    + now rewrite JsMapFacts.get_delete_same in Hg.
    + rewrite JsMapFacts.get_delete_other in Hg by assumption. eauto.
  - intros u1 u2 t' H1 H2.
    destruct (string_dec u u1) as [<-|N1];
      [now rewrite JsMapFacts.get_delete_same in H1|].
    destruct (string_dec u u2) as [<-|N2];
      [now rewrite JsMapFacts.get_delete_same in H2|].
    rewrite JsMapFacts.get_delete_other in H1, H2 by assumption. eauto.
Qed.

Lemma timerFires_ids t st : TimerIds st -> TimerIds (timerFires t st).
Proof.
  intros Hids. unfold timerFires.
  destruct (find (fun tu => Nat.eqb (fst tu) t) (pendingTimers st)) as [[t' u]|];
    [|assumption].
  pose proof (clearDelete_ids u t st Hids) as G.
  match goal with |- context [if ?c then _ else _] => destruct c end; [|exact G].
  revert G. apply TimerIds_same; reflexivity.
Qed.

Lemma unsubscribe_ids uri st : TimerIds st -> TimerIds (unsubscribe uri st).
Proof.
  intros Hids. unfold unsubscribe.
  destruct (JsSet.has uri (subscribedUris st)); cbn [negb]; [|assumption].
  set (st1 := with_subscribedUris (JsSet.delete uri) st).
  set (st2 := match JsMap.get uri (debounceTimers st1) with
              | Some timer => deleteDebounceTimer uri (clearTimeout timer st1)
              | None => st1
              end).
  assert (H1 : TimerIds st1) by (revert Hids; apply TimerIds_same; reflexivity).
  assert (H2 : TimerIds st2)
    by (unfold st2; destruct (JsMap.get uri (debounceTimers st1));
        [now apply clearDelete_ids | assumption]).
  destruct (JsMap.get uri (uriToFilePaths st2)) as [paths|]; [|assumption].
  destruct (fold_releasePath_frame uri paths st2) as ((E1 & E2 & E3 & _) & _).
  revert H2. apply TimerIds_same; assumption.
Qed.

Lemma fold_unsubscribe_ids uris : forall st,
  TimerIds st -> TimerIds (fold_left (fun st' uri => unsubscribe uri st') uris st).
Proof.
  induction uris as [|u uris IH]; intros st H; simpl; [assumption|].
  apply IH. now apply unsubscribe_ids.
Qed.

Lemma close_ids st : TimerIds st -> TimerIds (close st).
Proof.
  intros [I1 I3 I4]. split; cbn [close pendingTimers debounceTimers nextTimer].
  - now apply NoDup_map_fst_filter.
  - discriminate.
  - discriminate.
Qed.

Lemma subscribe_ids w uri st :
  TimerIds st -> TimerIds (snd (subscribe pathlib skillsDir w uri st)).
Proof.
  intros Hids. unfold subscribe.
  destruct (JsSet.has uri (subscribedUris st)); [assumption|].
  destruct (resolveUriToFilePaths pathlib (disk w) uri (skillMap w) skillsDir)
    as [|p paths]; [revert Hids; apply TimerIds_same; reflexivity|].
  match goal with
  | |- TimerIds (snd (subscribePaths ?w ?u ?ps ?s)) =>
      destruct (subscribePaths_frame w u ps s) as ((E1 & E2 & E3 & _) & _)
  end.
  revert Hids. apply TimerIds_same; [rewrite <- E1 | rewrite <- E2 | rewrite <- E3];
    reflexivity.
Qed.

Section Loop.
Variable P : Manager -> Prop.
Hypothesis P_debounce : forall u st,
  TimersOk st -> TimerIds st -> In u (subscribedUris st) -> P st -> P (debounce u st).

Lemma fold_debounce_good uris : forall st,
  TimersOk st -> TimerIds st -> P st ->
  (forall u, In u uris -> In u (subscribedUris st)) ->
  let st' := fold_left (fun st'' uri => debounce uri st'') uris st in
  TimersOk st' /\ TimerIds st' /\ P st' /\ subscribedUris st' = subscribedUris st.
Proof.
  induction uris as [|u uris IH]; intros st Hok Hids HP Hs; simpl; [auto|].
  assert (Hu : In u (subscribedUris st)) by (apply Hs; now left).
  destruct (debounce_tables u st) as (E & _).
  destruct (IH (debounce u st)) as (A & B & C & D).
  - now apply debounce_ok.
  - now apply debounce_timers.
  - now apply P_debounce.
  - intros u' Hu'. rewrite <- E. apply Hs. now right.
  - split; [|split; [|split]]; try assumption. congruence.
Qed.

Lemma changeLoop_good changedPath entries : forall st,
  TimersOk st -> TimerIds st -> P st ->
  (forall p us u, In (p, us) entries -> In u us -> In u (subscribedUris st)) ->
  let st' := changeLoop changedPath entries st in
  TimersOk st' /\ TimerIds st' /\ P st' /\ subscribedUris st' = subscribedUris st.
Proof.
  induction entries as [|[p us] entries IH]; intros st Hok Hids HP Hs; [simpl; auto|].
  cbn [changeLoop fold_left].
  change (fold_left _ entries ?s) with (changeLoop changedPath entries s).
  destruct (pathMatches changedPath p); cbn [negb].
  - destruct (fold_debounce_good us st Hok Hids HP) as (A & B & C & D).
    { intros u Hu. apply (Hs p us); [now left | assumption]. }
    destruct (IH _ A B C) as (A' & B' & C' & D').
    { intros q qs u Hq Hu. rewrite D. apply (Hs q qs); [now right | assumption]. }
    split; [|split; [|split]]; try assumption. congruence.
  - apply IH; try assumption.
    intros q qs u Hq Hu. apply (Hs q qs); [now right | assumption].
Qed.

End Loop.

Lemma onFileChange_loop changedPath st :
  onFileChange changedPath st = changeLoop changedPath (filePathToUris st) st.
Proof. reflexivity. Qed.

Lemma entries_subscribed st :
  TimersOk st ->
  forall p us u, In (p, us) (filePathToUris st) -> In u us -> In u (subscribedUris st).
Proof.
  intros Hok p us u Hin Hu. apply (dependent_subscribed _ Hok p us); [|assumption].
  apply JsMapFacts.In_get; [apply (paths_unique _ Hok) | assumption].
Qed.

Lemma onFileChange_ids changedPath st :
  TimersOk st -> TimerIds st -> TimerIds (onFileChange changedPath st).
Proof.
  intros Hok Hids. rewrite onFileChange_loop.
  apply (changeLoop_good (fun _ => True) (fun _ _ _ _ _ _ => I) changedPath
           (filePathToUris st) st Hok Hids I (entries_subscribed st Hok)).
Qed.

Lemma step_ids op st :
  TimersOk st -> TimerIds st -> TimerIds (snd (step pathlib skillsDir op st)).
Proof.
  intros Hok Hids. destruct op as [w uri|uri|prefix| |changedPath|t]; cbn [step snd].
  - now apply subscribe_ids.
  - now apply unsubscribe_ids.
  - unfold unsubscribeByPrefix. now apply fold_unsubscribe_ids.
  - now apply close_ids.
  - now apply onFileChange_ids.
  - now apply timerFires_ids.
Qed.

Lemma run_ids ops : forall st,
  TimersOk st -> TimerIds st -> TimerIds (run pathlib skillsDir ops st).
Proof.
  induction ops as [|op ops IH]; intros st Hok Hids; [assumption|].
  cbn [run fold_left].
  change (fold_left _ ops ?s) with (run pathlib skillsDir ops s).
  apply IH; [now apply step_ok | now apply step_ids].
Qed.

Lemma reached_good ops : TimersOk (reached ops) /\ TimerIds (reached ops).
Proof.
  split; [apply run_ok, TimersOk_init | apply run_ids; [apply TimersOk_init|]].
  apply TimerIds_init.
Qed.

(** X22: whatever happened, at most one timeout is pending for a URI; it
    is the one the manager records for that URI, and the URI is
    subscribed. *)
Theorem one_pending_timer_per_uri ops uri :
  let st := reached ops in
  length (filter (fun tu => String.eqb (snd tu) uri) (pendingTimers st)) <= 1 /\
  forall t, In (t, uri) (pendingTimers st) ->
            JsMap.get uri (debounceTimers st) = Some t /\ In uri (subscribedUris st).
Proof.
  intros st. destruct (reached_good ops) as [Hok Hids]. fold st in Hok, Hids.
  split.
  - apply NoDup_all_equal.
    + apply NoDup_filter, NoDup_of_map_fst, (pending_distinct _ Hids).
    + intros [t1 u1] [t2 u2] H1 H2. apply filter_In in H1, H2.
      destruct H1 as [H1 E1], H2 as [H2 E2]. cbn [snd] in E1, E2.
      apply String.eqb_eq in E1, E2. subst u1 u2.
      apply (pending_recorded _ Hok) in H1, H2. congruence.
  - intros t Hin. apply (pending_recorded _ Hok) in Hin. split; [assumption|].
    exact (recorded_subscribed _ Hok _ _ Hin).
Qed.

Lemma timerFires_notifies st t uri :
  TimersOk st -> TimerIds st ->
  In (t, uri) (pendingTimers st) ->
  notified (timerFires t st) = notified st ++ [uri] /\
  (forall t', ~ In (t', uri) (pendingTimers (timerFires t st))) /\
  JsMap.get uri (debounceTimers (timerFires t st)) = None /\
  forall t' u, u <> uri ->
    (In (t', u) (pendingTimers (timerFires t st)) <-> In (t', u) (pendingTimers st)).
Proof.
  intros Hok Hids Hin.
  pose proof (pending_distinct _ Hids) as Hnd.
  pose proof (pending_recorded _ Hok _ _ Hin) as Hrec.
  assert (Hsub : JsSet.has uri (subscribedUris st) = true)
    by (apply JsSetFacts.has_In, (recorded_subscribed _ Hok _ _ Hrec)).
  unfold timerFires. rewrite (find_unique _ t uri Hnd Hin).
  cbn [deleteDebounceTimer clearTimeout subscribedUris]. rewrite Hsub.
  cbn [notifyCallback notified pendingTimers debounceTimers].
  split; [reflexivity|]. split; [|split].
  - intros t' H. apply filter_In in H. destruct H as [H Hne]. cbn [fst] in Hne.
    apply (pending_recorded _ Hok) in H. rewrite Hrec in H. injection H as <-.
    now rewrite Nat.eqb_refl in Hne.
  - apply JsMapFacts.get_delete_same.
  - intros t' u Hne. unfold deleteDebounceTimer, clearTimeout. cbn [pendingTimers].
    rewrite filter_In. cbn [fst]. split; [tauto|].
    intros H. split; [assumption|]. apply negb_true_iff, Nat.eqb_neq. intros ->.
    apply Hne. exact (NoDup_fst_unique _ t u uri Hnd H Hin).
Qed.

(** X23: a pending timeout that fires always notifies, and exactly
    once: the callback of its URI is called, the URI has no timeout left
    and no timer recorded, and the timeouts of the other URIs stay as
    they are. *)
Theorem pending_timer_notifies_once ops t uri :
  let st := reached ops in
  In (t, uri) (pendingTimers st) ->
  let st' := timerFires t st in
  notified st' = notified st ++ [uri] /\
  (forall t', ~ In (t', uri) (pendingTimers st')) /\
  JsMap.get uri (debounceTimers st') = None /\
  forall t' u, u <> uri ->
    (In (t', u) (pendingTimers st') <-> In (t', u) (pendingTimers st)).
Proof.
  intros st Hin st'. destruct (reached_good ops) as [Hok Hids].
  exact (timerFires_notifies st t uri Hok Hids Hin).
Qed.





End TimerIdentity.

(** ** The manager: a watch the system refuses *)

Section WatchFailure.
Variable pathlib : PathApi.
Variable skillsDir : string.




End WatchFailure.

(** ** The resolver and the watchers: which paths are watched *)

Section WatchedPaths.
Variable pathlib : PathApi.
Variable skillsDir : string.

Abbreviation reached ops := (run pathlib skillsDir ops createSubscriptionManager).

(** X27: whatever the URI, the resolver returns nothing but paths of
    the catalog and paths that passed the boundary check. For the
    aggregate URI these are the definition files of the catalog; any other
    URI that resolves has the shape of the scheme, names a skill of the
    catalog and resolves to one path: the definition file of the skill,
    its directory, or a path joined to its directory that lies within the
    base. *)
Theorem resolveUriToFilePaths_safe fs uri skillMap p :
  In p (resolveUriToFilePaths pathlib fs uri skillMap skillsDir) ->
  (uri = "skill://prompt-xml" /\
   exists skill, In skill (JsMap.values skillMap) /\ p = path skill) \/
  (exists n rest skill,
     uri = "skill://" +++ n +++ "/" +++ rest /\
     JsMap.get n skillMap = Some skill /\
     resolveUriToFilePaths pathlib fs uri skillMap skillsDir = [p] /\
     (p = path skill \/ p = skillDir skill \/
      (p = join pathlib (skillDir skill) rest /\
       isPathWithinBase pathlib fs p skillsDir = true))).
Proof.
  unfold resolveUriToFilePaths.
  destruct (String.eqb uri "skill://prompt-xml") eqn:Ea.
  - intros Hin. left. apply String.eqb_eq in Ea. split; [assumption|].
    apply in_map_iff in Hin. destruct Hin as (skill & <- & Hs). eauto.
  - destruct (matchSkillUri uri) as [[n rest]|] eqn:Em; [|intros []].
    destruct (matchSkillUri_Some _ _ _ Em) as (Huri & _ & _).
    destruct (JsMap.get n skillMap) as [skill|] eqn:Eg; [|intros []].
    intros Hin. right. exists n, rest, skill.
    split; [assumption|]. split; [exact Eg|].
    destruct (String.eqb rest "SKILL.md");
      [destruct Hin as [<-|[]]; auto|].
    destruct (String.eqb rest "_manifest");
      [destruct Hin as [<-|[]]; auto|].
    cbv zeta in *.
    destruct (isPathWithinBase pathlib fs (join pathlib (skillDir skill) rest) skillsDir)
      eqn:Ew; cbn [negb] in *; [|destruct Hin].
    destruct Hin as [<-|[]]. auto.
Qed.

Lemma removeWatcher_open p st x :
  In x (openWatchers (removeWatcher p st)) -> In x (openWatchers st).
Proof.
  unfold removeWatcher. destruct (JsMap.get p (watchers st)); [|auto].
  cbn [openWatchers]. intros H. apply filter_In in H. tauto.
Qed.

Lemma releasePath_open uri p st x :
  In x (openWatchers (releasePath uri p st)) -> In x (openWatchers st).
Proof.
  unfold releasePath. destruct (JsMap.get p (filePathToUris st)) as [us|]; [|auto].
  destruct (JsSet.delete uri us); [|auto].
  intros H. now apply removeWatcher_open in H.
Qed.

Lemma fold_releasePath_open uri paths x : forall st,
  In x (openWatchers (fold_left (fun st' p => releasePath uri p st') paths st)) ->
  In x (openWatchers st).
Proof.
  induction paths as [|p paths IH]; intros st H; [assumption|].
  apply IH in H. now apply releasePath_open in H.
Qed.

Lemma unsubscribe_open uri st x :
  In x (openWatchers (unsubscribe uri st)) -> In x (openWatchers st).
Proof.
  unfold unsubscribe. destruct (JsSet.has uri (subscribedUris st)); cbn [negb]; [|auto].
  set (st1 := with_subscribedUris (JsSet.delete uri) st).
  set (st2 := match JsMap.get uri (debounceTimers st1) with
              | Some timer => deleteDebounceTimer uri (clearTimeout timer st1)
              | None => st1
              end).
  assert (E : openWatchers st2 = openWatchers st)
    by (unfold st2; now destruct (JsMap.get uri (debounceTimers st1))).
  destruct (JsMap.get uri (uriToFilePaths st2)) as [paths|]; [|now rewrite E].
  cbn [with_uriToFilePaths openWatchers]. intros H.
  apply fold_releasePath_open in H. now rewrite E in H.
Qed.

Lemma fold_unsubscribe_open uris x : forall st,
  In x (openWatchers (fold_left (fun st' uri => unsubscribe uri st') uris st)) ->
  In x (openWatchers st).
Proof.
  induction uris as [|u uris IH]; intros st H; [assumption|].
  apply IH in H. now apply unsubscribe_open in H.
Qed.

Lemma subscribePaths_open w uri paths x : forall st,
  In x (openWatchers (snd (subscribePaths w uri paths st))) ->
  In x (openWatchers st) \/ In (snd x) paths.
Proof.
  induction paths as [|p paths IH]; intros st; [auto|].
  cbn [subscribePaths].
  match goal with
  | |- context [ensureWatcher w p ?s] => set (st1 := s)
  end.
  assert (H1 : forall y, In y (openWatchers (snd (ensureWatcher w p st1))) ->
                         In y (openWatchers st) \/ snd y = p).
  { intros y. unfold ensureWatcher.
    destruct (JsMap.has p (watchers st1)); [auto|].
    cbn [snd openWatchers]. intros H. apply in_app_or in H.
    destruct H as [H|[<-|[]]]; auto. }
  destruct (ensureWatcher w p st1) as [[[]|e] st2]; cbn [snd] in *.
  - intros H. apply IH in H. destruct H as [H|H]; [|right; now right].
    apply H1 in H. destruct H as [H|H]; [auto | right; now left].
  - intros H. apply H1 in H. destruct H as [H|H]; [auto | right; now left].
Qed.

Lemma step_open op st x :
  In x (openWatchers (snd (step pathlib skillsDir op st))) ->
  In x (openWatchers st) \/
  exists w uri, op = Subscribe w uri /\
                In (snd x) (resolveUriToFilePaths pathlib (disk w) uri (skillMap w)
                                                  skillsDir).
Proof.
  destruct op as [w uri|uri|prefix| |changedPath|t]; cbn [step snd].
  - unfold subscribe. destruct (JsSet.has uri (subscribedUris st)); [auto|].
    destruct (resolveUriToFilePaths pathlib (disk w) uri (skillMap w) skillsDir)
      as [|p paths] eqn:Er; [auto|].
    intros H. apply subscribePaths_open in H. destruct H as [H|H]; [auto|].
    right. exists w, uri. split; [reflexivity | now rewrite Er].
  - intros H. left. now apply unsubscribe_open in H.
  - intros H. left. unfold unsubscribeByPrefix in H. now apply fold_unsubscribe_open in H.
  - intros H. left. unfold close in H. cbn [openWatchers] in H.
    apply filter_In in H. tauto.
  - destruct (onFileChange_tables changedPath st) as ((_ & _ & _ & _ & E & _) & _).
    rewrite <- E. auto.
  - destruct (timerFires_tables t st) as (_ & _ & _ & _ & E & _).
    rewrite <- E. auto.
Qed.

(** X28: every watcher that is open was asked for by a subscription: its
    path is one of the paths the resolver returned for a URI that has been
    subscribed. No event, timeout or removal opens a watcher. *)
Theorem watchers_on_resolved_paths ops id p :
  In (id, p) (openWatchers (reached ops)) ->
  exists w uri,
    In (Subscribe w uri) ops /\
    In p (resolveUriToFilePaths pathlib (disk w) uri (skillMap w) skillsDir).
Proof.
  assert (G : forall ops st,
             In (id, p) (openWatchers (run pathlib skillsDir ops st)) ->
             In (id, p) (openWatchers st) \/
             exists w uri,
               In (Subscribe w uri) ops /\
               In p (resolveUriToFilePaths pathlib (disk w) uri (skillMap w) skillsDir)).
  { clear ops. induction ops as [|op ops IH]; intros st H; [auto|].
    cbn [run fold_left] in H.
    change (fold_left _ ops ?s) with (run pathlib skillsDir ops s) in H.
    apply IH in H. destruct H as [H|(w & uri & H1 & H2)].
    - apply step_open in H. destruct H as [H|(w & uri & -> & H)]; [auto|].
      right. exists w, uri. split; [now left | exact H].
    - right. exists w, uri. split; [now right | exact H2]. }
  intros H. apply G in H. destruct H as [[]|H]. exact H.
Qed.

End WatchedPaths.

(** ** The frontmatter: what reaches the YAML parser *)

Module SplitFacts.

Lemma splitFrom_skip sep a rest cur :
  Js.splitFrom sep (a +++ rest) (String.length a) cur = Js.splitFrom sep rest 0 cur.
Proof.
  induction a as [|c a IH]; [reflexivity|]. simpl. exact IH.
Qed.

Lemma prefix_app sep s : String.prefix sep s = true -> exists rest, s = sep +++ rest.
Proof. intros H. now apply JsFacts.startsWith_spec. Qed.

(** The first piece of a split: the text holds no separator, or it is cut
    at the first place where one begins. *)
Lemma splitFrom_cases c0 sep' s : forall cur,
  let sep := String c0 sep' in
  (Js.includes s sep = false /\ Js.splitFrom sep s 0 cur = [cur +++ s]) \/
  (exists a rest,
     s = a +++ sep +++ rest /\
     (forall a1 a2, a = a1 +++ a2 -> a2 <> "" ->
                    String.prefix sep (a2 +++ sep +++ rest) = false) /\
     Js.splitFrom sep s 0 cur = (cur +++ a) :: Js.splitFrom sep rest 0 "").
Proof.
  intros cur sep. revert cur.
  induction s as [|c s IH]; intros cur.
  - left. split; [reflexivity|]. simpl. now rewrite JsFacts.app_nil_r.
  - cbn [Js.splitFrom Js.includes].
    destruct (String.prefix sep (String c s)) eqn:Ep.
    + right. destruct (prefix_app _ _ Ep) as [rest Hrest].
      exists "", rest. split; [exact Hrest|]. split.
      * intros a1 a2 Ha Hne. destruct a1; [simpl in Ha; congruence | discriminate].
      * rewrite JsFacts.app_nil_r. f_equal.
        unfold sep in Hrest. simpl in Hrest. injection Hrest as _ ->.
        unfold sep. cbn [String.length]. rewrite Nat.sub_succ, Nat.sub_0_r.
        apply splitFrom_skip.
    + destruct (IH (cur +++ String c "")) as [[Hi Hs]|(a & rest & Hs & Hfirst & Hsplit)].
      * left. split; [exact Hi|]. rewrite Hs. now rewrite JsFacts.app_assoc.
      * right. exists (String c a), rest. split; [simpl; now rewrite Hs|]. split.
        -- intros a1 a2 Ha Hne. destruct a1 as [|d a1].
           ++ simpl in Ha. subst a2.
              change (String c a +++ sep +++ rest) with (String c (a +++ sep +++ rest)).
              rewrite <- Hs. exact Ep.
           ++ simpl in Ha. injection Ha as _ Ha. now apply (Hfirst a1 a2).
        -- rewrite Hsplit. now rewrite JsFacts.app_assoc.
Qed.

Lemma splitFrom_not_nil sep s cur : Js.splitFrom sep s 0 cur <> [].
Proof.
  revert cur. induction s as [|c s IH]; intros cur; cbn [Js.splitFrom];
    [discriminate|].
  destruct (String.prefix sep (String c s)); [discriminate | apply IH].
Qed.

(** Joining the pieces of a split gives the text back. *)
Lemma join_split c0 sep' n : forall s cur,
  String.length s <= n ->
  Js.joinWith (String c0 sep') (Js.splitFrom (String c0 sep') s 0 cur) = cur +++ s.
Proof.
  induction n as [|n IH]; intros s cur Hlen.
  - destruct s; [|simpl in Hlen; lia]. simpl. now rewrite JsFacts.app_nil_r.
  - destruct (splitFrom_cases c0 sep' s cur) as [[_ ->]|(a & rest & Hs & _ & ->)];
      [reflexivity|].
    pose proof (splitFrom_not_nil (String c0 sep') rest "") as Hn.
    destruct (Js.splitFrom (String c0 sep') rest 0 "") as [|x l] eqn:E; [congruence|].
    change (Js.joinWith (String c0 sep') ((cur +++ a) :: x :: l))
      with ((cur +++ a) +++ String c0 sep' +++ Js.joinWith (String c0 sep') (x :: l)).
    rewrite <- E, IH.
    + rewrite Hs, !JsFacts.app_assoc. reflexivity.
    + rewrite Hs, !XmlFacts.length_app in Hlen. simpl in Hlen. lia.
Qed.

End SplitFacts.

Section FrontmatterFacts.
Variable parseYaml : string -> result Yaml.

(** X30: what [parseFrontmatter] takes as the frontmatter. When it
    returns, the content began with the marker [---], the text handed to
    the YAML parser is the text between that marker and the next one, so it
    holds no marker itself, the parser returned an object for it, and the
    body is everything after the second marker, trimmed. A content that
    does not begin with the marker, or holds no second one, is refused
    before the parser is called. *)
Theorem parseFrontmatter_between_markers content :
  (forall frontmatter body,
     parseFrontmatter parseYaml content = Ok (frontmatter, body) ->
     exists yamlText tail,
       content = "---" +++ yamlText +++ "---" +++ tail /\
       Js.includes yamlText "---" = false /\
       parseYaml yamlText = Ok frontmatter /\ isObject frontmatter = true /\
       body = Js.trim tail) /\
  (Js.startsWith content "---" = false ->
   parseFrontmatter parseYaml content
   = Throw "SKILL.md must start with YAML frontmatter (---)") /\
  (forall rest, content = "---" +++ rest -> Js.includes rest "---" = false ->
   parseFrontmatter parseYaml content
   = Throw "SKILL.md frontmatter not properly closed with ---").
Proof.
  unfold parseFrontmatter.
  destruct (Js.startsWith content "---") eqn:Es; cbn [negb].
  - apply JsFacts.startsWith_spec in Es. destruct Es as [rest0 ->].
    assert (Hparts : Js.split ("---" +++ rest0) "---"
                     = "" :: Js.splitFrom "---" rest0 0 "").
    { unfold Js.split.
      change ("---" +++ rest0) with (String "-" ("--" +++ rest0)).
      cbn [Js.splitFrom].
      replace (String.prefix "---" (String "-" ("--" +++ rest0))) with true
        by (symmetry; apply (JsFacts.startsWith_app "---" rest0)).
      reflexivity. }
    rewrite Hparts.
    destruct (SplitFacts.splitFrom_cases "-" "--" rest0 "")
      as [[Hi Hs]|(a & tail & Hs & Hfirst & Hsplit)]; cbv zeta in *.
    + rewrite Hs. cbn [length Nat.ltb Nat.leb].
      split; [discriminate|]. split; [discriminate|]. reflexivity.
    + change ("" +++ a) with a in Hsplit. rewrite Hsplit. cbn [app nth skipn].
      pose proof (SplitFacts.splitFrom_not_nil "---" tail "") as Hn.
      replace (Nat.ltb (length ("" :: a :: Js.splitFrom "---" tail 0 "")) 3) with false
        by (destruct (Js.splitFrom "---" tail 0 ""); [congruence | reflexivity]).
      split; [|split; [discriminate|]].
      * intros frontmatter body H.
        destruct (parseYaml a) as [fm|e] eqn:Ey; [|discriminate].
        destruct (isObject fm) eqn:Eo; cbn [negb] in H; [|discriminate].
        injection H as <- <-. exists a, tail.
        split; [now rewrite Hs|]. split; [|split; [exact Ey|split; [exact Eo|]]].
        -- destruct (Js.includes a "---") eqn:Ei; [|reflexivity].
           apply JsFacts.includes_spec in Ei. destruct Ei as (a1 & b & Ha).
           specialize (Hfirst a1 ("---" +++ b)).
           rewrite Ha in Hfirst. specialize (Hfirst eq_refl ltac:(discriminate)).
           rewrite JsFacts.app_assoc in Hfirst.
           pose proof (JsFacts.startsWith_app "---" (b +++ "---" +++ tail)) as Hp.
           unfold Js.startsWith in Hp. congruence.
        -- f_equal. apply (SplitFacts.join_split "-" "--" (String.length tail)).
           apply Nat.le_refl.
      * intros rest Hrest Hno. apply (JsFacts.app_inv_head "---") in Hrest. subst rest.
        rewrite Hs in Hno.
        assert (Js.includes (a +++ "---" +++ tail) "---" = true)
          by (apply JsFacts.includes_spec; eauto).
        congruence.
  - split; [discriminate|]. split; [reflexivity|].
    intros rest -> _. now rewrite JsFacts.startsWith_app in Es.
Qed.

End FrontmatterFacts.

(** ** The properties on the sample tree *)

Module OnSample.
Import Sample.

Example scan_result :
  scan = (Ok [("alpha", alpha); ("beta", beta)],
          [SkippingTooLarge "/skills/gamma/SKILL.md" 2097152;
           DuplicateSkillName "alpha" "/skills/alpha2/SKILL.md"]).
Proof. vm_compute. reflexivity. Qed.

(** The root itself, when it cannot be resolved, is not within itself. *)
Lemma fallback_rejects_root_witness :
  isPathWithinBase Disk.posix fs "/gone" "/gone" = false.
Proof.
  apply (isPathWithinBase_fallback_rejects_root Disk.posix fs "/gone" "/gone").
  - reflexivity.
  - discriminate.
  - reflexivity.
Defined.

(** The same root resolves, and is within itself, once it exists. *)
Example resolved_accepts_root :
  isPathWithinBase Disk.posix fs "/skills" "/skills" = true /\
  isPathWithinBase Disk.posix fs "/skills-sibling/x" "/skills" = false /\
  isPathWithinBase Disk.posix fs "/gone-sibling/x" "/gone" = false /\
  isPathWithinBase Disk.posix fs "/gone/x" "/gone" = true.
Proof. vm_compute. repeat split. Qed.



Lemma declares_alpha :
  Declares Disk.posix fs Disk.parseYaml 16 (resolve Disk.posix "/skills")
           (Disk.dir "alpha") "alpha" alpha.
Proof.
  split; [reflexivity|].
  exists "/skills/alpha/SKILL.md", (skillMd "alpha" "d"),
         (YMap [("name", YString "alpha"); ("description", YString "d")]),
         "Body", "alpha", "d", [].
  split; [reflexivity|].
  split; [split; [reflexivity | exists 60%N; split; [reflexivity | discriminate]]|].
  repeat (split; [vm_compute; reflexivity|]). reflexivity.
Qed.

Lemma declares_alpha_again :
  Declares Disk.posix fs Disk.parseYaml 16 (resolve Disk.posix "/skills")
           (Disk.dir "alpha2") "alpha" Cases.alphaAgain.
Proof.
  split; [reflexivity|].
  exists "/skills/alpha2/SKILL.md", (skillMd "alpha  " "second"),
         (YMap [("name", YString "alpha  "); ("description", YString "second")]),
         "Body", "alpha  ", "second", [].
  split; [reflexivity|].
  split; [split; [reflexivity | exists 60%N; split; [reflexivity | discriminate]]|].
  repeat (split; [vm_compute; reflexivity|]). reflexivity.
Qed.

Lemma first_wins_witness :
  let root := resolve Disk.posix "/skills" in
  let m := [("alpha", alpha); ("beta", beta)] in
  let declares := Declares Disk.posix fs Disk.parseYaml 16 root in
  (NoDup (JsMap.keys m) /\
   (forall k v, In (k, v) m -> name v = k /\ k <> "" /\ exists raw, k = Js.trim raw) /\
   (forall entries entry k v,
      existsSync fs root = true ->
      readdirSync fs root = Ok entries ->
      In entry entries ->
      declares entry k v ->
      JsMap.has k m = true) /\
   forall pre entry post k v,
     existsSync fs root = true ->
     readdirSync fs root = Ok (pre ++ entry :: post) ->
     declares entry k v ->
     (forall e v', In e pre -> ~ declares e k v') ->
     JsMap.get k m = Some v /\
     forall e' v', In e' post -> declares e' k v' ->
                   In (DuplicateSkillName k (path v')) (snd scan)) /\
  JsMap.get "alpha" m = Some alpha /\
  JsMap.has "beta" m = true /\
  In (DuplicateSkillName "alpha" "/skills/alpha2/SKILL.md") (snd scan).
Proof.
  intros root m declares.
  pose proof (discoverSkills_first_wins Disk.posix fs Disk.parseYaml 16 "/skills"
                m (snd scan) eq_refl) as H.
  split; [exact H|].
  destruct H as (_ & _ & _ & H).
  destruct (H [] (Disk.dir "alpha")
              [Disk.file "README.md"; Disk.dir "gamma"; Disk.dir "beta"; Disk.dir "alpha2"]
              "alpha" alpha eq_refl eq_refl declares_alpha
              (fun e v' (F : In e []) => match F with end))
    as [H1 H2].
  split; [exact H1|]. split; [reflexivity|].
  apply (H2 (Disk.dir "alpha2") Cases.alphaAgain);
    [simpl; tauto | exact declares_alpha_again].
Defined.

Lemma rejects_dotdot_witness :
  loadDocument Disk.posix fs beta "refs/a..b.md" "/skills"
  = (Throw "Path traversal not allowed", []).
Proof.
  apply loadDocument_rejects_dotdot. exists "refs/a", "b.md". reflexivity.
Defined.

Lemma missing_root_witness :
  discoverSkills Disk.posix fs Disk.parseYaml 16 "/nowhere"
  = (Ok [], [SkillsDirNotFound "/nowhere"]).
Proof.
  apply (discoverSkills_missing_root Disk.posix fs Disk.parseYaml 16 "/nowhere").
  reflexivity.
Defined.

End OnSample.

Module OnScenario.
Import Sample Scenario.

Example resolve_examples :
  resolveUriToFilePaths Disk.posix fs "skill://prompt-xml" catalog "/skills"
  = ["/skills/alpha/SKILL.md"; "/skills/beta/skill.md"] /\
  resolveUriToFilePaths Disk.posix fs "skill://beta/_manifest" catalog "/skills"
  = ["/skills/beta"] /\
  resolveUriToFilePaths Disk.posix fs "skill://beta/refs/r.md" catalog "/skills"
  = ["/skills/beta/refs/r.md"] /\
  resolveUriToFilePaths Disk.posix fs "skill://beta/../../etc/passwd" catalog "/skills"
  = [] /\
  resolveUriToFilePaths Disk.posix fs "skill://gamma/SKILL.md" catalog "/skills" = [] /\
  resolveUriToFilePaths Disk.posix fs "file:///skills/alpha/SKILL.md" catalog "/skills"
  = [].
Proof. vm_compute. repeat split. Qed.

Lemma resolver_rules_witness :
  resolveUriToFilePaths Disk.posix fs "skill://alpha/SKILL.md" catalog "/skills"
  = ["/skills/alpha/SKILL.md"] /\
  resolveUriToFilePaths Disk.posix fs "skill://beta/_manifest" catalog "/skills"
  = ["/skills/beta"] /\
  resolveUriToFilePaths Disk.posix fs "skill://beta/refs/r.md" catalog "/skills"
  = ["/skills/beta/refs/r.md"] /\
  resolveUriToFilePaths Disk.posix fs "skill:/alpha" catalog "/skills" = [].
Proof.
  destruct (resolveUriToFilePaths_rules Disk.posix fs "/skills" catalog)
    as (_ & Hcontent & Hmanifest & Hfile & Hother).
  split; [|split; [|split]].
  - apply (Hcontent "alpha" alpha); [split; [discriminate | reflexivity] | reflexivity].
  - apply (Hmanifest "beta" beta); [split; [discriminate | reflexivity] | reflexivity].
  - apply (Hfile "beta" "refs/r.md" beta);
      try (split; [discriminate | reflexivity]); try discriminate; reflexivity.
  - apply Hother; [discriminate|]. intros n rest H. discriminate.
Defined.

(** A subscription, an event on the file, and the unsubscription before
    the timer fires: the timer is gone and nobody is notified, whatever
    fires later. *)
Lemma unsubscribe_in_window_witness :
  let st2 := unsubscribe alphaUri
               (run [FileChange "/skills/alpha/SKILL.md"]
                    (snd (subscribe calm alphaUri createSubscriptionManager))) in
  notifications alphaUri
    (run [TimerFires 0; FileChange "/skills/alpha/SKILL.md"; TimerFires 1] st2) = 0 /\
  (forall t, ~ In (t, alphaUri) (pendingTimers st2)) /\
  JsSet.has alphaUri (subscribedUris st2) = false.
Proof.
  apply (unsubscribe_in_window_suppresses Disk.posix "/skills" [] calm alphaUri
           [FileChange "/skills/alpha/SKILL.md"]
           [TimerFires 0; FileChange "/skills/alpha/SKILL.md"; TimerFires 1]);
    vm_compute; reflexivity.
Defined.

(** Without the unsubscription the same event is notified once. *)
Example notified_when_subscribed :
  notified (run [Subscribe calm alphaUri; FileChange "/skills/alpha/SKILL.md";
                 FileChange "/skills/alpha/SKILL.md"; TimerFires 0; TimerFires 1]
                createSubscriptionManager)
  = [alphaUri].
Proof. vm_compute. reflexivity. Qed.

Lemma one_watcher_per_path_witness :
  let st := run sharedOps createSubscriptionManager in
  (forall p, length (handlesOn p st) <= 1) /\
  (forall p, handlesOn p st <> [] <-> dependents p st <> []).
Proof. exact (one_watcher_per_path Disk.posix "/skills" sharedOps). Defined.

Example shared_watcher_survives :
  let st := run sharedOps createSubscriptionManager in
  handlesOn "/skills/alpha/SKILL.md" st = [(0, "/skills/alpha/SKILL.md")] /\
  dependents "/skills/alpha/SKILL.md" st = ["skill://prompt-xml"] /\
  handlesOn "/skills/beta" st = [] /\ dependents "/skills/beta" st = [].
Proof. vm_compute. repeat split. Qed.



Example rescan_result :
  discoverSkills Disk.posix (Disk.fs editedDisk) Disk.parseYaml 16 "/skills"
  = (Ok rescanned, []).
Proof. vm_compute. reflexivity. Qed.

Example reconcile_example :
  let srv := snd (onChanged server) in
  JsMap.keys (Index.skillMap srv) = ["alpha"; "delta"] /\
  JsMap.keys (Index.resourceHandles srv) = ["alpha"; "delta"] /\
  subscribedUris (Index.subscriptions srv) = [] /\
  openWatchers (Index.subscriptions srv) = [].
Proof. vm_compute. repeat split. Qed.

(** The unit scanned anew does not replace the one in the catalog. *)
Lemma reconcile_does_not_replace :
  fst (discoverSkills Disk.posix (Disk.fs editedDisk) Disk.parseYaml 16 "/skills")
  = Ok rescanned /\
  JsMap.get "alpha" rescanned = Some alphaEdited /\
  JsMap.get "alpha" (Index.skillMap server) = Some alpha /\
  JsMap.get "alpha" (Index.skillMap (snd (onChanged server))) <> Some alphaEdited.
Proof. vm_compute. repeat split. discriminate. Qed.

Lemma reconcile_keeps_witness :
  fst (onChanged server) = Ok tt /\
  JsMap.get "alpha" (Index.skillMap (snd (onChanged server))) = Some alpha.
Proof.
  apply (IndexFacts.onChanged_keeps_existing_unit Disk.posix (Disk.fs editedDisk)
           Disk.parseYaml 16 "/skills" server rescanned "alpha" alpha);
    vm_compute; reflexivity.
Defined.

End OnScenario.

(** ** The further properties on the sample tree *)

Module OnCases.
Import Scenario Cases.

Example escaped_description :
  escapeXml "a < b & c" = "a &lt; b &amp; c" /\
  generateSkillsXML [("alpha", Sample.alpha)]
  = "<available_skills>" +++ Sample.nl +++ "  <skill>" +++ Sample.nl
    +++ "    <name>alpha</name>" +++ Sample.nl
    +++ "    <description>d</description>" +++ Sample.nl
    +++ "    <uri>skill://alpha/SKILL.md</uri>" +++ Sample.nl
    +++ "  </skill>" +++ Sample.nl +++ "</available_skills>".
Proof. split; reflexivity. Qed.

Lemma escapeXml_fixed_points_witness : escapeXml "Review code" = "Review code".
Proof. apply (proj2 (XmlFacts.escapeXml_fixed_points "Review code")). reflexivity. Defined.

Lemma isRelevantEvent_cases_witness :
  isRelevantEvent "/skills" "/skills/alpha" "addDir" = true /\
  isRelevantEvent "/skills" "/skills/alpha/SKILL.md" "add" = true /\
  isRelevantEvent "/skills" "/skills/alpha/refs/r.md" "add" = false.
Proof.
  destruct (WatcherFacts.isRelevantEvent_cases "/skills" "addDir") as (H1 & _).
  destruct (WatcherFacts.isRelevantEvent_cases "/skills" "add") as (_ & H2 & H3 & _).
  split; [|split].
  - refine (H1 "alpha" eq_refl _). discriminate.
  - exact (H2 "alpha" "SKILL.md" eq_refl eq_refl).
  - exact (H3 "alpha" "refs" "r.md" eq_refl eq_refl).
Defined.

Lemma watcher_burst_witness :
  exists t,
    scheduled (watchRun "/skills" (map (fun e => WatchEvent (fst e) (snd e)) arrival)
                        createSkillDirectoryWatcher) = [t] /\
    changes (debounceFires t
               (watchRun "/skills" (map (fun e => WatchEvent (fst e) (snd e)) arrival)
                         createSkillDirectoryWatcher)) = 1.
Proof.
  destruct (WatcherFacts.watcher_burst_one_callback "/skills" [] arrival eq_refl)
    as (_ & t & H1 & _ & H2 & _).
  exists t. split; [exact H1 | exact H2].
Defined.

Lemma watcher_close_witness :
  changes (watchRun "/skills" [DebounceFires 0]
             (closeDirWatcher
                (watchRun "/skills" [WatchEvent "/skills/delta" "addDir"]
                          createSkillDirectoryWatcher))) = 0.
Proof.
  exact (proj2 (WatcherFacts.watcher_close_cancels
                  "/skills" [WatchEvent "/skills/delta" "addDir"] [DebounceFires 0]
                  eq_refl)).
Defined.

Lemma loadSkillContent_witness :
  Js.endsWith "/skills/alpha/SKILL.md" ".md" = true /\
  checkedFile Disk.posix Sample.fs "/skills" "/skills/alpha/SKILL.md" /\
  readFileSync Sample.fs "/skills/alpha/SKILL.md" = Ok (Sample.skillMd "alpha" "d").
Proof.
  destruct (loadSkillContent_reads_checked Disk.posix Sample.fs "/skills/alpha/SKILL.md" "/skills")
    as (_ & _ & H & _).
  apply H. reflexivity.
Defined.

Lemma loadDocument_witness :
  Js.includes "refs/r.md" ".." = false /\
  checkedFile Disk.posix Sample.fs "/skills" "/skills/beta/refs/r.md" /\
  readFileSync Sample.fs "/skills/beta/refs/r.md" = Ok "x".
Proof.
  destruct (loadDocument_reads_checked Disk.posix Sample.fs Sample.beta "refs/r.md" "/skills")
    as (_ & _ & H & _).
  apply H. reflexivity.
Defined.

Lemma loadSkillTool_witness :
  exists skill,
    JsMap.get "alpha" catalog = Some skill /\
    Js.endsWith (path skill) ".md" = true /\
    checkedFile Disk.posix Sample.fs "/skills" (path skill) /\
    readFileSync Sample.fs (path skill) = Ok (Sample.skillMd "alpha" "d").
Proof.
  exact (proj2 (proj2 (loadSkillTool_reads_catalog_path
                         Disk.posix Sample.fs catalog "/skills" "alpha")) eq_refl).
Defined.

Lemma readDocumentResource_witness :
  exists skill doc,
    JsMap.get "beta" catalog = Some skill /\
    In doc (documents skill) /\ doc_path doc = "refs/r.md" /\
    mimeType doc = "text/markdown" /\
    checkedFile Disk.posix Sample.fs "/skills" (join Disk.posix (skillDir skill) "refs/r.md") /\
    readFileSync Sample.fs (join Disk.posix (skillDir skill) "refs/r.md") = Ok "x".
Proof.
  exact (proj1 (proj2 (readDocumentResource_reads_listed
                         Disk.posix Sample.fs catalog "/skills" "beta" "refs/r.md"))
               "text/markdown" eq_refl).
Defined.

Lemma catalog_ok : CatalogOk catalog.
Proof.
  split.
  - repeat constructor; simpl; intuition discriminate.
  - intros k v [[= <- <-]|[[= <- <-]|[]]]; (split; [reflexivity|]);
      (split; [discriminate|]); [exists "alpha" | exists "beta"]; reflexivity.
Qed.

Lemma completions_witness :
  Js.startsWith "beta" "b" = true /\
  (exists skill, JsMap.get "beta" catalog = Some skill /\ documents skill <> []) /\
  completeDocumentPath catalog "" (Some "beta") <> [].
Proof.
  refine (proj1 (completions_sound catalog catalog_ok) "b" "beta" _).
  left. reflexivity.
Defined.

Lemma scanDocuments_witness :
  (50 <= MAX_FILE_SIZE)%N /\ occurrences "\"%char "refs/r.md" = 0.
Proof.
  refine (proj2 (scanDocuments_lists_checked_files
                   Disk.posix Sample.fs 16 "/skills/beta" "/skills" (documents Sample.beta)
                   {| doc_path := "refs/r.md"; mimeType := "text/markdown"; size := 50 |}
                   _ _)).
  - reflexivity.
  - left. reflexivity.
Defined.

Lemma units_declared_witness :
  exists entries entry,
    readdirSync Sample.fs (resolve Disk.posix "/skills") = Ok entries /\ In entry entries /\
    UnitOf Disk.posix Sample.fs Disk.parseYaml 16 (resolve Disk.posix "/skills") entry
           "beta" Sample.beta.
Proof.
  refine (discoverSkills_units_declared Disk.posix Sample.fs Disk.parseYaml 16 "/skills"
            catalog _ "beta" Sample.beta _ _).
  - vm_compute. reflexivity.
  - right. left. reflexivity.
Defined.

Lemma reports_every_skip_witness :
  (existsSync Sample.fs (resolve Disk.posix "/skills") = false /\
   catalog = [] /\
   [SkippingTooLarge "/skills/gamma/SKILL.md" 2097152;
    DuplicateSkillName "alpha" "/skills/alpha2/SKILL.md"]
   = [SkillsDirNotFound (resolve Disk.posix "/skills")]) \/
  (existsSync Sample.fs (resolve Disk.posix "/skills") = true /\
   exists entries,
     readdirSync Sample.fs (resolve Disk.posix "/skills") = Ok entries /\
     length catalog
     + length [SkippingTooLarge "/skills/gamma/SKILL.md" 2097152;
               DuplicateSkillName "alpha" "/skills/alpha2/SKILL.md"]
     = length (filter (hasDefinition Disk.posix Sample.fs (resolve Disk.posix "/skills"))
                      entries)).
Proof.
  apply (discoverSkills_reports_every_skip Disk.posix Sample.fs Disk.parseYaml 16
           "/skills").
  vm_compute. reflexivity.
Defined.

Lemma stat_failure_witness :
  discoverSkills Disk.posix guarded Disk.parseYaml 16 "/skills"
  = (Throw "EACCES: permission denied",
     [SkippingTooLarge "/skills/gamma/SKILL.md" 2097152]).
Proof.
  apply (discoverSkills_stat_failure_aborts Disk.posix guarded Disk.parseYaml 16 "/skills"
           [Disk.dir "alpha"; Disk.file "README.md"; Disk.dir "gamma"]
           (Disk.dir "beta") [Disk.dir "alpha2"] "/skills/beta/skill.md"
           "EACCES: permission denied" [("alpha", Sample.alpha)]);
    vm_compute; reflexivity.
Defined.

Lemma names_trimmed_witness :
  Js.trim "beta" = "beta" /\ "beta" <> "" /\ Js.trim "b" = "b" /\ "b" <> "".
Proof.
  refine (discoverSkills_names_trimmed Disk.posix Sample.fs Disk.parseYaml 16 "/skills"
            catalog _ "beta" Sample.beta _ _).
  - vm_compute. reflexivity.
  - right. left. reflexivity.
Defined.

Lemma frontmatter_witness :
  exists yamlText tail,
    Sample.skillMd "alpha" "d" = "---" +++ yamlText +++ "---" +++ tail /\
    Js.includes yamlText "---" = false /\
    Disk.parseYaml yamlText
    = Ok (YMap [("name", YString "alpha"); ("description", YString "d")]) /\
    isObject (YMap [("name", YString "alpha"); ("description", YString "d")]) = true /\
    "Body" = Js.trim tail.
Proof.
  refine (proj1 (parseFrontmatter_between_markers Disk.parseYaml (Sample.skillMd "alpha" "d"))
                _ _ _).
  vm_compute. reflexivity.
Defined.

Lemma resolver_safe_witness :
  ("skill://beta/refs/r.md" = "skill://prompt-xml" /\
   exists skill, In skill (JsMap.values catalog) /\ "/skills/beta/refs/r.md" = path skill) \/
  (exists n rest skill,
     "skill://beta/refs/r.md" = "skill://" +++ n +++ "/" +++ rest /\
     JsMap.get n catalog = Some skill /\
     resolveUriToFilePaths Disk.posix Sample.fs "skill://beta/refs/r.md" catalog "/skills"
     = ["/skills/beta/refs/r.md"] /\
     ("/skills/beta/refs/r.md" = path skill \/ "/skills/beta/refs/r.md" = skillDir skill \/
      ("/skills/beta/refs/r.md" = join Disk.posix (skillDir skill) rest /\
       isPathWithinBase Disk.posix Sample.fs "/skills/beta/refs/r.md" "/skills" = true))).
Proof.
  apply (resolveUriToFilePaths_safe Disk.posix "/skills" Sample.fs "skill://beta/refs/r.md"
           catalog "/skills/beta/refs/r.md").
  left. reflexivity.
Defined.

Lemma close_releases_witness :
  pendingTimers (close (run alphaChanged createSubscriptionManager)) = [] /\
  notifications alphaUri
    (run [TimerFires 0; FileChange "/skills/alpha/SKILL.md"]
         (close (run alphaChanged createSubscriptionManager))) = 0.
Proof.
  destruct (close_releases_everything Disk.posix "/skills" alphaChanged
              [TimerFires 0; FileChange "/skills/alpha/SKILL.md"] alphaUri eq_refl)
    as (_ & H1 & _ & _ & _ & _ & _ & H2).
  split; [exact H1 | exact H2].
Defined.

Lemma clears_namespace_witness :
  In alphaUri
     (subscribedUris
        (unsubscribeByPrefix "skill://beta/" (Index.subscriptions busyServer))).
Proof.
  apply (proj1 (unsubscribeByPrefix_clears_namespace Disk.posix "/skills"
                  [ Subscribe calm "skill://beta/_manifest"; Subscribe calm alphaUri;
                    Subscribe calm "skill://prompt-xml" ] "skill://beta/")).
  split; [right; left; reflexivity | reflexivity].
Defined.

Lemma one_pending_timer_witness :
  JsMap.get alphaUri (debounceTimers (run alphaChanged createSubscriptionManager)) = Some 0 /\
  In alphaUri (subscribedUris (run alphaChanged createSubscriptionManager)).
Proof.
  apply (proj2 (one_pending_timer_per_uri Disk.posix "/skills" alphaChanged alphaUri)).
  left. reflexivity.
Defined.

Lemma pending_timer_witness :
  notified (timerFires 0 (run alphaChanged createSubscriptionManager)) = [alphaUri].
Proof.
  refine (proj1 (pending_timer_notifies_once Disk.posix "/skills" alphaChanged 0 alphaUri _)).
  left. reflexivity.
Defined.



Lemma watchers_resolved_witness :
  exists w uri,
    In (Subscribe w uri) alphaWatched /\
    In "/skills/alpha/SKILL.md"
       (resolveUriToFilePaths Disk.posix (disk w) uri (skillMap w) "/skills").
Proof.
  apply (watchers_on_resolved_paths Disk.posix "/skills" alphaWatched 0
           "/skills/alpha/SKILL.md").
  left. reflexivity.
Defined.

Lemma reconcile_names_witness :
  JsMap.get "delta" (Index.skillMap (Index.reconcile rescanned server)) = Some delta.
Proof.
  exact (proj2 (ReconcileFacts.reconcile_names_follow_scan rescanned server "delta")
               eq_refl).
Defined.

Lemma reconcile_subscriptions_witness :
  In alphaUri
     (subscribedUris (Index.subscriptions (Index.reconcile rescanned busyServer))).
Proof.
  apply (proj2 (ReconcileFacts.reconcile_subscriptions rescanned busyServer alphaUri)).
  split; [right; left; reflexivity|].
  intros n Hold Hnew.
  destruct (String.eqb n "alpha") eqn:Ea.
  - apply String.eqb_eq in Ea. subst n. discriminate Hnew.
  - destruct (String.eqb n "beta") eqn:Eb.
    + apply String.eqb_eq in Eb. subst n. reflexivity.
    + unfold JsMap.has in Hold. simpl in Hold. rewrite Ea, Eb in Hold. discriminate Hold.
Defined.

End OnCases.
